(** * Flashpoint: historical fire-pattern analytics engine

    A shallow embedding of the TypeScript sources
      - [lib/terrain.ts]              terrain analyzer
      - [lib/perimeter-processor.ts]  perimeter processor
      - [lib/directional-spread.ts]   spread index and predictor
      - [lib/iap/constants.ts], [scoring.ts], [reasoning.ts],
        [snippet-extractor.ts], [matcher.ts]   IAP similarity matcher
    together with the properties stated about them.

    Numbers.  A JavaScript [number] is modelled by a rational ([Q]);
    arithmetic is exact (no rounding, no NaN, no infinities).  A number
    that the code only uses as an integer (a millisecond timestamp, a
    count, a rounded score, an array bound) is a [Z].  [Math.PI] is the
    binary64 constant, which is itself a rational.  The transcendental
    functions of [Math], the number-to-string conversions and the turf
    geometry library are not part of the repository: they are interfaces
    ([MathLib], [NumberFormat], [Turf]) the code is parameterised by.

    Absent values.  [undefined]/[null] is [None]; a call that throws is a
    result [None] of the function that throws, propagated to the
    enclosing [try]/[catch] or to the caller. *)

From Stdlib Require Import QArith Qround Qabs Qminmax ZArith Lia Lqa.
From Stdlib Require Import Sorting.Sorted Strings.Ascii Strings.String.
From stdpp Require Import base option list strings gmap pretty.

Local Open Scope Q_scope.

(** ** JavaScript runtime *)

Module Js.

(** [Math.PI] is the double 0x400921FB54442D18 = 884279719003555 / 2^48. *)
Definition Math_PI : Q := 884279719003555 # 281474976710656.

Definition Math_floor (x : Q) : Z := Qfloor x.
Definition Math_ceil (x : Q) : Z := Qceiling x.

(** [Math.round] rounds to the nearest integer, ties towards +infinity. *)
Definition Math_round (x : Q) : Z := Qfloor (x + (1 # 2)).

Definition Math_abs (x : Q) : Q := Qabs x.
Definition Math_min (x y : Q) : Q := Qmin x y.
Definition Math_max (x y : Q) : Q := Qmax x y.

(** [Math.max(...xs)] and [Math.min(...xs)] on a non-empty spread; the
    head is passed apart so that no infinity is needed. *)
Definition Math_max_of (x : Q) (xs : list Q) : Q := foldl Math_max x xs.
Definition Math_min_of (x : Q) (xs : list Q) : Q := foldl Math_min x xs.

(** Truncation towards zero, and the remainder operator [%] whose result
    takes the sign of the dividend. *)
Definition trunc (x : Q) : Z := Z.quot (Qnum x) (Zpos (Qden x)).
Definition rem (a b : Q) : Q := a - b * inject_Z (trunc (a / b)).

Definition ltb (x y : Q) : bool := negb (Qle_bool y x).
Definition leb (x y : Q) : bool := Qle_bool x y.
Definition gtb (x y : Q) : bool := ltb y x.
Definition geb (x y : Q) : bool := leb y x.
Definition eqb (x y : Q) : bool := Qeq_bool x y.

(** Truthiness of a possibly absent number and string. *)
Definition truthyZ (x : option Z) : bool :=
  match x with Some n => negb (Z.eqb n 0) | None => false end.
Definition truthyQ (x : option Q) : bool :=
  match x with Some q => negb (eqb q 0) | None => false end.
Definition truthyS (x : option string) : bool :=
  match x with Some s => negb (String.eqb s "") | None => false end.

(** [Array.prototype.slice(0, end)] for an integer [end]: a negative
    [end] counts from the end of the array. *)
Definition slice0 {A} (l : list A) (e : Z) : list A :=
  if (e <? 0)%Z then take (Z.to_nat (Z.max (Z.of_nat (length l) + e) 0)) l
  else take (Z.to_nat e) l.

(** [Array.prototype.sort(cmp)]: a stable sort; [x] goes before [y] when
    [cmp x y <= 0] and [x] came first. *)
Fixpoint sort_insert {A} (cmp : A -> A -> Q) (x : A) (l : list A) : list A :=
  match l with
  | [] => [x]
  | y :: l' => if leb (cmp x y) 0 then x :: l else y :: sort_insert cmp x l'
  end.
Definition sort {A} (cmp : A -> A -> Q) (l : list A) : list A :=
  foldr (sort_insert cmp) [] l.

(** The order a comparator stands for. *)
Definition before {A} (cmp : A -> A -> Q) (x y : A) : Prop := cmp x y <= 0.

(** [String.prototype.includes] and [toLowerCase] (ASCII letters). *)
Fixpoint includes (needle s : string) : bool :=
  String.prefix needle s ||
  match s with
  | EmptyString => false
  | String _ s' => includes needle s'
  end.

Definition lower_ascii (c : Ascii.ascii) : Ascii.ascii :=
  let n := Ascii.nat_of_ascii c in
  if (65 <=? n)%nat && (n <=? 90)%nat then Ascii.ascii_of_nat (n + 32) else c.
Fixpoint toLowerCase (s : string) : string :=
  match s with
  | EmptyString => EmptyString
  | String c s' => String (lower_ascii c) (toLowerCase s')
  end.

Definition upper_ascii (c : Ascii.ascii) : Ascii.ascii :=
  let n := Ascii.nat_of_ascii c in
  if (97 <=? n)%nat && (n <=? 122)%nat then Ascii.ascii_of_nat (n - 32) else c.
Fixpoint toUpperCase (s : string) : string :=
  match s with
  | EmptyString => EmptyString
  | String c s' => String (upper_ascii c) (toUpperCase s')
  end.

(** The part of [Math] that is not rational arithmetic. *)
Class MathLib := {
  Math_sqrt : Q -> Q;
  Math_sin : Q -> Q;
  Math_cos : Q -> Q;
  Math_atan : Q -> Q;
  Math_atan2 : Q -> Q -> Q;
}.

(** Number-to-string conversions: [x.toFixed(d)], [`${x}`] and
    [x.toLocaleString()]. *)
Class NumberFormat := {
  toFixed : Q -> nat -> string;
  toString : Q -> string;
  toLocaleString : Q -> string;
}.

(** An absent string interpolated in a template literal. *)
Definition template (x : option string) : string := default "undefined" x.

(** [Math.random()]: the generator is a state holding the draws to come;
    every call consumes one. *)
Record Rng := { draws : nat -> Q; pos : nat }.
Definition Rand (A : Type) : Type := Rng -> A * Rng.
Definition ret {A} (a : A) : Rand A := fun s => (a, s).
Definition bind {A B} (m : Rand A) (k : A -> Rand B) : Rand B :=
  fun s => let (a, s') := m s in k a s'.
Definition Math_random : Rand Q :=
  fun s => (draws s (pos s), {| draws := draws s; pos := S (pos s) |}).

End Js.

Notation "'let!' x ':=' m 'in' k" := (Js.bind m (fun x => k))
  (at level 10, x name, m at level 100, k at level 200).

(** ** Terrain analyzer ([src/lib/terrain.ts]) *)

Module Terrain.
Import Js.

Inductive TerrainType := flat | gentle | moderate | steep | extreme.

(** [aspect] is declared a string; [getTerrainMetrics] can store
    [undefined] in it (see [degreesToCardinal]), hence the option. *)
Record TerrainMetrics := {
  elevation : Q;
  slope : Q;
  slopeAngle : Q;
  aspect : option string;
  aspectDegrees : Q;
  nearbyRidgeline : bool;
  ridgelineDistKm : option Q;
  ridgelineDirection : option string;
  terrainType : TerrainType;
  notes : list string;
}.

Definition with_notes (m : TerrainMetrics) (n : list string) : TerrainMetrics :=
  {| elevation := elevation m; slope := slope m; slopeAngle := slopeAngle m;
     aspect := aspect m; aspectDegrees := aspectDegrees m;
     nearbyRidgeline := nearbyRidgeline m; ridgelineDistKm := ridgelineDistKm m;
     ridgelineDirection := ridgelineDirection m; terrainType := terrainType m;
     notes := n |}.

(** [directions[Math.round(degrees / 45) % 8]]: the index is negative for
    [degrees < -22.5], and the array read is then [undefined]. *)
Definition degreesToCardinal (degrees : Q) : option string :=
  let directions := ["N"; "NE"; "E"; "SE"; "S"; "SW"; "W"; "NW"] in
  let index := Z.rem (Math_round (degrees / 45)) 8 in
  if (index <? 0)%Z then None else directions !! Z.to_nat index.

Definition calculateSlope (elev1 elev2 distanceMeters : Q) : Q :=
  let elevationDiff := Math_abs (elev2 - elev1) in
  (elevationDiff / distanceMeters) * 100.

Record Aspect := { degrees : Q; direction : option string }.

Definition calculateAspect `{MathLib}
    (centerElev northElev southElev eastElev westElev cellSize : Q) : Aspect :=
  let dz_dx := (eastElev - westElev) / (2 * cellSize) in
  let dz_dy := (northElev - southElev) / (2 * cellSize) in
  let aspectRad := Math_atan2 dz_dy (- dz_dx) in
  let aspectDeg := aspectRad * 180 / Math_PI in
  let aspectDeg := rem (90 - aspectDeg + 360) 360 in
  let slopeGradient := Math_sqrt (dz_dx * dz_dx + dz_dy * dz_dy) in
  if ltb slopeGradient (1 # 100) then {| degrees := 0; direction := Some "flat" |}
  else {| degrees := aspectDeg; direction := degreesToCardinal aspectDeg |}.

Definition categorizeSlope (slopePercent : Q) : TerrainType :=
  if ltb slopePercent 5 then flat
  else if ltb slopePercent 15 then gentle
  else if ltb slopePercent 30 then moderate
  else if ltb slopePercent 50 then steep
  else extreme.

Definition detectRidgeline
    (centerElev northElev southElev eastElev westElev threshold : Q) : bool :=
  gtb centerElev (northElev + threshold) &&
  gtb centerElev (southElev + threshold) &&
  gtb centerElev (eastElev + threshold) &&
  gtb centerElev (westElev + threshold).

Definition is_sunny (a : option string) : bool :=
  match a with
  | Some s => bool_decide (s ∈ ["S"; "SW"; "SE"])
  | None => false
  end.

Definition generateTerrainNotes `{NumberFormat} (metrics : TerrainMetrics)
    : list string :=
  let notes := [] in
  let notes :=
    if gtb (slope metrics) 30 then
      notes ++ ["Steep terrain - fire can spread 3-5x faster uphill"]
    else if gtb (slope metrics) 15 then
      notes ++ ["Moderate slopes increase uphill fire spread rate by 2-3x"]
    else notes in
  let notes :=
    if is_sunny (aspect metrics) then
      notes ++ [template (aspect metrics) +:+
                "-facing slope receives more sun exposure - expect drier fuels"]
    else notes in
  let notes :=
    if nearbyRidgeline metrics && truthyQ (ridgelineDistKm metrics) then
      notes ++ ["Ridgeline " +:+ toFixed (default 0 (ridgelineDistKm metrics)) 1 +:+
                "km " +:+ template (ridgelineDirection metrics) +:+
                " - potential natural control line"]
    else notes in
  notes.

(** The mock implementation.  [mockSlope > 20 && Math.random() > 0.6]
    draws only when its left operand holds; the two conditional
    expressions draw only when a ridge was mocked. *)
Definition getTerrainMetrics `{MathLib} `{NumberFormat} (lat lon : Q)
    : Rand TerrainMetrics :=
  let mockElevation := 200 + Math_abs (lat - 37) * 100 in
  let! r := Math_random in
  let mockSlope := 10 + r * 20 in
  let mockAspectDeg := rem (lon * 10) 360 in
  let mockAspect := degreesToCardinal mockAspectDeg in
  let! mockNearbyRidge :=
    (if gtb mockSlope 20 then let! r := Math_random in ret (gtb r (6 # 10))
     else ret false) in
  let! mockRidgeDist :=
    (if mockNearbyRidge : bool
     then let! r := Math_random in ret (Some ((5 # 10) + r * (15 # 10)))
     else ret None) in
  let! mockRidgeDir :=
    (if mockNearbyRidge : bool
     then let! r := Math_random in ret (degreesToCardinal (r * 360))
     else ret None) in
  let metrics :=
    {| elevation := mockElevation;
       slope := mockSlope;
       slopeAngle := Math_atan (mockSlope / 100) * 180 / Math_PI;
       aspect := mockAspect;
       aspectDegrees := mockAspectDeg;
       nearbyRidgeline := mockNearbyRidge;
       ridgelineDistKm := mockRidgeDist;
       ridgelineDirection := mockRidgeDir;
       terrainType := categorizeSlope mockSlope;
       notes := [] |} in
  ret (with_notes metrics (generateTerrainNotes metrics)).

(** [currentMetrics.aspect.toLowerCase()] throws a TypeError when the
    aspect is [undefined]: the result is then [None]. *)
Definition calculateTerrainSimilarity (currentMetrics : TerrainMetrics)
    (iapText : string) : option Q :=
  let score := 0 in
  let lowerText := toLowerCase iapText in
  let score :=
    if gtb (slope currentMetrics) 25 &&
       (includes "steep" lowerText || includes "rugged" lowerText)
    then score + 30
    else if gtb (slope currentMetrics) 15 && includes "slope" lowerText
    then score + 20
    else if ltb (slope currentMetrics) 10 &&
            (includes "flat" lowerText || includes "level" lowerText)
    then score + 25
    else score in
  let score :=
    if nearbyRidgeline currentMetrics && includes "ridge" lowerText
    then score + 25 else score in
  let terrainKeywords := ["terrain"; "topography"; "elevation"; "canyon"; "valley"] in
  let hasTerrainKeywords := existsb (fun kw => includes kw lowerText) terrainKeywords in
  let score := if hasTerrainKeywords then score + 15 else score in
  a ← aspect currentMetrics;
  let score :=
    if includes (toLowerCase a +:+ "-facing") lowerText ||
       includes (toLowerCase a +:+ " facing") lowerText
    then score + 10 else score in
  Some (Math_min score 100).

(** *** The other functions of [terrain.ts] *)


Definition toRad (deg : Q) : Q := deg * Math_PI / 180.
Definition toDeg (rad : Q) : Q := rad * 180 / Math_PI.


Definition calculateBearing `{MathLib} (lat1 lon1 lat2 lon2 : Q) : Q :=
  let dLon := toRad (lon2 - lon1) in
  let y := Math_sin dLon * Math_cos (toRad lat2) in
  let x := Math_cos (toRad lat1) * Math_sin (toRad lat2) -
           Math_sin (toRad lat1) * Math_cos (toRad lat2) * Math_cos dLon in
  let bearing := toDeg (Math_atan2 y x) in
  rem (bearing + 360) 360.


Record TacticalValue := {
  advantages : list string;
  hazards : list string;
}.

Definition assessTerrainTacticalValue `{NumberFormat} (metrics : TerrainMetrics)
    : TacticalValue :=
  let advantages := [] in
  let hazards := [] in
  let advantages :=
    if nearbyRidgeline metrics && truthyQ (ridgelineDistKm metrics) &&
       ltb (default 0 (ridgelineDistKm metrics)) (15 # 10)
    then advantages ++
         ["Ridgeline " +:+ toFixed (default 0 (ridgelineDistKm metrics)) 1 +:+
          "km away - natural anchor for control line"]
    else advantages in
  let hazards :=
    if gtb (slope metrics) 30 then
      hazards ++ ["Steep uphill slopes - rapid fire spread if fire runs uphill";
                  "Difficult dozer access on steep terrain"]
    else hazards in
  let hazards :=
    if gtb (slope metrics) 40 then
      hazards ++
        ["Extreme slopes - hand crew safety concern, maintain escape routes"]
    else hazards in
  let hazards :=
    if is_sunny (aspect metrics) then
      hazards ++ [template (aspect metrics) +:+
                  "-facing slope - drier fuels increase fire intensity"]
    else hazards in
  let advantages :=
    match terrainType metrics with
    | flat | gentle =>
        advantages ++
          ["Flat to gentle terrain - good dozer access and crew mobility"]
    | _ => advantages
    end in
  {| advantages := advantages; hazards := hazards |}.

(** *** Vocabulary of the properties *)

(** [Math.random()] returns a number in [0, 1). *)
Definition unit_draws (s : Rng) : Prop :=
  forall n, 0 <= draws s n /\ draws s n < 1.

(** Two generators agree on the draws [getTerrainMetrics] may consume,
    which are the next four. *)
Definition same_draws (s1 s2 : Rng) : Prop :=
  forall k, (k < 4)%nat -> draws s1 (pos s1 + k) = draws s2 (pos s2 + k).


(** The eight compass points of [degreesToCardinal], in its order. *)
Definition compass : list string := ["N"; "NE"; "E"; "SE"; "S"; "SW"; "W"; "NW"].

(** The rank of a terrain type, from flat to extreme. *)
Definition steepness (t : TerrainType) : nat :=
  match t with
  | flat => 0 | gentle => 1 | moderate => 2 | steep => 3 | extreme => 4
  end.

End Terrain.

(** ** Perimeter processor ([src/lib/perimeter-processor.ts]) *)

Module Perimeter.
Import Js.

(** A position is [[longitude, latitude]]. *)
Definition Position : Type := Q * Q.
Definition Ring : Type := list Position.

Inductive Geometry :=
  | Polygon (coordinates : list Ring)
  | MultiPolygon (coordinates : list (list Ring)).

(** The fields of [RawFireFeature.properties] the processor reads.  The
    data comes from JSON: a field the code tests for absence is an option. *)
Record Properties := {
  OBJECTID : Z;
  YEAR_ : Z;
  FIRE_NAME : option string;
  ALARM_DATE : option Z;
  CONT_DATE : option Z;
  GIS_ACRES : option Q;
  IRWINID : option string;
}.

Record RawFireFeature := {
  id : Z;
  geometry : Geometry;
  properties : Properties;
}.

(** The turf library.  [turf_polygon] is [None] when [turf.polygon]
    throws (a ring of fewer than four positions, or not closed); a
    polygon feature is represented by its coordinates. *)
Class Turf := {
  turf_polygon : list Ring -> option (list Ring);
  turf_area : list Ring -> Q;
  turf_centroid : list Ring -> Position;
  turf_length : list Ring -> Q;
  turf_bearing : Position -> Position -> Q;
  turf_distance : Position -> Position -> Q;
}.

(** [new Date(t).toISOString()]; [None] is the RangeError of an invalid
    date. *)
Class DateLib := { Date_toISOString : Z -> option string }.

(** The completion of a [try] block. *)
Inductive Completion (A : Type) :=
  | Normal (a : A)
  | Throw.
Arguments Normal {A} a.
Arguments Throw {A}.

Definition of_option {A} (o : option A) : Completion A :=
  match o with Some a => Normal a | None => Throw end.
Definition cbind {A B} (m : Completion A) (k : A -> Completion B) : Completion B :=
  match m with Normal a => k a | Throw => Throw end.

Notation "'try!' x ':=' m 'in' k" := (cbind m (fun x => k))
  (at level 10, x name, m at level 100, k at level 200).

Record DirectionalExtent := {
  ext_N : Q; ext_E : Q; ext_S : Q; ext_W : Q;
  ext_NE : Q; ext_SE : Q; ext_SW : Q; ext_NW : Q;
  dominantDirection : Q;
}.

Record ProcessedGeometry := {
  coordinates : list Ring;
  centroid : Position;
}.
Record Temporal := {
  alarmDate : string;
  containmentDate : string;
  durationHours : Q;
}.
Record Metrics := {
  totalAcres : Q;
  perimeterKm : Q;
  aspectRatio : Q;
  compactness : Q;
}.
Record GrowthRate := {
  acresPerHour : Q;
  estimatedSpreadRateKmH : Q;
}.
Record ProcessedPerimeter := {
  fireId : string;
  fireName : string;
  geom : ProcessedGeometry;
  temporal : Temporal;
  metrics : Metrics;
  directionalExtent : DirectionalExtent;
  growthRate : GrowthRate;
}.

Definition calculateDuration (alarmDate contDate : Z) : Q :=
  let durationMs := (contDate - alarmDate)%Z in
  inject_Z durationMs / inject_Z (1000 * 60 * 60).

(** The first index holding [x] ([Array.prototype.indexOf]). *)
Fixpoint indexOf (l : list Q) (x : Q) : option nat :=
  match l with
  | [] => None
  | y :: l' => if eqb y x then Some 0%nat else S <$> indexOf l' x
  end.

(** A polygon is returned as it is; of a multipolygon the component of
    largest area.  An empty multipolygon gives [multiCoords[-1]], which is
    [undefined] and makes the caller's [turf.polygon] throw. *)
Definition normalizeGeometry `{Turf} (geometry : Geometry)
    : Completion (list Ring) :=
  match geometry with
  | Polygon coordinates => Normal coordinates
  | MultiPolygon multiCoords =>
      try! polygons := of_option (mapM turf_polygon multiCoords) in
      let areas := turf_area <$> polygons in
      match areas with
      | [] => Throw
      | a :: areas' =>
          try! maxIndex := of_option (indexOf areas (Math_max_of a areas')) in
          of_option (multiCoords !! maxIndex)
      end
  end.

Definition directions : list Q := [0; 45; 90; 135; 180; 225; 270; 315].

(** The inner loop: the furthest vertex within 22.5 degrees of
    [dirBearing]. *)
Definition maxDistInDir `{Turf} (centroid : Position) (coords : Ring)
    (dirBearing : Q) : Q :=
  foldl (fun maxDistInDir coord =>
    let bearing := turf_bearing centroid coord in
    let normalizedBearing := rem (bearing + 360) 360 in
    let angleDiff :=
      Math_min (Math_min
        (Math_abs (normalizedBearing - dirBearing))
        (Math_abs (normalizedBearing - dirBearing + 360)))
        (Math_abs (normalizedBearing - dirBearing - 360)) in
    if leb angleDiff (225 # 10)
    then Math_max maxDistInDir (turf_distance centroid coord)
    else maxDistInDir) 0 coords.

(** The outer loop over the eight directions, in the order N, NE, E, SE,
    S, SW, W, NW; the state is (extents so far, maxExtent,
    dominantDirection). *)
Definition calculateDirectionalExtent `{Turf} (polygon : list Ring)
    (centroid : Position) : Completion DirectionalExtent :=
  try! coords := of_option (polygon !! 0%nat) in
  let '(extents, _, dominantDirection) :=
    foldl (fun '(extents, maxExtent, dominantDirection) dirBearing =>
      let d := maxDistInDir centroid coords dirBearing in
      if gtb d maxExtent then (extents ++ [d], d, dirBearing)
      else (extents ++ [d], maxExtent, dominantDirection))
      ([], 0, 0) directions in
  let ext i := default 0 (extents !! i) in
  Normal {| ext_N := ext 0%nat; ext_NE := ext 1%nat; ext_E := ext 2%nat;
            ext_SE := ext 3%nat; ext_S := ext 4%nat; ext_SW := ext 5%nat;
            ext_W := ext 6%nat; ext_NW := ext 7%nat;
            dominantDirection := dominantDirection |}.

Definition calculateAspectRatio (directionalExtent : DirectionalExtent) : Q :=
  let extents :=
    List.filter (fun e => gtb e 0)
      [ext_N directionalExtent; ext_E directionalExtent;
       ext_S directionalExtent; ext_W directionalExtent;
       ext_NE directionalExtent; ext_SE directionalExtent;
       ext_SW directionalExtent; ext_NW directionalExtent] in
  match extents with
  | [] => 1
  | e :: extents' =>
      let maxExtent := Math_max_of e extents' in
      let minExtent := Math_min_of e extents' in
      if gtb minExtent 0 then maxExtent / minExtent else maxExtent
  end.

Definition calculateCompactness (areaKm2 perimeterKm : Q) : Q :=
  if eqb perimeterKm 0 then 0
  else (4 * Math_PI * areaKm2) / (perimeterKm * perimeterKm).

Definition acresToKm2 (acres : Q) : Q := acres * (404686 # 100000000).

Definition estimateSpreadRate `{MathLib} (acres durationHours : Q) : Q :=
  if eqb durationHours 0 then 0
  else
    let areaKm2 := acresToKm2 acres in
    let finalRadius := Math_sqrt (areaKm2 / Math_PI) in
    finalRadius / durationHours.

Definition timestampToISO `{DateLib} (timestamp : Z) : Completion string :=
  of_option (Date_toISOString timestamp).

(** The validation of the required fields:
    [!FIRE_NAME || !ALARM_DATE || !CONT_DATE || GIS_ACRES === undefined]. *)
Definition incomplete (p : Properties) : bool :=
  negb (truthyS (FIRE_NAME p)) || negb (truthyZ (ALARM_DATE p)) ||
  negb (truthyZ (CONT_DATE p)) ||
  match GIS_ACRES p with None => true | Some _ => false end.

(** The body of the [try] block of [processFirePerimeter]: it returns
    [null] ([Normal None]), returns a perimeter, or throws. *)
Definition processFirePerimeter_try `{MathLib} `{NumberFormat} `{Turf} `{DateLib}
    (feature : RawFireFeature) : Completion (option ProcessedPerimeter) :=
  let properties := properties feature in
  let geometry := geometry feature in
  if incomplete properties then Normal None
  else
    let FIRE_NAME := default "" (FIRE_NAME properties) in
    let ALARM_DATE := default 0%Z (ALARM_DATE properties) in
    let CONT_DATE := default 0%Z (CONT_DATE properties) in
    let GIS_ACRES := default 0 (GIS_ACRES properties) in
    let durationHours := calculateDuration ALARM_DATE CONT_DATE in
    if leb durationHours 0 || gtb durationHours 8760 then Normal None
    else
      try! normalizedGeom := normalizeGeometry geometry in
      try! polygon := of_option (turf_polygon normalizedGeom) in
      let centroid := turf_centroid polygon in
      let perimeterKm := turf_length polygon in
      let areaKm2 := acresToKm2 GIS_ACRES in
      try! directionalExtent := calculateDirectionalExtent polygon centroid in
      let aspectRatio := calculateAspectRatio directionalExtent in
      let compactness := calculateCompactness areaKm2 perimeterKm in
      let acresPerHour := GIS_ACRES / durationHours in
      let estimatedSpreadRateKmH := estimateSpreadRate GIS_ACRES durationHours in
      let fireId :=
        if truthyS (IRWINID properties) then default "" (IRWINID properties)
        else "cal_fire_" +:+ toString (inject_Z (YEAR_ properties)) +:+ "_" +:+
             toString (inject_Z (OBJECTID properties)) in
      try! alarmDate := timestampToISO ALARM_DATE in
      try! containmentDate := timestampToISO CONT_DATE in
      Normal (Some
        {| fireId := fireId;
           fireName := FIRE_NAME;
           geom := {| coordinates := normalizedGeom; centroid := centroid |};
           temporal := {| alarmDate := alarmDate;
                          containmentDate := containmentDate;
                          durationHours := durationHours |};
           metrics := {| totalAcres := GIS_ACRES; perimeterKm := perimeterKm;
                         aspectRatio := aspectRatio; compactness := compactness |};
           directionalExtent := directionalExtent;
           growthRate := {| acresPerHour := acresPerHour;
                            estimatedSpreadRateKmH := estimatedSpreadRateKmH |} |}).

(** [catch (error) { console.error(...); return null; }] *)
Definition processFirePerimeter `{MathLib} `{NumberFormat} `{Turf} `{DateLib}
    (feature : RawFireFeature) : option ProcessedPerimeter :=
  match processFirePerimeter_try feature with
  | Normal result => result
  | Throw => None
  end.

Record Stats := {
  total : nat;
  successful : nat;
  failed : nat;
  skipped : nat;
}.

Record Batch := {
  processed : list ProcessedPerimeter;
  stats : Stats;
}.

(** One iteration of the loop of [processAllPerimeters] on the state
    (processed, failed, skipped). *)
Definition processAll_step `{MathLib} `{NumberFormat} `{Turf} `{DateLib}
    (st : list ProcessedPerimeter * nat * nat) (feature : RawFireFeature)
    : list ProcessedPerimeter * nat * nat :=
  let '(processed, failed, skipped) := st in
  match processFirePerimeter feature with
  | Some result => (processed ++ [result], failed, skipped)
  | None =>
      if negb (truthyS (FIRE_NAME (properties feature))) ||
         negb (truthyZ (ALARM_DATE (properties feature))) ||
         negb (truthyZ (CONT_DATE (properties feature)))
      then (processed, failed, S skipped)
      else (processed, S failed, skipped)
  end.

Definition processAllPerimeters `{MathLib} `{NumberFormat} `{Turf} `{DateLib}
    (features : list RawFireFeature) : Batch :=
  let '(processed, failed, skipped) :=
    foldl processAll_step ([], 0%nat, 0%nat) features in
  {| processed := processed;
     stats := {| total := length features;
                 successful := length processed;
                 failed := failed;
                 skipped := skipped |} |}.

(** The classification the specification asks for.  A rejected record is
    an input-quality rejection when a required field is absent or the
    duration is not in (0, 8760]; it is a computation fault when the
    processing threw. *)
Definition duration_invalid (p : Properties) : bool :=
  match ALARM_DATE p, CONT_DATE p with
  | Some a, Some c =>
      let d := calculateDuration a c in leb d 0 || gtb d 8760
  | _, _ => false
  end.

Definition input_quality_rejection (feature : RawFireFeature) : bool :=
  incomplete (properties feature) || duration_invalid (properties feature).


(** The extents of a result in the order of the directions
    N, NE, E, SE, S, SW, W, NW. *)
Definition extent_list (d : DirectionalExtent) : list Q :=
  [ext_N d; ext_NE d; ext_E d; ext_SE d; ext_S d; ext_SW d; ext_W d; ext_NW d].

(** The loop of [calculateDirectionalExtent] over the directions, on any
    list of directions and from any state, and what it maintains: the
    extents so far, their maximum, and the first direction to reach it. *)
Definition scan (g : Q -> Q) (st : list Q * Q * Q) (ds : list Q) : list Q * Q * Q :=
  foldl (fun '(extents, maxExtent, dominantDirection) dirBearing =>
    let d := g dirBearing in
    if gtb d maxExtent then (extents ++ [d], d, dirBearing)
    else (extents ++ [d], maxExtent, dominantDirection)) st ds.

Definition scan_inv (g : Q -> Q) (pre : list Q) (st : list Q * Q * Q) : Prop :=
  let '(extents, maxExtent, dom) := st in
  extents = g <$> pre /\
  Forall (fun e => e <= maxExtent) extents /\
  ((maxExtent = 0 /\ dom = 0) \/
   exists i, pre !! i = Some dom /\ g dom = maxExtent /\ 0 < maxExtent /\
     forall j e, (j < i)%nat -> extents !! j = Some e -> e < maxExtent).

(** The test of the batch loop:
    [!FIRE_NAME || !ALARM_DATE || !CONT_DATE]. *)
Definition lacks_core (feature : RawFireFeature) : bool :=
  negb (truthyS (FIRE_NAME (properties feature))) ||
  negb (truthyZ (ALARM_DATE (properties feature))) ||
  negb (truthyZ (CONT_DATE (properties feature))).

(** [processFirePerimeter] returns [null] or throws. *)
Definition rejected `{MathLib} `{NumberFormat} `{Turf} `{DateLib}
    (feature : RawFireFeature) : bool :=
  match processFirePerimeter feature with Some _ => false | None => true end.

End Perimeter.

(** ** Shared types ([src/lib/types.ts], reconstructed from their uses) *)

Module Types.

Record IncidentPerimeter := { radiusMeters : Q }.

Record Incident := {
  lat : Q;
  lon : Q;
  fuelProxy : string;
  perimeter : IncidentPerimeter;
}.

Record Weather := {
  windSpeedMps : Q;
  humidityPct : Q;
}.

Inductive CardType := evacuation | resources | tactics.

End Types.

(** ** Spread index and predictor ([src/lib/directional-spread.ts]) *)

Module Spread.
Import Js Types.

Record Bounds := {
  north : Q; south : Q; east : Q; west : Q;
  centerLat : Q; centerLon : Q;
}.
Record Extents := {
  ext_north : Q; ext_south : Q; ext_east : Q; ext_west : Q;
}.
Record Rates := {
  rate_north : Q; rate_south : Q; rate_east : Q; rate_west : Q;
  avgRate : Q;
}.
Record Shape := {
  aspectRatio : Q;
  dominantDirection : string;
  elongation : Q;
}.
Record DirectionalSpread := {
  fireId : string;
  fireName : string;
  year : Z;
  acres : Q;
  durationHours : Q;
  bounds : Bounds;
  extents : Extents;
  rates : Rates;
  shape : Shape;
}.

(** The index; [byLocation] is the grid-based spatial index the radius
    search reads. *)
Record SpreadIndex := {
  byName : gmap string (list DirectionalSpread);
  byLocation : gmap string (list DirectionalSpread);
  byYear : gmap Z (list DirectionalSpread);
  all : list DirectionalSpread;
}.

(** Haversine distance in km. *)
Definition calculateDistance `{MathLib} (lat1 lon1 lat2 lon2 : Q) : Q :=
  let R := 6371 in
  let dLat := ((lat2 - lat1) * Math_PI) / 180 in
  let dLon := ((lon2 - lon1) * Math_PI) / 180 in
  let a :=
    Math_sin (dLat / 2) * Math_sin (dLat / 2) +
    Math_cos ((lat1 * Math_PI) / 180) *
      Math_cos ((lat2 * Math_PI) / 180) *
      Math_sin (dLon / 2) *
      Math_sin (dLon / 2) in
  let c := 2 * Math_atan2 (Math_sqrt a) (Math_sqrt (1 - a)) in
  R * c.

Definition gridSize : Q := 5 # 10.

Definition getGridKey `{NumberFormat} (lat lon : Q) : string :=
  let gridLat := inject_Z (Math_floor (lat / gridSize)) * gridSize in
  let gridLon := inject_Z (Math_floor (lon / gridSize)) * gridSize in
  toFixed gridLat 1 +:+ "," +:+ toFixed gridLon 1.

(** The fields of a feature of [query.json] the analysis reads. *)
Record GeoJSONFeature := {
  feature_id : Z;
  INC_NUM : option string;
  FIRE_NAME : option string;
  YEAR_ : option Z;
  ALARM_DATE : option Z;
  CONT_DATE : option Z;
  GIS_ACRES : option Q;
  coordinates : list (list (list (Q * Q)));
}.

(** All the points [[lon, lat]] of all the rings of a multipolygon. *)
Definition extractAllCoordinates (geometry : list (list (list (Q * Q))))
    : list (Q * Q) :=
  polygon ← geometry; ring ← polygon; ring.

(** The dominant direction of four extents. *)
Definition dominant (northExtent southExtent eastExtent westExtent : Q) : string :=
  let maxExtent :=
    Math_max_of northExtent [southExtent; eastExtent; westExtent] in
  if gtb northExtent (maxExtent * (95 # 100)) && gtb eastExtent (maxExtent * (8 # 10))
  then "NE"
  else if gtb northExtent (maxExtent * (95 # 100)) &&
          gtb westExtent (maxExtent * (8 # 10))
  then "NW"
  else if gtb southExtent (maxExtent * (95 # 100)) &&
          gtb eastExtent (maxExtent * (8 # 10))
  then "SE"
  else if gtb southExtent (maxExtent * (95 # 100)) &&
          gtb westExtent (maxExtent * (8 # 10))
  then "SW"
  else if geb northExtent maxExtent then "N"
  else if geb southExtent maxExtent then "S"
  else if geb eastExtent maxExtent then "E"
  else if geb westExtent maxExtent then "W"
  else "UNIFORM".

(** The bounding box starts from the first point instead of from
    infinities. *)
Definition analyzeFeatureSpread `{MathLib} `{NumberFormat}
    (feature : GeoJSONFeature) : option DirectionalSpread :=
  match extractAllCoordinates (coordinates feature) with
  | [] => None
  | (lon0, lat0) :: coords =>
      let minLat := Math_min_of lat0 (snd <$> coords) in
      let maxLat := Math_max_of lat0 (snd <$> coords) in
      let minLon := Math_min_of lon0 (fst <$> coords) in
      let maxLon := Math_max_of lon0 (fst <$> coords) in
      let centerLat := (minLat + maxLat) / 2 in
      let centerLon := (minLon + maxLon) / 2 in
      let northExtent := calculateDistance centerLat centerLon maxLat centerLon in
      let southExtent := calculateDistance centerLat centerLon minLat centerLon in
      let eastExtent := calculateDistance centerLat centerLon centerLat maxLon in
      let westExtent := calculateDistance centerLat centerLon centerLat minLon in
      let durationHours :=
        if truthyZ (CONT_DATE feature) && truthyZ (ALARM_DATE feature)
        then inject_Z (default 0%Z (CONT_DATE feature) -
                       default 0%Z (ALARM_DATE feature))
             / inject_Z (1000 * 60 * 60)
        else 0 in
      let safeHours := Math_max durationHours (1 # 10) in
      let northRate := northExtent / safeHours in
      let southRate := southExtent / safeHours in
      let eastRate := eastExtent / safeHours in
      let westRate := westExtent / safeHours in
      let avgRate := (northRate + southRate + eastRate + westRate) / 4 in
      let width := eastExtent + westExtent in
      let height := northExtent + southExtent in
      let aspectRatio := width / Math_max height (1 # 10) in
      let elongation := Math_max width height / Math_min width height in
      Some
        {| fireId :=
             if truthyS (INC_NUM feature) then default "" (INC_NUM feature)
             else "FIRE_" +:+ toString (inject_Z (feature_id feature));
           fireName :=
             if truthyS (FIRE_NAME feature) then default "" (FIRE_NAME feature)
             else "UNKNOWN";
           year := default 0%Z (YEAR_ feature);
           acres := default 0 (GIS_ACRES feature);
           durationHours := durationHours;
           bounds := {| north := maxLat; south := minLat; east := maxLon;
                        west := minLon; centerLat := centerLat;
                        centerLon := centerLon |};
           extents := {| ext_north := northExtent; ext_south := southExtent;
                         ext_east := eastExtent; ext_west := westExtent |};
           rates := {| rate_north := northRate; rate_south := southRate;
                       rate_east := eastRate; rate_west := westRate;
                       avgRate := avgRate |};
           shape := {| aspectRatio := aspectRatio;
                       dominantDirection :=
                         dominant northExtent southExtent eastExtent westExtent;
                       elongation := elongation |} |}
  end.

(** [if (!m.has(k)) m.set(k, []); m.get(k).push(x)] *)
Definition push_at `{Countable K} {A} (k : K) (x : A) (m : gmap K (list A))
    : gmap K (list A) :=
  <[k := default [] (m !! k) ++ [x]]> m.

Definition emptyIndex : SpreadIndex :=
  {| byName := ∅; byLocation := ∅; byYear := ∅; all := [] |}.

(** The index [buildSpreadIndex()] builds from the features of
    [query.json] when none is cached; it is built once and then reused. *)
Definition buildSpreadIndex `{MathLib} `{NumberFormat}
    (features : list GeoJSONFeature) : SpreadIndex :=
  foldl (fun index feature =>
    match analyzeFeatureSpread feature with
    | Some spread =>
        {| all := all index ++ [spread];
           byName := push_at (toUpperCase (fireName spread)) spread (byName index);
           byLocation :=
             push_at (getGridKey (centerLat (bounds spread)) (centerLon (bounds spread)))
               spread (byLocation index);
           byYear := push_at (year spread) spread (byYear index) |}
    | None => index
    end) emptyIndex features.

(** [Set.prototype.add] on a set kept in insertion order. *)
Definition set_add (keys : list string) (k : string) : list string :=
  if bool_decide (k ∈ keys) then keys else keys ++ [k].

(** The keys of the cells [-cellRadius .. cellRadius] around the query
    point, both ways, in the order the two loops add them. *)
Definition gridKeys `{NumberFormat} (lat lon : Q) (cellRadius : Z) : list string :=
  let range := seqZ (- cellRadius) (2 * cellRadius + 1) in
  foldl (fun keys dLat =>
    foldl (fun keys dLon =>
      let checkLat :=
        inject_Z (Math_floor (lat / gridSize)) * gridSize + inject_Z dLat * gridSize in
      let checkLon :=
        inject_Z (Math_floor (lon / gridSize)) * gridSize + inject_Z dLon * gridSize in
      set_add keys (getGridKey checkLat checkLon)) keys range) [] range.

Definition candidates (index : SpreadIndex) (keys : list string)
    : list DirectionalSpread :=
  foldl (fun candidates key =>
    match byLocation index !! key with
    | Some fires => candidates ++ fires
    | None => candidates
    end) [] keys.

Definition with_distance `{MathLib} (lat lon : Q) (fire : DirectionalSpread)
    : DirectionalSpread * Q :=
  (fire, calculateDistance lat lon (centerLat (bounds fire)) (centerLon (bounds fire))).

(** [index] is the value of [buildSpreadIndex()]. *)
Definition findFiresNearLocation `{MathLib} `{NumberFormat} (index : SpreadIndex)
    (lat lon radiusKm : Q) (limit : Z) : list DirectionalSpread :=
  let cellRadius := Math_ceil (radiusKm / 50) in
  let candidates := candidates index (gridKeys lat lon cellRadius) in
  let nearby :=
    fst <$>
      slice0
        (sort (fun a b => snd a - snd b)
           (List.filter (fun item => leb (snd item) radiusKm)
              (with_distance lat lon <$> candidates)))
        limit in
  nearby.

Definition findSimilarFires `{MathLib} `{NumberFormat} (index : SpreadIndex)
    (incident : Incident) (radiusKm : Q) (limit : Z) : list DirectionalSpread :=
  let nearby :=
    findFiresNearLocation index (lat incident) (lon incident) radiusKm (limit * 2) in
  let sorted := sort (fun a b => inject_Z (year b - year a)) nearby in
  slice0 sorted limit.

Record SpreadStatistics := {
  avgNorthRate : Q;
  avgSouthRate : Q;
  avgEastRate : Q;
  avgWestRate : Q;
  stat_dominantDirection : string;
  avgElongation : Q;
}.

(** [directionCounts.set(dir, (directionCounts.get(dir) || 0) + 1)] on a
    map kept in insertion order. *)
Fixpoint count_direction (counts : list (string * nat)) (dir : string)
    : list (string * nat) :=
  match counts with
  | [] => [(dir, 1%nat)]
  | (d, n) :: counts' =>
      if String.eqb d dir then (d, S n) :: counts'
      else (d, n) :: count_direction counts' dir
  end.

Definition mean (f : DirectionalSpread -> Q) (fires : list DirectionalSpread) : Q :=
  foldl (fun sum fire => sum + f fire) 0 fires / inject_Z (Z.of_nat (length fires)).

Definition calculateSpreadStatistics (fires : list DirectionalSpread)
    : SpreadStatistics :=
  match fires with
  | [] =>
      {| avgNorthRate := 0; avgSouthRate := 0; avgEastRate := 0; avgWestRate := 0;
         stat_dominantDirection := "UNKNOWN"; avgElongation := 1 |}
  | _ =>
      let directionCounts :=
        foldl (fun counts fire => count_direction counts (dominantDirection (shape fire)))
          [] fires in
      let '(dominant, _) :=
        foldl (fun '(dominant, maxCount) '(dir, count) =>
          if (maxCount <? count)%nat then (dir, count) else (dominant, maxCount))
          ("UNIFORM", 0%nat) directionCounts in
      {| avgNorthRate := mean (fun f => rate_north (rates f)) fires;
         avgSouthRate := mean (fun f => rate_south (rates f)) fires;
         avgEastRate := mean (fun f => rate_east (rates f)) fires;
         avgWestRate := mean (fun f => rate_west (rates f)) fires;
         stat_dominantDirection := dominant;
         avgElongation := mean (fun f => elongation (shape f)) fires |}
  end.

Definition getCardinalDirection (degrees : Q) : option string :=
  let directions :=
    ["N"; "NNE"; "NE"; "ENE"; "E"; "ESE"; "SE"; "SSE";
     "S"; "SSW"; "SW"; "WSW"; "W"; "WNW"; "NW"; "NNW"] in
  let index := Z.rem (Math_round (degrees / (225 # 10))) 16 in
  if (index <? 0)%Z then None else directions !! Z.to_nat index.

Inductive Confidence := high | medium | low.

Record ExpectedRates := {
  exp_north : Q; exp_south : Q; exp_east : Q; exp_west : Q;
}.
Record Prediction := {
  likelyDirection : string;
  expectedRates : ExpectedRates;
  confidence : Confidence;
  reasoning : list string;
}.
Record SpreadPattern := {
  similarFires : list DirectionalSpread;
  prediction : Prediction;
}.

Definition predictSpreadPattern `{MathLib} `{NumberFormat} (index : SpreadIndex)
    (incident : Incident) (windDirDeg : Q) : SpreadPattern :=
  let similarFires := findSimilarFires index incident 100 15 in
  if (length similarFires =? 0)%nat then
    {| similarFires := [];
       prediction :=
         {| likelyDirection := "UNKNOWN";
            expectedRates :=
              {| exp_north := 0; exp_south := 0; exp_east := 0; exp_west := 0 |};
            confidence := low;
            reasoning := ["No similar historical fires found in the area"] |} |}
  else
    let stats := calculateSpreadStatistics similarFires in
    let windDirCardinal := getCardinalDirection windDirDeg in
    let reasoning :=
      ["Found " +:+ toString (inject_Z (Z.of_nat (length similarFires))) +:+
         " similar fires within 100km";
       "Historical dominant direction: " +:+ stat_dominantDirection stats;
       "Current wind from " +:+ template windDirCardinal +:+ " (" +:+
         toString windDirDeg +:+ "Â°)";
       "Avg expansion rates: N " +:+ toFixed (avgNorthRate stats) 2 +:+
         " km/h, S " +:+ toFixed (avgSouthRate stats) 2 +:+
         " km/h, E " +:+ toFixed (avgEastRate stats) 2 +:+
         " km/h, W " +:+ toFixed (avgWestRate stats) 2 +:+ " km/h"] in
    let confidence :=
      if (10 <=? length similarFires)%nat then high
      else if (5 <=? length similarFires)%nat then medium
      else low in
    {| similarFires := similarFires;
       prediction :=
         {| likelyDirection := stat_dominantDirection stats;
            expectedRates :=
              {| exp_north := avgNorthRate stats; exp_south := avgSouthRate stats;
                 exp_east := avgEastRate stats; exp_west := avgWestRate stats |};
            confidence := confidence;
            reasoning := reasoning |} |}.

(** *** Vocabulary of the properties *)

(** The haversine distance from a query point to the centre of the
    bounds of a fire. *)
Definition distance_to `{MathLib} (lat lon : Q) (fire : DirectionalSpread) : Q :=
  calculateDistance lat lon (centerLat (bounds fire)) (centerLon (bounds fire)).

Definition by_distance `{MathLib} (lat lon : Q) (f g : DirectionalSpread) : Prop :=
  distance_to lat lon f <= distance_to lat lon g.

(** The confidence the specification gives to [n] analogs: low for none,
    low for 1 to 4, medium for 5 to 9, high from 10 on. *)
Definition confidence_of (n : nat) : Confidence :=
  if (n =? 0)%nat then low
  else if (n <=? 4)%nat then low
  else if (n <=? 9)%nat then medium
  else high.

Definition rank (c : Confidence) : nat :=
  match c with low => 0 | medium => 1 | high => 2 end.


(** The fires of [all] filed under the key [k]; an empty bucket does not
    exist. *)
Definition bucket `{EqDecision K} (key : DirectionalSpread -> K) (k : K)
    (all : list DirectionalSpread) : option (list DirectionalSpread) :=
  match filter (fun fire => key fire = k) all with
  | [] => None
  | fires => Some fires
  end.

(** The keys a fire is filed under, by name and by grid cell. *)
Definition nameKey (fire : DirectionalSpread) : string := toUpperCase (fireName fire).
Definition cellKey `{NumberFormat} (fire : DirectionalSpread) : string :=
  getGridKey (centerLat (bounds fire)) (centerLon (bounds fire)).

(** The number of times a direction occurs in a list. *)
Definition occurrences (dir : string) (dirs : list string) : nat :=
  length (filter (fun d => d = dir) dirs).

(** [directionCounts.get(dir) || 0] *)
Fixpoint count_of (counts : list (string * nat)) (dir : string) : nat :=
  match counts with
  | [] => 0
  | (d, n) :: counts' => if String.eqb d dir then n else count_of counts' dir
  end.

(** The values of a dominant direction, in the order [analyzeFeatureSpread]
    tests them, and the sixteen points of [getCardinalDirection]. *)
Definition compass8 : list string := ["NE"; "NW"; "SE"; "SW"; "N"; "S"; "E"; "W"].
Definition compass16 : list string :=
  ["N"; "NNE"; "NE"; "ENE"; "E"; "ESE"; "SE"; "SSE";
   "S"; "SSW"; "SW"; "WSW"; "W"; "WNW"; "NW"; "NNW"].

End Spread.

(** ** IAP similarity matcher ([src/lib/iap/]) *)

Module Iap.
Import Js Types.

Record IAPSection := {
  type : string;
  content : string;
}.
Record IAPWeather := {
  iap_windSpeedMps : option Q;
  iap_humidityPct : option Q;
}.
Record IAPConditions := {
  fuel : option string;
  weather : option IAPWeather;
  acres : option Q;
}.
Record IAPLocation := { county : option string }.
Record IAPData := {
  id : string;
  incidentName : string;
  location : IAPLocation;
  conditions : IAPConditions;
  sections : list IAPSection;
  tacticalLessons : list string;
  rawText : option string;
}.

Record IAPInsight := {
  iapId : string;
  iapName : string;
  relevanceScore : Z;
  tacticalSnippet : string;
  sectionType : string;
  reasoning : list string;
}.

(** *** [constants.ts] *)

Definition FUEL_COMPATIBILITY_MAP : gmap string (list string) :=
  list_to_map
    [("grass", ["grass"; "mixed"]);
     ("brush", ["brush"; "chaparral"; "mixed"]);
     ("mixed", ["mixed"; "grass"; "brush"]);
     ("chaparral", ["chaparral"; "brush"])].

Definition RELEVANT_SECTIONS (cardType : CardType) : list string :=
  match cardType with
  | tactics => ["ICS-202"; "ICS-204"; "ICS-220"]
  | resources => ["ICS-203"; "ICS-204"]
  | evacuation => ["ICS-202"]
  end.

Definition FOCUS_KEYWORDS (cardType : CardType) : list string :=
  match cardType with
  | evacuation =>
      ["wind"; "gust"; "humidity"; "weather"; "rapid spread";
       "extreme fire behavior"; "red flag"; "wind shift"; "wind-driven"]
  | resources =>
      ["contained"; "containment"; "escaped"; "successful"; "effective";
       "additional resources"; "resource"; "personnel"; "equipment";
       "initial attack"]
  | tactics =>
      ["terrain"; "slope"; "ridge"; "topography"; "uphill"; "downhill";
       "canyon"; "valley"; "elevation"; "natural barrier"; "road"; "highway"]
  end.

Definition MIN_IAP_SCORE : Z := 60.
Definition MAX_IAP_INSIGHTS : Z := 3.

(** [FUEL_COMPATIBILITY_MAP[fuelProxy]?.includes(fuel)] *)
Definition fuel_compatible (fuelProxy fuel : string) : bool :=
  match FUEL_COMPATIBILITY_MAP !! fuelProxy with
  | Some l => bool_decide (fuel ∈ l)
  | None => false
  end.

Definition has_section (types : list string) (iap : IAPData) : bool :=
  existsb (fun s => bool_decide (type s ∈ types)) (sections iap).

(** *** [scoring.ts] *)

(** The result is [None] when [calculateTerrainSimilarity] throws. *)
Definition calculateIAPSimilarity (incident : Incident) (weather : Weather)
    (cardType : CardType) (iap : IAPData)
    (terrain : option Terrain.TerrainMetrics) : option Z :=
  let score := 0 in
  (* 1. Fuel type match *)
  let score :=
    if truthyS (fuel (conditions iap)) then
      let f := default "" (fuel (conditions iap)) in
      if String.eqb f (fuelProxy incident) then score + 25
      else if fuel_compatible (fuelProxy incident) f then score + 12
      else score
    else score in
  (* 2. Weather similarity *)
  let score :=
    match Iap.weather (conditions iap) with
    | Some w =>
        let score :=
          match iap_windSpeedMps w with
          | Some v =>
              let windDiff := Math_abs (windSpeedMps weather - v) in
              if leb windDiff 3 then score + 15
              else if leb windDiff 7 then score + 8
              else if leb windDiff 12 then score + 3
              else score
          | None => score
          end in
        match iap_humidityPct w with
        | Some h =>
            let humidityDiff := Math_abs (humidityPct weather - h) in
            if leb humidityDiff 10 then score + 10
            else if leb humidityDiff 20 then score + 5
            else if leb humidityDiff 30 then score + 2
            else score
        | None => score
        end
    | None => score
    end in
  (* 3. Incident scale *)
  let score :=
    if truthyQ (acres (conditions iap)) then
      let iapAcres := default 0 (acres (conditions iap)) in
      let radiusKm := radiusMeters (perimeter incident) / 1000 in
      let estimatedAcres := Math_PI * radiusKm * radiusKm * (247105 # 1000) in
      let sizeRatio :=
        Math_min estimatedAcres iapAcres / Math_max estimatedAcres iapAcres in
      score + sizeRatio * 15
    else score + 7 in
  (* 4. Relevant section availability *)
  let relevantSectionTypes := RELEVANT_SECTIONS cardType in
  let hasRelevantSections := has_section relevantSectionTypes iap in
  let score :=
    if hasRelevantSections then score + 25
    else if (0 <? length (sections iap))%nat then score + 10
    else score in
  (* 5. Terrain similarity *)
  score ←
    match cardType, terrain with
    | tactics, Some terrain =>
        if truthyS (rawText iap) then
          terrainScore ← Terrain.calculateTerrainSimilarity terrain
                            (default "" (rawText iap));
          Some (score + (terrainScore / 100) * 20)
        else Some score
    | _, _ => Some score
    end;
  Some (Math_round score).

(** *** [reasoning.ts] *)

Definition hasTerrainRefs (text : string) : bool :=
  let lower := toLowerCase text in
  existsb (fun kw => includes kw lower)
    ["steep"; "slope"; "ridge"; "terrain"; "uphill"; "downhill"].

Definition push_if {A} (b : bool) (x : A) (l : list A) : list A :=
  if b then l ++ [x] else l.

Definition generateReasoning `{NumberFormat} (incident : Incident)
    (weather : Weather) (iap : IAPData) (score : Z) (cardType : CardType)
    : list string :=
  let reasoning := [] in
  let reasoning :=
    match cardType with
    | evacuation =>
        match Iap.weather (conditions iap) with
        | Some w =>
            let reasoning :=
              match iap_windSpeedMps w with
              | Some v =>
                  let windDiff := Math_abs (windSpeedMps weather - v) in
                  push_if (leb windDiff 5)
                    ("Similar wind conditions: " +:+ toFixed v 1 +:+
                     " m/s affected containment") reasoning
              | None => reasoning
              end in
            match iap_humidityPct w with
            | Some h =>
                push_if (ltb h 25)
                  ("Low humidity (" +:+ toString h +:+ "%) drove rapid spread")
                  reasoning
            | None => reasoning
            end
        | None => reasoning
        end
    | resources =>
        let reasoning :=
          push_if (truthyQ (acres (conditions iap)))
            (toLocaleString (default 0 (acres (conditions iap))) +:+
             " acre fire - resource patterns applicable") reasoning in
        push_if (has_section ["ICS-203"; "ICS-204"] iap)
          "Documented resource assignments and effectiveness" reasoning
    | tactics =>
        let reasoning :=
          push_if (truthyS (county (location iap)))
            ("Similar California terrain in " +:+
             default "" (county (location iap)) +:+ " County") reasoning in
        let reasoning :=
          push_if (has_section ["ICS-204"] iap)
            "Terrain-based tactical assignments documented" reasoning in
        push_if (truthyS (rawText iap) && hasTerrainRefs (default "" (rawText iap)))
          "IAP describes similar terrain features" reasoning
    end in
  (* Fuel match *)
  let reasoning :=
    if bool_decide (fuel (conditions iap) = Some (fuelProxy incident)) then
      reasoning ++ ["Exact fuel type match: " +:+ default "" (fuel (conditions iap))]
    else if truthyS (fuel (conditions iap)) &&
            fuel_compatible (fuelProxy incident) (default "" (fuel (conditions iap)))
    then reasoning ++ ["Compatible fuel: " +:+ default "" (fuel (conditions iap))]
    else reasoning in
  (* Ensure at least 2 reasoning items *)
  let reasoning :=
    if (length reasoning <? 2)%nat then
      reasoning ++ ["Overall relevance: " +:+ toString (inject_Z score) +:+ "%"]
    else reasoning in
  slice0 reasoning 3.

(** *** [snippet-extractor.ts] *)

Definition is_terminator (c : Ascii.ascii) : bool :=
  bool_decide (c ∈ ["."; "!"; "?"]%char).

(** [text.match(/[^.!?]+[.!?]+/g) || []]: every maximal run of
    non-terminators that is followed by a terminator, with all the
    terminators that follow it.  [body] and [terms] are the two runs read
    so far. *)
Fixpoint sentences_from (s body terms : string) : list string :=
  match s with
  | EmptyString =>
      if String.eqb terms "" then [] else [body +:+ terms]
  | String c s' =>
      if is_terminator c then
        if String.eqb body "" then sentences_from s' "" ""
        else sentences_from s' body (terms +:+ String c "")
      else
        if String.eqb terms "" then sentences_from s' (body +:+ String c "") ""
        else (body +:+ terms) :: sentences_from s' (String c "") ""
  end.
Definition sentences (text : string) : list string := sentences_from text "" "".

Definition is_space (c : Ascii.ascii) : bool :=
  let n := Ascii.nat_of_ascii c in
  (n =? 32)%nat || ((9 <=? n)%nat && (n <=? 13)%nat).
Fixpoint trimStart (s : string) : string :=
  match s with
  | String c s' => if is_space c then trimStart s' else s
  | EmptyString => EmptyString
  end.
Definition trim (s : string) : string :=
  String.rev (trimStart (String.rev (trimStart s))).

Definition has_keyword (keywords : list string) (s : string) : bool :=
  existsb (fun keyword => includes keyword (toLowerCase s)) keywords.

Definition truncate300 (snippet : string) : string :=
  if (300 <? String.length snippet)%nat
  then String.substring 0 297 snippet +:+ "..."
  else snippet.

Definition extractTacticalSnippet (section : IAPSection) (cardType : CardType)
    (iap : IAPData) : string :=
  let content := content section in
  let rawText := if truthyS (rawText iap) then default "" (rawText iap) else content in
  let focusKeywords := FOCUS_KEYWORDS cardType in
  let sentences := sentences content in
  let relevantSentences := List.filter (has_keyword focusKeywords) sentences in
  let relevantSentences :=
    if (length relevantSentences =? 0)%nat && (0 <? length (tacticalLessons iap))%nat
    then List.filter (has_keyword focusKeywords) (tacticalLessons iap)
    else relevantSentences in
  let relevantSentences :=
    if (length relevantSentences =? 0)%nat && negb (String.eqb rawText "")
    then slice0 (List.filter (has_keyword focusKeywords) (Iap.sentences rawText)) 3
    else relevantSentences in
  if (0 <? length relevantSentences)%nat then
    truncate300 (trim (String.concat " " (slice0 relevantSentences 2)))
  else
    truncate300 (trim (String.concat " " (slice0 sentences 2))).

(** *** [matcher.ts] *)

Definition Scored : Type := IAPData * Z.

(** [iap.sections.find(s => relevantSectionTypes.includes(s.type)) || iap.sections[0]] *)
Definition relevantSection (cardType : CardType) (iap : IAPData) : option IAPSection :=
  match List.find (fun s => bool_decide (type s ∈ RELEVANT_SECTIONS cardType))
          (sections iap) with
  | Some s => Some s
  | None => sections iap !! 0%nat
  end.

(** One iteration of the loop that builds the insights; an IAP without
    any section is passed over ([continue]). *)
Definition insight_step `{NumberFormat} (incident : Incident) (weather : Weather)
    (cardType : CardType) (insights : list IAPInsight) (s : Scored)
    : list IAPInsight :=
  let '(iap, score) := s in
  match relevantSection cardType iap with
  | None => insights
  | Some section =>
      let tacticalSnippet := extractTacticalSnippet section cardType iap in
      let reasoning := generateReasoning incident weather iap score cardType in
      insights ++
        [{| iapId := id iap;
            iapName := incidentName iap;
            relevanceScore := score;
            tacticalSnippet := tacticalSnippet;
            sectionType := type section;
            reasoning := reasoning |}]
  end.

(** [iapData] is the value of [loadIAPData()].  The result is [None]
    when scoring one of the IAPs throws. *)
Definition findRelevantIAPs `{NumberFormat} (iapData : list IAPData)
    (incident : Incident) (weather : Weather) (cardType : CardType)
    (terrain : option Terrain.TerrainMetrics) : option (list IAPInsight) :=
  if (length iapData =? 0)%nat then Some []
  else
    scored ← mapM (fun iap =>
                score ← calculateIAPSimilarity incident weather cardType iap terrain;
                Some (iap, score)) iapData;
    let filtered :=
      sort (fun a b => inject_Z (snd b - snd a))
        (List.filter (fun s => (MIN_IAP_SCORE <=? snd s)%Z) scored) in
    Some (foldl (insight_step incident weather cardType) []
            (slice0 filtered MAX_IAP_INSIGHTS)).

(** *** Vocabulary of the properties *)

(** The TypeScript type of a terrain argument: its aspect is a string. *)
Definition terrain_typed (terrain : option Terrain.TerrainMetrics) : Prop :=
  match terrain with
  | Some t => is_Some (Terrain.aspect t)
  | None => True
  end.

(** The insight built from a scored IAP, if it has a section. *)
Definition insight_of `{NumberFormat} (incident : Incident) (weather : Weather)
    (cardType : CardType) (s : Scored) : option IAPInsight :=
  match insight_step incident weather cardType [] s with
  | [i] => Some i
  | _ => None
  end.

(** The five steps of [calculateIAPSimilarity], each as a function of
    the score so far. *)
Definition fuel_step (incident : Incident) (iap : IAPData) (score : Q) : Q :=
  if truthyS (fuel (conditions iap)) then
    let f := default "" (fuel (conditions iap)) in
    if String.eqb f (fuelProxy incident) then score + 25
    else if fuel_compatible (fuelProxy incident) f then score + 12
    else score
  else score.

Definition wind_step (weather : Weather) (w : IAPWeather) (score : Q) : Q :=
  match iap_windSpeedMps w with
  | Some v =>
      let windDiff := Math_abs (windSpeedMps weather - v) in
      if leb windDiff 3 then score + 15
      else if leb windDiff 7 then score + 8
      else if leb windDiff 12 then score + 3
      else score
  | None => score
  end.

Definition humidity_step (weather : Weather) (w : IAPWeather) (score : Q) : Q :=
  match iap_humidityPct w with
  | Some h =>
      let humidityDiff := Math_abs (humidityPct weather - h) in
      if leb humidityDiff 10 then score + 10
      else if leb humidityDiff 20 then score + 5
      else if leb humidityDiff 30 then score + 2
      else score
  | None => score
  end.

Definition weather_step (weather : Weather) (iap : IAPData) (score : Q) : Q :=
  match Iap.weather (conditions iap) with
  | Some w => humidity_step weather w (wind_step weather w score)
  | None => score
  end.

Definition scale_step (incident : Incident) (iap : IAPData) (score : Q) : Q :=
  if truthyQ (acres (conditions iap)) then
    let iapAcres := default 0 (acres (conditions iap)) in
    let radiusKm := radiusMeters (perimeter incident) / 1000 in
    let estimatedAcres := Math_PI * radiusKm * radiusKm * (247105 # 1000) in
    let sizeRatio :=
      Math_min estimatedAcres iapAcres / Math_max estimatedAcres iapAcres in
    score + sizeRatio * 15
  else score + 7.

Definition section_step (cardType : CardType) (iap : IAPData) (score : Q) : Q :=
  if has_section (RELEVANT_SECTIONS cardType) iap then score + 25
  else if (0 <? length (sections iap))%nat then score + 10
  else score.

Definition terrain_step (cardType : CardType) (iap : IAPData)
    (terrain : option Terrain.TerrainMetrics) (score : Q) : option Q :=
  match cardType, terrain with
  | tactics, Some terrain =>
      if truthyS (rawText iap) then
        terrainScore ← Terrain.calculateTerrainSimilarity terrain
                          (default "" (rawText iap));
        Some (score + (terrainScore / 100) * 20)
      else Some score
  | _, _ => Some score
  end.

(** The acreage of an IAP, when recorded, is not negative. *)
Definition acres_nonneg (iap : IAPData) : Prop :=
  match acres (conditions iap) with
  | Some a => 0 <= a
  | None => True
  end.

(** Descending order of relevance. *)
Definition by_relevance (i j : IAPInsight) : Prop :=
  (relevanceScore j <= relevanceScore i)%Z.

End Iap.

(** ** [cache.ts] *)

Module Cache.

Record CacheEntry (T : Type) := {
  value : T;
  timestamp : Z;
}.
Arguments value {T}.
Arguments timestamp {T}.

(** A [TTLCache<T>]: the private map and the time to live.  Every method
    that reads the clock takes the value of [Date.now()] as [now]. *)
Record TTLCache (T : Type) := {
  cache : gmap string (CacheEntry T);
  ttlMs : Z;
}.
Arguments cache {T}.
Arguments ttlMs {T}.

Definition create {T} (ttlMs : Z) : TTLCache T := {| cache := ∅; ttlMs := ttlMs |}.

(** [now - entry.timestamp > this.ttlMs] *)
Definition expired {T} (now : Z) (c : TTLCache T) (entry : CacheEntry T) : bool :=
  (ttlMs c <? now - timestamp entry)%Z.

Definition get {T} (now : Z) (key : string) (c : TTLCache T)
    : option T * TTLCache T :=
  match cache c !! key with
  | None => (None, c)
  | Some entry =>
      if expired now c entry
      then (None, {| cache := delete key (cache c); ttlMs := ttlMs c |})
      else (Some (value entry), c)
  end.

Definition set {T} (now : Z) (key : string) (v : T) (c : TTLCache T) : TTLCache T :=
  {| cache := <[key := {| value := v; timestamp := now |}]> (cache c);
     ttlMs := ttlMs c |}.

Definition has {T} (now : Z) (key : string) (c : TTLCache T) : bool * TTLCache T :=
  let '(v, c) := get now key c in
  (match v with Some _ => true | None => false end, c).

Definition clearExpired {T} (now : Z) (c : TTLCache T) : TTLCache T :=
  {| cache :=
       map_fold (fun key entry m => if expired now c entry then delete key m else m)
         (cache c) (cache c);
     ttlMs := ttlMs c |}.

Definition clear {T} (c : TTLCache T) : TTLCache T :=
  {| cache := ∅; ttlMs := ttlMs c |}.

Definition size {T} (c : TTLCache T) : nat := base.size (cache c).

End Cache.

(** ** [ai/service.ts]: the rate limit *)

Module Service.

(** The two module variables. *)
Record Limiter := {
  requestCount : Z;
  rateLimitWindow : Z;
}.

Definition MAX_REQUESTS_PER_MINUTE : Z := 10.

Definition checkRateLimit (now : Z) (l : Limiter) : bool * Limiter :=
  let l :=
    if (60000 <? now - rateLimitWindow l)%Z
    then {| requestCount := 0; rateLimitWindow := now |}
    else l in
  if (MAX_REQUESTS_PER_MINUTE <=? requestCount l)%Z then (false, l)
  else (true, {| requestCount := requestCount l + 1;
                 rateLimitWindow := rateLimitWindow l |}).

(** The answers to calls made at the given times, one after the other. *)
Fixpoint calls (times : list Z) (l : Limiter) : list bool * Limiter :=
  match times with
  | [] => ([], l)
  | now :: times =>
      let '(answer, l) := checkRateLimit now l in
      let '(answers, l) := calls times l in
      (answer :: answers, l)
  end.

End Service.

(** ** A reference runtime

    Instances of the interfaces, used to run the model on concrete
    inputs.  They are low-precision stand-ins for the JavaScript
    built-ins and for turf: square roots to six decimals, short
    rational approximations of the trigonometric functions, planar
    geometry on the degree grid. *)

Module Sample.
Import Js.

Definition sqrt (x : Q) : Q :=
  if leb x 0 then 0
  else Qred (inject_Z (Z.sqrt (Qfloor (x * 1000000000000))) / 1000000).

Definition sin (x : Q) : Q :=
  Qred (x - x^3 / 6 + x^5 / 120 - x^7 / 5040).
Definition cos (x : Q) : Q :=
  Qred (1 - x^2 / 2 + x^4 / 24 - x^6 / 720).

Definition atan_unit (x : Q) : Q := x / (1 + (28125 # 100000) * x * x).
Definition atan (x : Q) : Q :=
  Qred (if ltb 1 x then Math_PI / 2 - atan_unit (1 / x)
        else if ltb x (-1) then - (Math_PI / 2) - atan_unit (1 / x)
        else atan_unit x).
Definition atan2 (y x : Q) : Q :=
  Qred (if ltb 0 x then atan (y / x)
        else if ltb x 0 then
          (if ltb y 0 then atan (y / x) - Math_PI else atan (y / x) + Math_PI)
        else if ltb 0 y then Math_PI / 2
        else if ltb y 0 then - (Math_PI / 2)
        else 0).

Definition math : MathLib :=
  {| Math_sqrt := sqrt; Math_sin := sin; Math_cos := cos;
     Math_atan := atan; Math_atan2 := atan2 |}.

(** [x.toFixed(d)]: the digits of [round(|x| * 10^d)], a sign and a
    decimal point. *)
Fixpoint zeros (n : nat) : string :=
  match n with O => "" | S n => String "0" (zeros n) end.
Definition fixed (x : Q) (d : nat) : string :=
  let n := Qfloor (Qabs x * inject_Z (10 ^ Z.of_nat d) + (1 # 2)) in
  let s := pretty (Z.to_N n) in
  let s := zeros (S d - String.length s) +:+ s in
  let k := (String.length s - d)%nat in
  (if ltb x 0 then "-" else "") +:+ String.substring 0 k s +:+
  (if (d =? 0)%nat then "" else "." +:+ String.substring k d s).

(** Integers print as in JavaScript; other numbers with six decimals. *)
Definition show (x : Q) : string :=
  if (Zpos (Qden (Qred x)) =? 1)%Z then pretty (Qnum (Qred x)) else fixed x 6.

Definition format : NumberFormat :=
  {| toFixed := fixed; toString := show; toLocaleString := show |}.

Import Perimeter.

Definition closed (ring : Ring) : bool :=
  match ring, last ring with
  | p :: _, Some q => eqb (fst p) (fst q) && eqb (snd p) (snd q)
  | _, _ => false
  end.
Definition polygon (coords : list Ring) : option (list Ring) :=
  if forallb (fun ring => (4 <=? length ring)%nat && closed ring) coords
  then Some coords else None.

Fixpoint shoelace (ring : Ring) : Q :=
  match ring with
  | p :: (q :: _) as ring' => fst p * snd q - fst q * snd p + shoelace ring'
  | _ => 0
  end.
Definition area (coords : list Ring) : Q :=
  Qabs (shoelace (default [] (coords !! 0%nat))) / 2.

Definition kmPerDegree : Q := 111195 # 1000.
Definition distance (p q : Position) : Q :=
  let dx := fst q - fst p in
  let dy := snd q - snd p in
  kmPerDegree * sqrt (dx * dx + dy * dy).
Definition bearing (p q : Position) : Q :=
  atan2 (fst q - fst p) (snd q - snd p) * 180 / Math_PI.

Fixpoint ring_length (ring : Ring) : Q :=
  match ring with
  | p :: (q :: _) as ring' => distance p q + ring_length ring'
  | _ => 0
  end.
Definition perimeter_length (coords : list Ring) : Q :=
  foldl (fun sum ring => sum + ring_length ring) 0 coords.

(** The mean of the vertices, the closing one left out. *)
Definition centroid (coords : list Ring) : Position :=
  let vertices := coords ≫= (fun ring => take (length ring - 1) ring) in
  let n := inject_Z (Z.of_nat (length vertices)) in
  (Qred (foldl (fun sum p => sum + fst p) 0 vertices / n),
   Qred (foldl (fun sum p => sum + snd p) 0 vertices / n)).

Definition turf : Turf :=
  {| turf_polygon := polygon; turf_area := area; turf_centroid := centroid;
     turf_length := perimeter_length; turf_bearing := bearing;
     turf_distance := distance |}.

(** Dates print as their timestamp; a date is valid within 8.64e15 ms of
    the epoch. *)
Definition date : DateLib :=
  {| Date_toISOString := fun t =>
       if (Z.abs t <=? 8640000000000000)%Z then Some ("@" +:+ pretty t) else None |}.

End Sample.

(** ** Scenarios

    Concrete inputs on which the model is run. *)

Module Scenario.
Import Js Types.

(** *** Perimeter records *)

(** A square of 0.01 degrees, closed. *)
Definition square : Perimeter.Geometry :=
  Perimeter.Polygon
    [[(-120, 37); (-11999 # 100, 37); (-11999 # 100, 3701 # 100);
      (-120, 3701 # 100); (-120, 37)]].

Definition fire (name : option string) (alarm cont : option Z) (acres : option Q)
    : Perimeter.RawFireFeature :=
  {| Perimeter.id := 1;
     Perimeter.geometry := square;
     Perimeter.properties :=
       {| Perimeter.OBJECTID := 1; Perimeter.YEAR_ := 2020;
          Perimeter.FIRE_NAME := name; Perimeter.ALARM_DATE := alarm;
          Perimeter.CONT_DATE := cont; Perimeter.GIS_ACRES := acres;
          Perimeter.IRWINID := None |} |}.

Definition alarm : Z := 1597000000000.
Definition ten_hours : Z := 36000000.

(** Contained ten hours after the alarm, 305 acres. *)
Definition creek : Perimeter.RawFireFeature :=
  fire (Some "CREEK") (Some alarm) (Some (alarm + ten_hours)%Z) (Some 305).
(** The same with an acreage of 0, and of 1000. *)
Definition creek_0 : Perimeter.RawFireFeature :=
  fire (Some "CREEK") (Some alarm) (Some (alarm + ten_hours)%Z) (Some 0).
Definition creek_1000 : Perimeter.RawFireFeature :=
  fire (Some "CREEK") (Some alarm) (Some (alarm + ten_hours)%Z) (Some 1000).
(** Contained before the alarm: a duration of -10 hours. *)
Definition backwards : Perimeter.RawFireFeature :=
  fire (Some "BACKWARDS") (Some (alarm + ten_hours)%Z) (Some alarm) (Some 305).
(** Contained two years after the alarm. *)
Definition two_years : Perimeter.RawFireFeature :=
  fire (Some "LONG") (Some alarm) (Some (alarm + 2 * 8760 * 3600000)%Z) (Some 305).
(** No acreage. *)
Definition no_acres : Perimeter.RawFireFeature :=
  fire (Some "UNSIZED") (Some alarm) (Some (alarm + ten_hours)%Z) None.
(** No name. *)
Definition unnamed : Perimeter.RawFireFeature :=
  fire None (Some alarm) (Some (alarm + ten_hours)%Z) (Some 305).
(** A ring of three positions, which [turf.polygon] refuses. *)
Definition degenerate : Perimeter.RawFireFeature :=
  {| Perimeter.id := 2;
     Perimeter.geometry := Perimeter.Polygon [[(-120, 37); (-119, 37); (-120, 37)]];
     Perimeter.properties := Perimeter.properties creek |}.

(** *** An incident and IAPs *)

Definition incident : Incident :=
  {| lat := 342 # 10; lon := -1183 # 10; fuelProxy := "brush";
     perimeter := {| radiusMeters := 1000 |} |}.

Definition weather : Weather := {| windSpeedMps := 12; humidityPct := 15 |}.

Definition terrain : Terrain.TerrainMetrics :=
  {| Terrain.elevation := 500; Terrain.slope := 35; Terrain.slopeAngle := 19;
     Terrain.aspect := Some "S"; Terrain.aspectDegrees := 180;
     Terrain.nearbyRidgeline := true; Terrain.ridgelineDistKm := Some 1;
     Terrain.ridgelineDirection := Some "N";
     Terrain.terrainType := Terrain.steep; Terrain.notes := [] |}.

(** Same fuel, close weather, same size (776 acres against the 776.3
    of a 1 km radius), an ICS-204 section, terrain words in the text. *)
Definition canyon : Iap.IAPData :=
  {| Iap.id := "iap-1"; Iap.incidentName := "Canyon Fire";
     Iap.location := {| Iap.county := Some "Ventura" |};
     Iap.conditions :=
       {| Iap.fuel := Some "brush";
          Iap.weather := Some {| Iap.iap_windSpeedMps := Some 10;
                                 Iap.iap_humidityPct := Some 18 |};
          Iap.acres := Some 776 |};
     Iap.sections :=
       [{| Iap.type := "ICS-204";
           Iap.content := "Hold the ridge. Crews anchor at the road." |}];
     Iap.tacticalLessons := [];
     Iap.rawText :=
       Some "Steep terrain; fire ran up the ridge on the south-facing slope." |}.

(** Another fuel (grass is not compatible with brush), no weather. *)
Definition meadow : Iap.IAPData :=
  {| Iap.id := "iap-2"; Iap.incidentName := "Meadow Fire";
     Iap.location := {| Iap.county := None |};
     Iap.conditions := {| Iap.fuel := Some "grass"; Iap.weather := None;
                          Iap.acres := None |};
     Iap.sections :=
       [{| Iap.type := "ICS-202"; Iap.content := "Protect structures." |}];
     Iap.tacticalLessons := [];
     Iap.rawText := None |}.

(** *** A spread index *)

(** A fire whose perimeter is a square of 0.02 degrees around
    [(lat, lon)], which burned for ten hours. *)
Definition burn (name : string) (year : Z) (lat lon : Q) : Spread.GeoJSONFeature :=
  let n := lat + (1 # 100) in
  let s := lat - (1 # 100) in
  let e := lon + (1 # 100) in
  let w := lon - (1 # 100) in
  {| Spread.feature_id := year;
     Spread.INC_NUM := None;
     Spread.FIRE_NAME := Some name;
     Spread.YEAR_ := Some year;
     Spread.ALARM_DATE := Some alarm;
     Spread.CONT_DATE := Some (alarm + ten_hours)%Z;
     Spread.GIS_ACRES := Some 100;
     Spread.coordinates := [[[(w, s); (e, s); (e, n); (w, n); (w, s)]]] |}.

Definition far : Spread.GeoJSONFeature := burn "Far" 2018 (344 # 10) (-1181 # 10).
Definition near : Spread.GeoJSONFeature := burn "Near" 2015 (342 # 10) (-1182 # 10).
Definition mid : Spread.GeoJSONFeature := burn "Mid" 2020 (343 # 10) (-1183 # 10).

Definition index : Spread.SpreadIndex :=
  Spread.buildSpreadIndex (H := Sample.math) (H0 := Sample.format) [far; near; mid].

(** *** A random generator: the first draw is 0, the others 1/2. *)
Definition rng : Rng :=
  {| draws := fun n => match n with O => 0 | S _ => 1 # 2 end; pos := 0 |}.
(** Generators whose draws are all 1/4, at two positions. *)
Definition rng_a : Rng := {| draws := fun _ => 1 # 4; pos := 0 |}.
Definition rng_b : Rng := {| draws := fun _ => 1 # 4; pos := 7 |}.


(** *** A rate limiter one call short of its limit *)
Definition limiter : Service.Limiter :=
  {| Service.requestCount := 9; Service.rateLimitWindow := 0 |}.

End Scenario.

(** ** Tactics *)

(** Membership in a list that is written out. *)
Ltac in_list := repeat first [apply list_elem_of_here | apply list_elem_of_further].

(** Comparisons of concrete rationals. *)
Ltac compare_Q := vm_compute; first [reflexivity | discriminate].

(** * Properties *)

(** ** Facts about the runtime model *)

Section JsFacts.
Import Js.

Lemma leb_le x y : leb x y = true <-> x <= y.
Proof. apply Qle_bool_iff. Qed.

Lemma ltb_lt x y : ltb x y = true <-> x < y.
Proof.
  unfold ltb. rewrite negb_true_iff, <- not_true_iff_false, Qle_bool_iff.
  split; [apply Qnot_le_lt | apply Qlt_not_le].
Qed.

Lemma gtb_lt x y : gtb x y = true <-> y < x.
Proof. apply ltb_lt. Qed.

Lemma eqb_eq x y : eqb x y = true <-> x == y.
Proof. apply Qeq_bool_iff. Qed.

Lemma slice0_take {A} (l : list A) (e : Z) :
  exists n, slice0 l e = take n l.
Proof. unfold slice0. destruct (e <? 0)%Z; eauto. Qed.

Lemma slice0_length_nonneg {A} (l : list A) (e : Z) :
  (0 <= e)%Z -> (Z.of_nat (length (slice0 l e)) <= e)%Z.
Proof.
  intros He. unfold slice0.
  destruct (Z.ltb_spec e 0) as [Hlt|_]; [lia|].
  rewrite length_take. lia.
Qed.

Lemma slice0_length_le {A} (l : list A) (e : Z) :
  (length (slice0 l e) <= length l)%nat.
Proof. destruct (slice0_take l e) as [n ->]. rewrite length_take. lia. Qed.

Lemma slice0_Forall {A} (P : A -> Prop) (l : list A) (e : Z) :
  Forall P l -> Forall P (slice0 l e).
Proof. destruct (slice0_take l e) as [n ->]. apply Forall_take. Qed.

Lemma Forall_both {A} (P Q : A -> Prop) (l : list A) :
  Forall P l -> Forall Q l -> Forall (fun x => P x /\ Q x) l.
Proof.
  intros HP. induction HP as [|x l Hx HP IH]; intros HQ; [constructor|].
  apply Forall_cons in HQ as [Hq HQ]. constructor; auto.
Qed.

Lemma take_StronglySorted {A} (R : A -> A -> Prop) (n : nat) (l : list A) :
  StronglySorted R l -> StronglySorted R (take n l).
Proof.
  intros Hl. revert n. induction Hl as [|x l Hl IH Hx]; intros [|n]; simpl;
    try constructor; auto.
  by apply Forall_take.
Qed.

Lemma slice0_StronglySorted {A} (R : A -> A -> Prop) (l : list A) (e : Z) :
  StronglySorted R l -> StronglySorted R (slice0 l e).
Proof. destruct (slice0_take l e) as [n ->]. apply take_StronglySorted. Qed.

(** *** [Array.prototype.sort] *)

Section Sort.
Context {A : Type} (cmp : A -> A -> Q).

Hypothesis before_total : forall x y, before cmp x y \/ before cmp y x.
Hypothesis before_trans : forall x y z, before cmp x y -> before cmp y z -> before cmp x z.

Lemma sort_insert_Forall (P : A -> Prop) x l :
  P x -> Forall P l -> Forall P (sort_insert cmp x l).
Proof.
  intros Hx Hl. induction Hl as [|y l Hy Hl IH]; simpl.
  - by constructor.
  - destruct (leb (cmp x y) 0); repeat constructor; auto.
Qed.

Lemma sort_Forall (P : A -> Prop) l : Forall P l -> Forall P (sort cmp l).
Proof.
  induction 1 as [|x l Hx Hl IH]; simpl; [constructor|].
  by apply sort_insert_Forall.
Qed.

Lemma sort_insert_length x l : length (sort_insert cmp x l) = S (length l).
Proof.
  induction l as [|y l IH]; simpl; [done|].
  destruct (leb (cmp x y) 0); simpl; congruence.
Qed.

Lemma sort_length l : length (sort cmp l) = length l.
Proof.
  induction l as [|x l IH]; simpl; [done|].
  rewrite sort_insert_length. congruence.
Qed.

Lemma sort_insert_sorted x l :
  StronglySorted (before cmp) l -> StronglySorted (before cmp) (sort_insert cmp x l).
Proof.
  induction 1 as [|y l Hl IH Hy]; simpl.
  - repeat constructor.
  - destruct (leb (cmp x y) 0) eqn:E.
    + apply leb_le in E. constructor; [by constructor|].
      constructor; [exact E|].
      eapply Forall_impl; [exact Hy|]. intros z Hz. by eapply before_trans.
    + constructor; [exact IH|].
      apply sort_insert_Forall; [|exact Hy].
      destruct (before_total x y) as [Hxy|Hyx]; [|exact Hyx].
      apply leb_le in Hxy. congruence.
Qed.

Lemma sort_sorted l : StronglySorted (before cmp) (sort cmp l).
Proof.
  induction l as [|x l IH]; simpl; [constructor|].
  by apply sort_insert_sorted.
Qed.
End Sort.

(** *** [Math.max(...xs)], [Math.min(...xs)] *)

Lemma Math_min_of_pos x xs :
  0 < x -> Forall (fun e => 0 < e) xs -> 0 < Math_min_of x xs.
Proof.
  intros Hx Hxs. revert x Hx. unfold Math_min_of.
  induction Hxs as [|y xs Hy Hxs IH]; intros x Hx; simpl; [exact Hx|].
  apply IH. unfold Math_min. apply Q.min_glb_lt; assumption.
Qed.

Lemma Math_min_of_le x xs : Math_min_of x xs <= x.
Proof.
  revert x. unfold Math_min_of.
  induction xs as [|y xs IH]; intros x; simpl; [apply Qle_refl|].
  eapply Qle_trans; [apply IH|]. apply Q.le_min_l.
Qed.

Lemma Math_max_of_ge x xs : x <= Math_max_of x xs.
Proof.
  revert x. unfold Math_max_of.
  induction xs as [|y xs IH]; intros x; simpl; [apply Qle_refl|].
  eapply Qle_trans; [|apply IH]. apply Q.le_max_l.
Qed.

End JsFacts.

(** ** Perimeter processor *)

Section PerimeterFacts.
Import Js Perimeter.
Context `{MathLib} `{NumberFormat} `{Turf} `{DateLib}.

Lemma processAll_step_count st feature :
  let '(p, f, s) := st in
  let '(p', f', s') := processAll_step st feature in
  (length p' + f' + s' = S (length p + f + s))%nat.
Proof.
  destruct st as [[p f] s]. unfold processAll_step.
  destruct (processFirePerimeter feature) as [r|].
  - rewrite length_app. simpl. lia.
  - destruct (_ || _); lia.
Qed.

Lemma processAll_fold_count features st :
  let '(p, f, s) := st in
  let '(p', f', s') := foldl processAll_step st features in
  (length p' + f' + s' = length features + (length p + f + s))%nat.
Proof.
  revert st. induction features as [|feature features IH]; intros [[p f] s];
    cbn [foldl length].
  - done.
  - specialize (IH (processAll_step (p, f, s) feature)).
    pose proof (processAll_step_count (p, f, s) feature) as Hstep.
    destruct (processAll_step (p, f, s) feature) as [[p1 f1] s1].
    destruct (foldl processAll_step (p1, f1, s1) features) as [[p' f'] s'].
    cbn beta iota in *. lia.
Qed.

(** C10.  The counts of [processAllPerimeters] are conserved: [total] is
    the number of input features, [successful] is the number of
    perimeters returned, and every feature is counted once, as
    successful, skipped or failed. *)
Theorem processAllPerimeters_counts (features : list RawFireFeature) :
  let r := processAllPerimeters features in
  total (stats r) = length features /\
  successful (stats r) = length (processed r) /\
  (successful (stats r) + skipped (stats r) + failed (stats r) = total (stats r))%nat.
Proof.
  unfold processAllPerimeters.
  pose proof (processAll_fold_count features ([], 0%nat, 0%nat)) as Hc.
  destruct (foldl processAll_step ([], 0%nat, 0%nat) features) as [[p f] s].
  simpl in *. repeat split. lia.
Qed.

(** *** Aspect ratio and compactness *)

Lemma calculateAspectRatio_ge_1 (d : DirectionalExtent) :
  1 <= calculateAspectRatio d.
Proof.
  unfold calculateAspectRatio.
  set (l := [_; _; _; _; _; _; _; _]).
  assert (Hpos : Forall (fun e => 0 < e) (List.filter (fun e => gtb e 0) l)).
  { apply Forall_forall. intros e He. apply list_elem_of_In, filter_In in He.
    destruct He as [_ He]. by apply gtb_lt in He. }
  destruct (List.filter (fun e => gtb e 0) l) as [|e es]; [apply Qle_refl|].
  apply Forall_cons in Hpos as [He Hes].
  pose proof (Math_min_of_pos e es He Hes) as Hmin.
  pose proof (Math_min_of_le e es) as Hle.
  pose proof (Math_max_of_ge e es) as Hge.
  destruct (gtb (Math_min_of e es) 0) eqn:E.
  - apply Qle_shift_div_l; [exact Hmin|]. rewrite Qmult_1_l.
    eapply Qle_trans; eassumption.
  - apply gtb_lt in Hmin. congruence.
Qed.

Lemma calculateCompactness_zero_perimeter area perimeter :
  perimeter == 0 -> calculateCompactness area perimeter = 0.
Proof. intros Hp. unfold calculateCompactness. apply eqb_eq in Hp. by rewrite Hp. Qed.

Lemma calculateCompactness_formula area perimeter :
  ~ perimeter == 0 ->
  calculateCompactness area perimeter = (4 * Math_PI * area) / (perimeter * perimeter).
Proof.
  intros Hp. unfold calculateCompactness.
  destruct (eqb perimeter 0) eqn:E; [|done]. by apply eqb_eq in E.
Qed.

Lemma Math_PI_pos : 0 < Math_PI.
Proof. reflexivity. Qed.

Lemma calculateCompactness_sign area perimeter :
  ~ perimeter == 0 ->
  (0 < area -> 0 < calculateCompactness area perimeter) /\
  (area == 0 -> calculateCompactness area perimeter == 0) /\
  (area < 0 -> calculateCompactness area perimeter < 0).
Proof.
  intros Hp. rewrite (calculateCompactness_formula _ _ Hp).
  assert (Hsq : 0 < perimeter * perimeter) by nra.
  pose proof Math_PI_pos as Hpi.
  repeat split; intros Ha.
  - apply Qlt_shift_div_l; [exact Hsq|]. nra.
  - rewrite Ha. field. nra.
  - apply Qlt_shift_div_r; [exact Hsq|]. nra.
Qed.

Lemma acresToKm2_sign acres :
  (0 < acres -> 0 < acresToKm2 acres) /\ (acres == 0 -> acresToKm2 acres == 0).
Proof. unfold acresToKm2. split; intros Ha; [nra | rewrite Ha; reflexivity]. Qed.

(** What an accepted record looks like. *)
Lemma processFirePerimeter_Some feature p :
  processFirePerimeter feature = Some p ->
  exists polygon directionalExtent acres,
    GIS_ACRES (properties feature) = Some acres /\
    input_quality_rejection feature = false /\
    totalAcres (metrics p) = acres /\
    perimeterKm (metrics p) = turf_length polygon /\
    aspectRatio (metrics p) = calculateAspectRatio directionalExtent /\
    compactness (metrics p) =
      calculateCompactness (acresToKm2 acres) (turf_length polygon) /\
    durationHours (temporal p) =
      calculateDuration (default 0%Z (ALARM_DATE (properties feature)))
                        (default 0%Z (CONT_DATE (properties feature))).
Proof.
  unfold processFirePerimeter, processFirePerimeter_try, input_quality_rejection.
  destruct (incomplete (properties feature)) eqn:Einc; [done|].
  assert (Hd : duration_invalid (properties feature) =
    (leb (calculateDuration (default 0%Z (ALARM_DATE (properties feature)))
            (default 0%Z (CONT_DATE (properties feature)))) 0
     || gtb (calculateDuration (default 0%Z (ALARM_DATE (properties feature)))
            (default 0%Z (CONT_DATE (properties feature)))) 8760)).
  { unfold duration_invalid, incomplete in *.
    destruct (ALARM_DATE (properties feature)), (CONT_DATE (properties feature));
      simpl in *; try done; try (by rewrite ?orb_true_r in Einc). }
  rewrite Hd. clear Hd.
  destruct (_ || _) eqn:Edur; [done|].
  destruct (normalizeGeometry (geometry feature)) as [g|]; simpl; [|done].
  destruct (turf_polygon g) as [polygon|]; simpl; [|done].
  destruct (calculateDirectionalExtent _ _) as [de|]; simpl; [|done].
  destruct (timestampToISO _) as [a|]; simpl; [|done].
  destruct (timestampToISO _) as [c|]; simpl; [|done].
  intros [= <-]. simpl.
  destruct (GIS_ACRES (properties feature)) as [acres|] eqn:Eac.
  - exists polygon, de, acres. simpl. repeat split.
  - unfold incomplete in Einc. rewrite Eac in Einc. by rewrite !orb_true_r in Einc.
Qed.

End PerimeterFacts.

(** ** IAP similarity matcher *)

Section IapFacts.
Import Js Types Iap.
Context `{NumberFormat}.

Lemma calculateTerrainSimilarity_typed t text :
  is_Some (Terrain.aspect t) -> is_Some (Terrain.calculateTerrainSimilarity t text).
Proof.
  intros [a Ha]. unfold Terrain.calculateTerrainSimilarity. rewrite Ha. simpl. eauto.
Qed.

Lemma calculateIAPSimilarity_typed incident weather cardType iap terrain :
  terrain_typed terrain ->
  is_Some (calculateIAPSimilarity incident weather cardType iap terrain).
Proof.
  intros Ht. unfold calculateIAPSimilarity.
  destruct cardType, terrain as [t|]; simpl; eauto.
  destruct (truthyS (rawText iap)); simpl; eauto.
  destruct (calculateTerrainSimilarity_typed t (default "" (rawText iap)) Ht)
    as [ts ->].
  simpl. eauto.
Qed.

Lemma score_all_typed incident weather cardType terrain iapData :
  terrain_typed terrain ->
  is_Some (mapM (fun iap =>
    score ← calculateIAPSimilarity incident weather cardType iap terrain;
    Some (iap, score)) iapData).
Proof.
  intros Ht. apply mapM_is_Some, Forall_forall. intros iap _. unfold compose.
  destruct (calculateIAPSimilarity_typed incident weather cardType iap terrain Ht)
    as [s ->].
  simpl. eauto.
Qed.

Lemma insight_step_app incident weather cardType insights s :
  insight_step incident weather cardType insights s =
  insights ++ option_list (insight_of incident weather cardType s).
Proof.
  unfold insight_of, insight_step. destruct s as [iap score].
  destruct (relevantSection cardType iap); simpl; by rewrite ?app_nil_r.
Qed.

Lemma insight_of_score incident weather cardType s i :
  insight_of incident weather cardType s = Some i -> relevanceScore i = snd s.
Proof.
  unfold insight_of, insight_step. destruct s as [iap score].
  destruct (relevantSection cardType iap); simpl; [|done].
  by intros [= <-].
Qed.

Lemma insights_omap incident weather cardType insights l :
  foldl (insight_step incident weather cardType) insights l =
  insights ++ omap (insight_of incident weather cardType) l.
Proof.
  revert insights. induction l as [|s l IH]; intros insights; csimpl.
  - by rewrite app_nil_r.
  - rewrite IH, insight_step_app.
    destruct (insight_of incident weather cardType s); simpl.
    + by rewrite <- app_assoc.
    + by rewrite app_nil_r.
Qed.

Lemma omap_length_le {A B} (f : A -> option B) l :
  (length (omap f l) <= length l)%nat.
Proof. induction l as [|x l IH]; csimpl; [lia|]. destruct (f x); simpl; lia. Qed.

Lemma omap_Forall {A B} (f : A -> option B) (P : A -> Prop) (Q : B -> Prop) l :
  (forall x y, f x = Some y -> P x -> Q y) -> Forall P l -> Forall Q (omap f l).
Proof.
  intros Hf. induction 1 as [|x l Hx Hl IH]; csimpl; [constructor|].
  destruct (f x) eqn:E; [constructor|]; eauto.
Qed.

Lemma omap_StronglySorted {A B} (f : A -> option B)
    (R : A -> A -> Prop) (R' : B -> B -> Prop) l :
  (forall x x' y y', f x = Some y -> f x' = Some y' -> R x x' -> R' y y') ->
  StronglySorted R l -> StronglySorted R' (omap f l).
Proof.
  intros Hf. induction 1 as [|x l Hl IH Hx]; csimpl; [constructor|].
  destruct (f x) as [y|] eqn:E; [|exact IH].
  constructor; [exact IH|].
  eapply omap_Forall; [|exact Hx]. intros x' y' E' HR. eapply Hf; eauto.
Qed.

Lemma inject_Z_le_0 z : inject_Z z <= 0 <-> (z <= 0)%Z.
Proof. change 0 with (inject_Z 0). by rewrite <- Zle_Qle. Qed.

Lemma findRelevantIAPs_spec iapData incident weather cardType terrain r :
  findRelevantIAPs iapData incident weather cardType terrain = Some r ->
  (Z.of_nat (length r) <= MAX_IAP_INSIGHTS)%Z /\
  Forall (fun i => (MIN_IAP_SCORE <= relevanceScore i)%Z) r /\
  StronglySorted by_relevance r.
Proof.
  unfold findRelevantIAPs.
  destruct (length iapData =? 0)%nat.
  { intros [= <-]. simpl. repeat split; [done | constructor | constructor]. }
  destruct (mapM _ iapData) as [scored|]; simpl; [|done].
  intros [= <-]. rewrite insights_omap. simpl.
  set (cmp := fun a b : Scored => inject_Z (snd b - snd a)).
  set (kept := List.filter _ scored).
  assert (Hkept : Forall (fun s : Scored => (MIN_IAP_SCORE <= snd s)%Z) kept).
  { apply Forall_forall. intros s Hs. apply list_elem_of_In, filter_In in Hs.
    destruct Hs as [_ Hs]. by apply Z.leb_le in Hs. }
  assert (Hsorted : StronglySorted (before cmp) (sort cmp kept)).
  { apply sort_sorted; unfold before, cmp; intros *; rewrite !inject_Z_le_0; lia. }
  repeat split.
  - etrans; [apply inj_le, omap_length_le|].
    by apply slice0_length_nonneg.
  - eapply omap_Forall; [|apply slice0_Forall, sort_Forall, Hkept].
    intros s i Hi Hs. by rewrite (insight_of_score _ _ _ _ _ Hi).
  - eapply omap_StronglySorted; [|apply slice0_StronglySorted, Hsorted].
    intros s s' i i' Hi Hi'. unfold before, cmp, by_relevance.
    rewrite inject_Z_le_0, (insight_of_score _ _ _ _ _ Hi),
      (insight_of_score _ _ _ _ _ Hi'). lia.
Qed.

(** C4.  For every dataset, incident, weather, card type and terrain
    (absent, or a value of its declared type), [findRelevantIAPs] returns
    a list of at most 3 insights, each with a relevance score of 60 or
    more, in descending order of relevance score. *)
Theorem findRelevantIAPs_top3 iapData incident weather cardType terrain :
  terrain_typed terrain ->
  exists r,
    findRelevantIAPs iapData incident weather cardType terrain = Some r /\
    (length r <= 3)%nat /\
    Forall (fun i => (60 <= relevanceScore i)%Z) r /\
    StronglySorted by_relevance r.
Proof.
  intros Ht.
  assert (Hsome : is_Some (findRelevantIAPs iapData incident weather cardType terrain)).
  { unfold findRelevantIAPs. destruct (length iapData =? 0)%nat; [eauto|].
    destruct (score_all_typed incident weather cardType terrain iapData Ht)
      as [scored ->].
    simpl. eauto. }
  destruct Hsome as [r Hr]. exists r. split; [exact Hr|].
  destruct (findRelevantIAPs_spec _ _ _ _ _ _ Hr) as (Hlen & Hmin & Hsort).
  unfold MAX_IAP_INSIGHTS in Hlen. repeat split; [lia | exact Hmin | exact Hsort].
Qed.

(** The number of bullets of [generateReasoning]. *)
Lemma generateReasoning_length incident weather iap score cardType :
  (1 <= length (generateReasoning incident weather iap score cardType) <= 3)%nat.
Proof.
  unfold generateReasoning.
  match goal with |- context [slice0 ?l 3] => set (bullets := l) end.
  assert (1 <= length bullets)%nat as Hb.
  { subst bullets.
    match goal with |- context [(length ?l <? 2)%nat] => set (l0 := l) end.
    destruct (Nat.ltb_spec (length l0) 2); [rewrite length_app; simpl|]; lia. }
  pose proof (slice0_length_nonneg bullets 3 ltac:(lia)).
  split; [|lia].
  unfold slice0. simpl. rewrite length_take. lia.
Qed.

End IapFacts.

(** ** Spread index and predictor *)

Section SpreadFacts.
Import Js Types Spread.
Context `{MathLib} `{NumberFormat}.

Lemma fst_sorted_by_distance lat lon (items : list (DirectionalSpread * Q)) :
  Forall (fun item => snd item = distance_to lat lon (fst item)) items ->
  StronglySorted (before (fun a b => snd a - snd b)) items ->
  StronglySorted (by_distance lat lon) (fst <$> items).
Proof.
  intros Hitems Hsorted.
  induction Hsorted as [|item items Hs IH Hitem]; csimpl; [constructor|].
  apply Forall_cons in Hitems as [Hd Hitems].
  constructor; [by apply IH|].
  apply Forall_fmap.
  eapply Forall_impl; [exact (Forall_both _ _ _ Hitem Hitems)|].
  intros item' [Hb Hd']. unfold before in Hb. unfold by_distance. simpl.
  rewrite <- Hd, <- Hd'. lra.
Qed.

Lemma findFiresNearLocation_spec index lat lon radiusKm limit :
  let fires := findFiresNearLocation index lat lon radiusKm limit in
  Forall (fun fire => distance_to lat lon fire <= radiusKm) fires /\
  StronglySorted (by_distance lat lon) fires /\
  ((0 <= limit)%Z -> (Z.of_nat (length fires) <= limit)%Z).
Proof.
  unfold findFiresNearLocation.
  set (cmp := fun a b : DirectionalSpread * Q => snd a - snd b).
  set (items := with_distance lat lon <$> _).
  set (near := List.filter _ items).
  assert (Hitems : Forall (fun item => snd item = distance_to lat lon (fst item)) near).
  { apply Forall_forall. intros item Hi. apply list_elem_of_In, filter_In in Hi.
    destruct Hi as [Hi _]. apply list_elem_of_In, list_elem_of_fmap in Hi.
    by destruct Hi as (fire & -> & _). }
  assert (Hnear : Forall (fun item => snd item <= radiusKm) near).
  { apply Forall_forall. intros item Hi. apply list_elem_of_In, filter_In in Hi.
    destruct Hi as [_ Hi]. by apply leb_le in Hi. }
  assert (Hsorted : StronglySorted (before cmp) (sort cmp near)).
  { apply sort_sorted; unfold before, cmp; intros *; lra. }
  repeat split.
  - apply Forall_fmap.
    eapply Forall_impl;
      [exact (Forall_both _ _ _
                (slice0_Forall _ _ limit (sort_Forall cmp _ _ Hitems))
                (slice0_Forall _ _ limit (sort_Forall cmp _ _ Hnear)))|].
    intros item [Hd Hr]. simpl. by rewrite <- Hd.
  - apply fst_sorted_by_distance.
    + apply slice0_Forall, sort_Forall, Hitems.
    + apply slice0_StronglySorted, Hsorted.
  - intros Hl. rewrite length_fmap. by apply slice0_length_nonneg.
Qed.

(** C5.  Every fire returned by [findFiresNearLocation] is within
    [radiusKm] (haversine distance from the query point to the centre of
    its bounds), the result is in ascending order of that distance, and,
    [limit] being a count, it has at most [limit] elements. *)
Theorem findFiresNearLocation_near_sorted_limited index lat lon radiusKm limit :
  (0 <= limit)%Z ->
  let fires := findFiresNearLocation index lat lon radiusKm limit in
  Forall (fun fire => distance_to lat lon fire <= radiusKm) fires /\
  StronglySorted (by_distance lat lon) fires /\
  (Z.of_nat (length fires) <= limit)%Z.
Proof.
  intros Hl.
  destruct (findFiresNearLocation_spec index lat lon radiusKm limit) as (Hr & Hs & Hn).
  auto.
Qed.

Lemma findSimilarFires_length index incident radiusKm limit :
  (0 <= limit)%Z ->
  (Z.of_nat (length (findSimilarFires index incident radiusKm limit)) <= limit)%Z.
Proof. intros Hl. unfold findSimilarFires. by apply slice0_length_nonneg. Qed.

Lemma confidence_of_mono n m :
  (n <= m)%nat -> (rank (confidence_of n) <= rank (confidence_of m))%nat.
Proof.
  intros Hnm. unfold confidence_of.
  destruct (Nat.eqb_spec n 0), (Nat.eqb_spec m 0),
    (Nat.leb_spec n 4), (Nat.leb_spec m 4),
    (Nat.leb_spec n 9), (Nat.leb_spec m 9); simpl; lia.
Qed.

(** C6.  The number [n] of analogs of a prediction is at most 15, and the
    confidence is [confidence_of n]: "low" for [n = 0], in which case the
    direction is "UNKNOWN" and the reasoning is the single sentence that
    none were found, "low" for 1 to 4, "medium" for 5 to 9, "high" from 10
    on; it never decreases when [n] grows. *)
Theorem predictSpreadPattern_confidence index incident windDirDeg :
  let r := predictSpreadPattern index incident windDirDeg in
  let n := length (similarFires r) in
  (n <= 15)%nat /\
  n = length (findSimilarFires index incident 100 15) /\
  confidence (prediction r) = confidence_of n /\
  (n = 0%nat ->
     likelyDirection (prediction r) = "UNKNOWN" /\
     confidence (prediction r) = low /\
     reasoning (prediction r) = ["No similar historical fires found in the area"]) /\
  ((1 <= n <= 4)%nat -> confidence (prediction r) = low) /\
  ((5 <= n <= 9)%nat -> confidence (prediction r) = medium) /\
  ((10 <= n)%nat -> confidence (prediction r) = high) /\
  (forall n1 n2, (n1 <= n2)%nat ->
     (rank (confidence_of n1) <= rank (confidence_of n2))%nat).
Proof.
  pose proof (findSimilarFires_length index incident 100 15 ltac:(lia)) as Hlen.
  unfold predictSpreadPattern.
  destruct (Nat.eqb_spec (length (findSimilarFires index incident 100 15)) 0)
    as [E|E]; cbv zeta;
    cbn [similarFires prediction confidence likelyDirection reasoning].
  - rewrite E. change (length []) with 0%nat.
    repeat split; try lia. apply confidence_of_mono.
  - set (n := length (findSimilarFires index incident 100 15)) in *.
    assert (Hc : (if (10 <=? n)%nat then high
                  else if (5 <=? n)%nat then medium else low) = confidence_of n).
    { unfold confidence_of.
      destruct (Nat.eqb_spec n 0), (Nat.leb_spec 10 n), (Nat.leb_spec 5 n),
        (Nat.leb_spec n 4), (Nat.leb_spec n 9); try reflexivity; lia. }
    rewrite Hc. unfold confidence_of.
    repeat split; try lia; try apply confidence_of_mono; intros Hn.
    + destruct (Nat.eqb_spec n 0), (Nat.leb_spec n 4); try reflexivity; lia.
    + destruct (Nat.eqb_spec n 0), (Nat.leb_spec n 4), (Nat.leb_spec n 9);
        try reflexivity; lia.
    + destruct (Nat.eqb_spec n 0), (Nat.leb_spec n 4), (Nat.leb_spec n 9);
        try reflexivity; lia.
Qed.

End SpreadFacts.

(** ** Terrain analyzer *)

Section TerrainFacts.
Import Js Terrain.
Context `{MathLib} `{NumberFormat}.

(** C9.  Whenever the magnitude of the central-difference gradient of the
    five elevation samples, [sqrt((dz/dx)^2 + (dz/dy)^2)], is below 0.01,
    [calculateAspect] reports the sentinel "flat" (with 0 degrees), not a
    compass bearing. *)
Theorem calculateAspect_flat centerElev northElev southElev eastElev westElev cellSize :
  let dz_dx := (eastElev - westElev) / (2 * cellSize) in
  let dz_dy := (northElev - southElev) / (2 * cellSize) in
  Math_sqrt (dz_dx * dz_dx + dz_dy * dz_dy) < 1 # 100 ->
  calculateAspect centerElev northElev southElev eastElev westElev cellSize =
    {| degrees := 0; direction := Some "flat" |}.
Proof.
  intros dz_dx dz_dy Hflat. unfold calculateAspect.
  fold dz_dx dz_dy. apply ltb_lt in Hflat. by rewrite Hflat.
Qed.

(** Above the threshold the aspect is the compass point of the bearing. *)
Lemma calculateAspect_not_flat centerElev northElev southElev eastElev westElev cellSize :
  let dz_dx := (eastElev - westElev) / (2 * cellSize) in
  let dz_dy := (northElev - southElev) / (2 * cellSize) in
  1 # 100 <= Math_sqrt (dz_dx * dz_dx + dz_dy * dz_dy) ->
  let a := calculateAspect centerElev northElev southElev eastElev westElev cellSize in
  direction a = degreesToCardinal (degrees a).
Proof.
  intros dz_dx dz_dy Hsteep. unfold calculateAspect. fold dz_dx dz_dy.
  destruct (ltb _ (1 # 100)) eqn:E; [|reflexivity].
  apply ltb_lt in E. lra.
Qed.

Lemma getTerrainMetrics_slope lat lon s :
  slope (fst (getTerrainMetrics lat lon s)) = 10 + draws s (pos s) * 20.
Proof.
  cbv [getTerrainMetrics bind ret Math_random].
  destruct (gtb _ 20); [destruct (gtb _ (6 # 10))|]; reflexivity.
Qed.

Lemma getTerrainMetrics_consumed lat lon s :
  let s' := snd (getTerrainMetrics lat lon s) in
  draws s' = draws s /\ (pos s + 1 <= pos s' <= pos s + 4)%nat.
Proof.
  cbv [getTerrainMetrics bind ret Math_random].
  destruct (gtb _ 20); [destruct (gtb _ (6 # 10))|]; cbn [snd draws pos]; split;
    try reflexivity; lia.
Qed.

(** C8, as the code has it.  Of the result of [getTerrainMetrics], the
    elevation, the aspect and the aspect degrees are functions of
    [(lat, lon)] alone; the slope is [10 + 20 r] for the first draw [r] of
    [Math.random()]; and two calls at the same [(lat, lon)] that see the
    same draws return the same metrics. *)
Theorem getTerrainMetrics_deterministic_up_to_draws lat lon s1 s2 :
  let m1 := fst (getTerrainMetrics lat lon s1) in
  let m2 := fst (getTerrainMetrics lat lon s2) in
  (elevation m1 = elevation m2 /\
   aspect m1 = aspect m2 /\
   aspectDegrees m1 = aspectDegrees m2) /\
  slope m1 = 10 + draws s1 (pos s1) * 20 /\
  (same_draws s1 s2 -> m1 = m2).
Proof.
  split; [|split].
  - cbv [getTerrainMetrics bind ret Math_random].
    destruct (gtb _ 20); [destruct (gtb _ (6 # 10))|];
      (destruct (gtb _ 20); [destruct (gtb _ (6 # 10))|]); repeat split.
  - apply getTerrainMetrics_slope.
  - intros Hd.
    pose proof (Hd 0%nat ltac:(lia)) as E0.
    pose proof (Hd 1%nat ltac:(lia)) as E1.
    pose proof (Hd 2%nat ltac:(lia)) as E2.
    pose proof (Hd 3%nat ltac:(lia)) as E3.
    rewrite !Nat.add_0_r in E0.
    replace (pos s1 + 1)%nat with (S (pos s1)) in E1 by lia.
    replace (pos s2 + 1)%nat with (S (pos s2)) in E1 by lia.
    replace (pos s1 + 2)%nat with (S (S (pos s1))) in E2 by lia.
    replace (pos s2 + 2)%nat with (S (S (pos s2))) in E2 by lia.
    replace (pos s1 + 3)%nat with (S (S (S (pos s1)))) in E3 by lia.
    replace (pos s2 + 3)%nat with (S (S (S (pos s2)))) in E3 by lia.
    cbv [getTerrainMetrics bind ret Math_random]. cbn [draws pos fst].
    rewrite E0. destruct (gtb _ 20); [|reflexivity].
    cbn [draws pos]. rewrite E1. destruct (gtb _ (6 # 10)); [|reflexivity].
    cbn [draws pos]. rewrite E2, E3. reflexivity.
Qed.

End TerrainFacts.

(** ** The scenarios, on every runtime *)

Section ScenarioFacts.
Import Js Types Scenario.
Context `{MathLib} `{NumberFormat} `{Perimeter.Turf} `{Perimeter.DateLib}.

(** C1.  The batch entry point counts as "failed" three records that
    [processFirePerimeter] rejects by validation, without any exception:
    one contained before its alarm, one contained two years after it, one
    without acreage.  None is counted as "skipped". *)
Theorem batch_counts_rejections_as_failed :
  let r := Perimeter.processAllPerimeters [backwards; two_years; no_acres] in
  Forall (fun feature =>
    Perimeter.input_quality_rejection feature = true /\
    Perimeter.processFirePerimeter_try feature = Perimeter.Normal None)
    [backwards; two_years; no_acres] /\
  Perimeter.processed r = [] /\
  Perimeter.stats r =
    {| Perimeter.total := 3; Perimeter.successful := 0;
       Perimeter.failed := 3; Perimeter.skipped := 0 |}.
Proof. repeat constructor. Qed.

(** A record without a name is counted as skipped. *)
Lemma batch_counts_unnamed_as_skipped :
  Perimeter.stats (Perimeter.processAllPerimeters [unnamed]) =
    {| Perimeter.total := 1; Perimeter.successful := 0;
       Perimeter.failed := 0; Perimeter.skipped := 1 |}.
Proof. reflexivity. Qed.

(** C2.  A tactics card for an incident whose fuel, weather, size,
    sections and terrain all match an IAP scores
    25 + 15 + 10 + 14.99 + 25 + 14 = 103.99, rounded to 104. *)
Theorem calculateIAPSimilarity_above_100 :
  Iap.calculateIAPSimilarity incident weather tactics canyon (Some terrain) = Some 104%Z.
Proof. vm_compute. reflexivity. Qed.

(** C7.  An evacuation card for an IAP without weather data and with
    another fuel gets one bullet, the generic one. *)
Theorem generateReasoning_single_bullet :
  Iap.generateReasoning incident weather meadow 61 evacuation =
    ["Overall relevance: " +:+ toString 61 +:+ "%"].
Proof. reflexivity. Qed.

End ScenarioFacts.

(** ** Shape metrics of an accepted record *)

Section ShapeFacts.
Import Js Perimeter.
Context `{MathLib} `{NumberFormat} `{Turf} `{DateLib}.

(** C3, as the code has it.  For every record the processor accepts, the
    aspect ratio is at least 1; the compactness is 0 when the perimeter
    length is 0 and [4 pi area / perimeter^2] otherwise, where the area is
    the recorded acreage in km2: it is positive when the acreage is, 0
    when the acreage is 0, and the code puts no upper bound on it. *)
Theorem processFirePerimeter_shape feature p :
  processFirePerimeter feature = Some p ->
  let m := metrics p in
  let area := acresToKm2 (totalAcres m) in
  1 <= aspectRatio m /\
  (perimeterKm m == 0 -> compactness m = 0) /\
  (~ perimeterKm m == 0 ->
     compactness m = (4 * Math_PI * area) / (perimeterKm m * perimeterKm m) /\
     (0 < totalAcres m -> 0 < compactness m) /\
     (totalAcres m == 0 -> compactness m == 0)).
Proof.
  intros Hp.
  destruct (processFirePerimeter_Some feature p Hp)
    as (polygon & de & acres & _ & _ & Ht & Hl & Ha & Hc & _).
  cbv zeta. rewrite Ht, Hl, Ha, Hc.
  split; [apply calculateAspectRatio_ge_1|].
  split; [apply calculateCompactness_zero_perimeter|].
  intros Hne.
  destruct (calculateCompactness_sign (acresToKm2 acres) _ Hne) as (Hpos & Hzero & _).
  destruct (acresToKm2_sign acres) as [Hapos Hazero].
  split; [by apply calculateCompactness_formula|]. split; auto.
Qed.

(** Every accepted record has a duration in (0, 8760] hours. *)
Lemma processFirePerimeter_duration feature p :
  processFirePerimeter feature = Some p ->
  0 < durationHours (temporal p) <= 8760.
Proof.
  intros Hp.
  destruct (processFirePerimeter_Some feature p Hp)
    as (polygon & de & acres & _ & Hv & _ & _ & _ & _ & Hd).
  unfold input_quality_rejection in Hv.
  apply orb_false_iff in Hv as [Hinc Hdur].
  unfold incomplete in Hinc. unfold duration_invalid in Hdur.
  destruct (ALARM_DATE (properties feature)) as [a|],
    (CONT_DATE (properties feature)) as [c|]; simpl in Hinc;
    rewrite ?orb_true_r in Hinc; try discriminate.
  change (durationHours (temporal p) = calculateDuration a c) in Hd.
  rewrite Hd. apply orb_false_iff in Hdur as [Hle Hgt].
  split.
  - apply ltb_lt. unfold ltb, leb in *. by rewrite Hle.
  - apply leb_le. unfold gtb, ltb in Hgt. by apply negb_false_iff in Hgt.
Qed.

End ShapeFacts.

(** ** The scenarios, on the reference runtime *)

Section SampleFacts.
Import Js Types Scenario.
#[local] Existing Instances Sample.math Sample.format Sample.turf Sample.date.

(** C3, as stated, fails: the square is accepted with an acreage of 0,
    and its compactness is 0; it is accepted with an acreage of 1000,
    and its compactness is above 1. *)
Lemma compactness_outside_unit_interval :
  (exists p, Perimeter.processFirePerimeter creek_0 = Some p /\
             Perimeter.compactness (Perimeter.metrics p) == 0) /\
  (exists p, Perimeter.processFirePerimeter creek_1000 = Some p /\
             1 < Perimeter.compactness (Perimeter.metrics p)).
Proof.
  split; eexists; (split; [vm_compute; reflexivity|]); reflexivity.
Qed.

Lemma processFirePerimeter_shape_witness :
  exists p, Perimeter.processFirePerimeter creek = Some p /\
    1 <= Perimeter.aspectRatio (Perimeter.metrics p) /\
    0 < Perimeter.compactness (Perimeter.metrics p).
Proof.
  eexists. split; [vm_compute; reflexivity|].
  match goal with |- 1 <= Perimeter.aspectRatio (Perimeter.metrics ?p) /\ _ =>
    assert (Hp : Perimeter.processFirePerimeter creek = Some p)
      by (vm_compute; reflexivity);
    destruct (processFirePerimeter_shape creek p Hp) as (Ha & _ & Hc)
  end.
  split; [exact Ha|].
  apply Hc; [vm_compute; discriminate | reflexivity].
Defined.

Lemma findRelevantIAPs_top3_witness :
  Iap.terrain_typed (Some terrain) /\
  exists r,
    Iap.findRelevantIAPs [canyon; meadow; canyon] incident weather tactics
      (Some terrain) = Some r /\
    (length r <= 3)%nat /\
    Forall (fun i => (60 <= Iap.relevanceScore i)%Z) r /\
    StronglySorted Iap.by_relevance r.
Proof.
  assert (Ht : Iap.terrain_typed (Some terrain)) by (simpl; eauto).
  split; [exact Ht|].
  exact (findRelevantIAPs_top3 [canyon; meadow; canyon] incident weather tactics
           (Some terrain) Ht).
Defined.

Lemma findFiresNearLocation_witness :
  (0 <= 2)%Z /\
  let fires := Spread.findFiresNearLocation index (342 # 10) (-1183 # 10) 50 2 in
  Forall (fun fire => Spread.distance_to (342 # 10) (-1183 # 10) fire <= 50) fires /\
  StronglySorted (Spread.by_distance (342 # 10) (-1183 # 10)) fires /\
  (Z.of_nat (length fires) <= 2)%Z.
Proof.
  split; [lia|].
  apply (findFiresNearLocation_near_sorted_limited index (342 # 10) (-1183 # 10) 50 2).
  lia.
Defined.

(** What the search returns there: the two nearest of the three fires. *)
Example findFiresNearLocation_example :
  Spread.fireName <$> Spread.findFiresNearLocation index (342 # 10) (-1183 # 10) 50 2
  = ["Near"; "Mid"].
Proof. vm_compute. reflexivity. Qed.

(** C8, as stated, fails: two successive calls at the same location,
    the generator drawing 0 and then 1/2, give a slope of 10 (gentle) and
    a slope of 20 (moderate). *)
Lemma getTerrainMetrics_two_calls_differ :
  let call1 := Terrain.getTerrainMetrics 37 (-120) rng in
  let call2 := Terrain.getTerrainMetrics 37 (-120) (snd call1) in
  Terrain.slope (fst call1) == 10 /\
  Terrain.slope (fst call2) == 20 /\
  Terrain.terrainType (fst call1) = Terrain.gentle /\
  Terrain.terrainType (fst call2) = Terrain.moderate /\
  fst call1 <> fst call2.
Proof.
  cbv zeta.
  assert (H1 : Terrain.terrainType (fst (Terrain.getTerrainMetrics 37 (-120) rng))
               = Terrain.gentle) by (vm_compute; reflexivity).
  assert (H2 : Terrain.terrainType
                 (fst (Terrain.getTerrainMetrics 37 (-120)
                         (snd (Terrain.getTerrainMetrics 37 (-120) rng))))
               = Terrain.moderate) by (vm_compute; reflexivity).
  repeat split; try exact H1; try exact H2.
  intros E. rewrite E, H2 in H1. discriminate.
Qed.

Lemma getTerrainMetrics_witness :
  Terrain.same_draws rng_a rng_b /\
  fst (Terrain.getTerrainMetrics 37 (-120) rng_a) =
  fst (Terrain.getTerrainMetrics 37 (-120) rng_b).
Proof.
  assert (Hd : Terrain.same_draws rng_a rng_b) by (intros k _; reflexivity).
  split; [exact Hd|].
  apply (getTerrainMetrics_deterministic_up_to_draws 37 (-120) rng_a rng_b), Hd.
Defined.

(** East one metre above west over a cell of 100 m: a gradient of 0.005. *)
Lemma calculateAspect_flat_witness :
  Math_sqrt (((101 - 100) / (2 * 100)) * ((101 - 100) / (2 * 100)) +
             ((100 - 100) / (2 * 100)) * ((100 - 100) / (2 * 100))) < 1 # 100 /\
  Terrain.calculateAspect 100 100 100 101 100 100 =
    {| Terrain.degrees := 0; Terrain.direction := Some "flat" |}.
Proof.
  assert (Hflat :
    Math_sqrt (((101 - 100) / (2 * 100)) * ((101 - 100) / (2 * 100)) +
               ((100 - 100) / (2 * 100)) * ((100 - 100) / (2 * 100))) < 1 # 100)
    by reflexivity.
  split; [exact Hflat|].
  exact (calculateAspect_flat 100 100 100 101 100 100 Hflat).
Defined.

(** A negative [limit] makes [slice] count from the end: the last of the
    three fires in range is dropped. *)
Example findFiresNearLocation_negative_limit :
  Spread.fireName <$>
    Spread.findFiresNearLocation index (342 # 10) (-1183 # 10) 50 (-1)
  = ["Near"; "Mid"].
Proof. vm_compute. reflexivity. Qed.

(** The three analogs of the incident, most recent first, and the
    confidence they give. *)
Example predictSpreadPattern_example :
  let r := Spread.predictSpreadPattern index incident 270 in
  Spread.fireName <$> Spread.similarFires r = ["Mid"; "Far"; "Near"] /\
  Spread.confidence (Spread.prediction r) = Spread.low /\
  Spread.likelyDirection (Spread.prediction r) = "NE".
Proof. vm_compute. repeat split. Qed.

(** A batch of six: one accepted; a missing name is skipped; a ring that
    [turf.polygon] refuses is failed, and so are the three validation
    rejections. *)
Example processAllPerimeters_example :
  Perimeter.stats
    (Perimeter.processAllPerimeters
       [creek; backwards; two_years; no_acres; unnamed; degenerate]) =
    {| Perimeter.total := 6; Perimeter.successful := 1;
       Perimeter.failed := 4; Perimeter.skipped := 1 |}.
Proof. vm_compute. reflexivity. Qed.

Example processFirePerimeter_degenerate_throws :
  Perimeter.processFirePerimeter_try degenerate = Perimeter.Throw.
Proof. vm_compute. reflexivity. Qed.

(** The matcher on the two IAPs: the meadow plan scores below 60. *)
Example findRelevantIAPs_example :
  option_map (List.map (fun i => (Iap.iapId i, Iap.relevanceScore i)))
    (Iap.findRelevantIAPs [meadow; canyon] incident weather tactics (Some terrain))
  = Some [("iap-1", 104%Z)].
Proof. vm_compute. reflexivity. Qed.

End SampleFacts.

(** ** The range of the similarity score *)

Section ScoreRange.
Import Js Types Iap.

Lemma Math_round_bounds (x : Q) (lo hi : Z) :
  inject_Z lo <= x -> x <= inject_Z hi -> (lo <= Math_round x <= hi)%Z.
Proof.
  intros Hlo Hhi. unfold Math_round. split.
  - rewrite <- (Qfloor_Z lo). apply Qfloor_resp_le. lra.
  - apply Z.lt_succ_r. rewrite Zlt_Qlt.
    eapply Qle_lt_trans; [apply Qfloor_le|].
    unfold Z.succ. rewrite inject_Z_plus. change (inject_Z 1) with 1. lra.
Qed.

Lemma sizeRatio_bounds (estimatedAcres iapAcres : Q) :
  0 <= estimatedAcres -> 0 < iapAcres ->
  0 <= Math_min estimatedAcres iapAcres / Math_max estimatedAcres iapAcres <= 1.
Proof.
  intros He Ha. unfold Math_min, Math_max.
  assert (Hmax : 0 < Qmax estimatedAcres iapAcres).
  { eapply Qlt_le_trans; [exact Ha | apply Q.le_max_r]. }
  assert (Hmin : 0 <= Qmin estimatedAcres iapAcres).
  { apply Q.min_glb; lra. }
  assert (Hle : Qmin estimatedAcres iapAcres <= Qmax estimatedAcres iapAcres).
  { eapply Qle_trans; [apply Q.le_min_l | apply Q.le_max_l]. }
  split.
  - apply Qle_shift_div_l; [exact Hmax | lra].
  - apply Qle_shift_div_r; [exact Hmax | lra].
Qed.

Lemma calculateTerrainSimilarity_range t text ts :
  Terrain.calculateTerrainSimilarity t text = Some ts -> 0 <= ts <= 80.
Proof.
  unfold Terrain.calculateTerrainSimilarity.
  destruct (Terrain.aspect t) as [a|]; simpl; [|done].
  intros [= <-].
  repeat match goal with
  | |- context [if ?b then _ else _] => destruct b
  end; split; apply Qle_bool_imp_le; reflexivity.
Qed.

Lemma calculateIAPSimilarity_steps incident weather cardType iap terrain :
  calculateIAPSimilarity incident weather cardType iap terrain =
  score ← terrain_step cardType iap terrain
            (section_step cardType iap
               (scale_step incident iap
                  (weather_step weather iap (fuel_step incident iap 0))));
  Some (Math_round score).
Proof. reflexivity. Qed.

Lemma fuel_step_range incident iap score :
  score <= fuel_step incident iap score <= score + 25.
Proof.
  unfold fuel_step. cbv zeta.
  repeat match goal with |- context [if ?b then _ else _] => destruct b end; lra.
Qed.

Lemma wind_step_range weather w score :
  score <= wind_step weather w score <= score + 15.
Proof.
  unfold wind_step. cbv zeta. destruct (iap_windSpeedMps w); [|lra].
  repeat match goal with |- context [if ?b then _ else _] => destruct b end; lra.
Qed.

Lemma humidity_step_range weather w score :
  score <= humidity_step weather w score <= score + 10.
Proof.
  unfold humidity_step. cbv zeta. destruct (iap_humidityPct w); [|lra].
  repeat match goal with |- context [if ?b then _ else _] => destruct b end; lra.
Qed.

Lemma weather_step_range weather iap score :
  score <= weather_step weather iap score <= score + 25.
Proof.
  unfold weather_step. destruct (Iap.weather (conditions iap)) as [w|]; [|lra].
  pose proof (wind_step_range weather w score).
  pose proof (humidity_step_range weather w (wind_step weather w score)).
  lra.
Qed.

Lemma scale_step_range incident iap score :
  acres_nonneg iap ->
  score <= scale_step incident iap score <= score + 15.
Proof.
  unfold scale_step, acres_nonneg. cbv zeta.
  set (radiusKm := radiusMeters (perimeter incident) / 1000).
  set (est := Math_PI * radiusKm * radiusKm * (247105 # 1000)).
  assert (Hest : 0 <= est).
  { pose proof Math_PI_pos. subst est. nra. }
  clearbody est. intros Ha.
  destruct (acres (conditions iap)) as [a|]; cbn [truthyQ from_option Datatypes.id];
    [|lra].
  destruct (eqb a 0) eqn:Ea; cbn [negb]; [lra|].
  assert (Hpos : 0 < a).
  { apply Qle_lteq in Ha as [Hlt|Heq]; [exact Hlt|].
    symmetry in Heq. apply eqb_eq in Heq. congruence. }
  pose proof (sizeRatio_bounds est a Hest Hpos) as Hratio.
  set (ratio := Math_min est a / Math_max est a) in *. lra.
Qed.

Lemma section_step_range cardType iap score :
  score <= section_step cardType iap score <= score + 25.
Proof.
  unfold section_step.
  repeat match goal with |- context [if ?b then _ else _] => destruct b end; lra.
Qed.

Lemma terrain_step_range cardType iap terrain score score' :
  terrain_step cardType iap terrain score = Some score' ->
  score <= score' <= score + 16.
Proof.
  unfold terrain_step.
  destruct cardType, terrain as [t|]; try (intros [= <-]; lra).
  destruct (truthyS (rawText iap)); [|intros [= <-]; lra].
  destruct (Terrain.calculateTerrainSimilarity t _) as [ts|] eqn:Ets; [|done].
  apply calculateTerrainSimilarity_range in Ets.
  intros [= <-]. unfold Qdiv. change (/ 100) with (1 # 100). lra.
Qed.

(** The score is between 0 and 106, not 100: the maxima of the terms are
    25 + 15 + 10 + 15 + 25 and, for a tactics card with terrain, 20 times
    a terrain similarity of at most 80 percent. *)
Lemma calculateIAPSimilarity_range incident weather cardType iap terrain z :
  acres_nonneg iap ->
  calculateIAPSimilarity incident weather cardType iap terrain = Some z ->
  (0 <= z <= 106)%Z.
Proof.
  intros Ha. rewrite calculateIAPSimilarity_steps.
  pose proof (fuel_step_range incident iap 0) as H1.
  set (s1 := fuel_step incident iap 0) in *.
  pose proof (weather_step_range weather iap s1) as H2.
  set (s2 := weather_step weather iap s1) in *.
  pose proof (scale_step_range incident iap s2 Ha) as H3.
  set (s3 := scale_step incident iap s2) in *.
  pose proof (section_step_range cardType iap s3) as H4.
  set (s4 := section_step cardType iap s3) in *.
  destruct (terrain_step cardType iap terrain s4) as [s5|] eqn:E5; [|done].
  apply terrain_step_range in E5.
  intros [= <-]. apply Math_round_bounds.
  - change (inject_Z 0) with 0. lra.
  - change (inject_Z 106) with 106. lra.
Qed.

End ScoreRange.

(** * Further properties *)

(** ** More on the terrain analyzer *)

Section TerrainMore.
Import Js Terrain.
Context `{MathLib} `{NumberFormat}.

Lemma ltb_ge x y : ltb x y = false <-> y <= x.
Proof.
  unfold ltb. rewrite negb_false_iff. apply Qle_bool_iff.
Qed.

Lemma categorizeSlope_cases (s : Q) :
  (categorizeSlope s = flat <-> s < 5) /\
  (categorizeSlope s = gentle <-> 5 <= s /\ s < 15) /\
  (categorizeSlope s = moderate <-> 15 <= s /\ s < 30) /\
  (categorizeSlope s = steep <-> 30 <= s /\ s < 50) /\
  (categorizeSlope s = extreme <-> 50 <= s).
Proof.
  unfold categorizeSlope.
  destruct (ltb s 5) eqn:E5; [apply ltb_lt in E5 | apply ltb_ge in E5];
  [|destruct (ltb s 15) eqn:E15; [apply ltb_lt in E15 | apply ltb_ge in E15];
    [|destruct (ltb s 30) eqn:E30; [apply ltb_lt in E30 | apply ltb_ge in E30];
      [|destruct (ltb s 50) eqn:E50; [apply ltb_lt in E50 | apply ltb_ge in E50]]]];
  repeat split; intros; try discriminate; try lra;
  repeat match goal with H : _ /\ _ |- _ => destruct H end; try lra.
Qed.

(** X1.  [categorizeSlope] is monotone: a steeper slope never gets a
    gentler terrain type, in the order flat, gentle, moderate, steep,
    extreme. *)
Theorem categorizeSlope_monotone (s t : Q) :
  s <= t -> (steepness (categorizeSlope s) <= steepness (categorizeSlope t))%nat.
Proof.
  intros Hst.
  pose proof (categorizeSlope_cases s) as (Hf & Hg & Hm & Hs & Hx).
  pose proof (categorizeSlope_cases t) as (Hf' & Hg' & Hm' & Hs' & Hx').
  destruct (categorizeSlope s) eqn:Es, (categorizeSlope t) eqn:Et;
    cbn [steepness]; try lia; exfalso;
    repeat match goal with
    | H : ?x = ?x <-> _ |- _ => pose proof (proj1 H eq_refl); clear H
    | H : _ <-> _ |- _ => clear H
    end;
    repeat match goal with H : _ /\ _ |- _ => destruct H end; lra.
Qed.

Lemma Math_round_lower (x : Q) (z : Z) :
  inject_Z z <= x + (1 # 2) -> (z <= Math_round x)%Z.
Proof.
  intros Hz. unfold Math_round. rewrite <- (Qfloor_Z z). by apply Qfloor_resp_le.
Qed.

Lemma Math_round_upper (x : Q) (z : Z) :
  x + (1 # 2) < inject_Z z -> (Math_round x < z)%Z.
Proof.
  intros Hz. unfold Math_round. rewrite Zlt_Qlt.
  eapply Qle_lt_trans; [apply Qfloor_le | exact Hz].
Qed.


Lemma compass_lookup (i : Z) :
  (0 <= i < 8)%Z -> exists c, compass !! Z.to_nat i = Some c /\ c ∈ compass.
Proof.
  intros Hi.
  assert (Hn : (Z.to_nat i < 8)%nat) by lia.
  destruct (lookup_lt_is_Some_2 compass (Z.to_nat i) Hn) as [c Hc].
  exists c. split; [exact Hc|]. by eapply list_elem_of_lookup_2.
Qed.

Lemma degreesToCardinal_nonneg (d : Q) :
  0 <= d -> exists c, degreesToCardinal d = Some c /\ c ∈ compass.
Proof.
  intros Hd. unfold degreesToCardinal.
  assert (Hr : (0 <= Math_round (d / 45))%Z).
  { apply Math_round_lower. change (inject_Z 0) with 0.
    assert (0 <= d / 45) by (apply Qle_shift_div_l; lra). lra. }
  pose proof (Z.rem_nonneg (Math_round (d / 45)) 8 ltac:(lia) Hr) as Hge0.
  pose proof (Z.rem_bound_pos (Math_round (d / 45)) 8 Hr ltac:(lia)) as H8.
  destruct (Z.ltb_spec (Z.rem (Math_round (d / 45)) 8) 0) as [Hlt|_]; [lia|].
  apply compass_lookup. lia.
Qed.

Lemma degreesToCardinal_negative (d : Q) :
  - (675 # 2) <= d -> d < - (45 # 2) -> degreesToCardinal d = None.
Proof.
  intros Hlo Hhi. unfold degreesToCardinal.
  assert (Hq : - (15 # 2) <= d / 45 /\ d / 45 < - (1 # 2)).
  { split; [apply Qle_shift_div_l | apply Qlt_shift_div_r]; lra. }
  assert (Hr : (-7 <= Math_round (d / 45) < 0)%Z).
  { split; [apply Math_round_lower | apply Math_round_upper].
    - change (inject_Z (-7)) with (-7). lra.
    - change (inject_Z 0) with 0. lra. }
  assert (Hrem : Z.rem (Math_round (d / 45)) 8 = Math_round (d / 45)).
  { rewrite <- (Z.opp_involutive (Math_round (d / 45))) at 1.
    rewrite Z.rem_opp_l by lia. rewrite Z.rem_small by lia. lia. }
  rewrite Hrem. destruct (Z.ltb_spec (Math_round (d / 45)) 0); [done|lia].
Qed.

(** X2.  [degreesToCardinal] gives one of the eight compass points for
    every bearing from 0 upwards (360 wraps to N), and [undefined] for
    the bearings in [-337.5, -22.5), where the array index is negative. *)
Theorem degreesToCardinal_domain (d : Q) :
  (0 <= d -> exists c, degreesToCardinal d = Some c /\ c ∈ compass) /\
  (- (675 # 2) <= d -> d < - (45 # 2) -> degreesToCardinal d = None).
Proof.
  split; [apply degreesToCardinal_nonneg | apply degreesToCardinal_negative].
Qed.

(** The remainder of a non-negative number by a positive one. *)
Lemma rem_nonneg_range (a b : Q) :
  0 <= a -> 0 < b -> 0 <= rem a b /\ rem a b < b.
Proof.
  intros Ha Hb. unfold rem.
  assert (Hq : 0 <= a / b) by (apply Qle_shift_div_l; lra).
  assert (Ht : trunc (a / b) = Qfloor (a / b)).
  { unfold trunc, Qfloor. destruct (a / b) as [n d]. simpl.
    unfold Qle in Hq. simpl in Hq. apply Z.quot_div_nonneg; lia. }
  rewrite Ht.
  pose proof (Qfloor_le (a / b)) as Hlo.
  pose proof (Qlt_floor (a / b)) as Hhi.
  rewrite inject_Z_plus in Hhi. change (inject_Z 1) with 1 in Hhi.
  set (k := inject_Z (Qfloor (a / b))) in *.
  assert (Hab : a == b * (a / b)) by (field; lra).
  split; nra.
Qed.

(** X3.  When [Math.atan2] returns an angle between -pi and pi for the
    gradient, the aspect [calculateAspect] reports is either the sentinel
    "flat" with 0 degrees or a bearing in [0, 360) with its compass
    point: the direction is never [undefined]. *)
Theorem calculateAspect_range centerElev northElev southElev eastElev westElev cellSize :
  let dz_dx := (eastElev - westElev) / (2 * cellSize) in
  let dz_dy := (northElev - southElev) / (2 * cellSize) in
  - Math_PI <= Math_atan2 dz_dy (- dz_dx) <= Math_PI ->
  let a := calculateAspect centerElev northElev southElev eastElev westElev cellSize in
  0 <= degrees a /\ degrees a < 360 /\
  (direction a = Some "flat" \/ exists c, direction a = Some c /\ c ∈ compass).
Proof.
  intros dz_dx dz_dy Hatan. unfold calculateAspect. fold dz_dx dz_dy.
  destruct (ltb _ (1 # 100)); cbn [degrees direction].
  - split; [lra|]. split; [reflexivity|]. by left.
  - set (rad := Math_atan2 dz_dy (- dz_dx)) in *.
    assert (Hdeg : -180 <= rad * 180 / Math_PI /\ rad * 180 / Math_PI <= 180).
    { pose proof Math_PI_pos.
      split; [apply Qle_shift_div_l | apply Qle_shift_div_r]; lra. }
    destruct (rem_nonneg_range (90 - rad * 180 / Math_PI + 360) 360) as [Hlo Hhi];
      [lra | reflexivity |].
    split; [exact Hlo|]. split; [exact Hhi|].
    right. by apply degreesToCardinal_nonneg.
Qed.

(** X4.  Under the same condition on [Math.atan2], [calculateBearing]
    returns a bearing in [0, 360). *)
Theorem calculateBearing_range lat1 lon1 lat2 lon2 :
  let dLon := toRad (lon2 - lon1) in
  let y := Math_sin dLon * Math_cos (toRad lat2) in
  let x := Math_cos (toRad lat1) * Math_sin (toRad lat2) -
           Math_sin (toRad lat1) * Math_cos (toRad lat2) * Math_cos dLon in
  - Math_PI <= Math_atan2 y x <= Math_PI ->
  0 <= calculateBearing lat1 lon1 lat2 lon2 /\
  calculateBearing lat1 lon1 lat2 lon2 < 360.
Proof.
  intros dLon y x Hatan. unfold calculateBearing. fold dLon y x.
  set (rad := Math_atan2 y x) in *. unfold toDeg.
  assert (Hdeg : -180 <= rad * 180 / Math_PI).
  { pose proof Math_PI_pos. apply Qle_shift_div_l; lra. }
  apply rem_nonneg_range; [lra | reflexivity].
Qed.




Lemma notes_with_notes m n : notes (with_notes m n) = n.
Proof. reflexivity. Qed.

(** The mock metrics, by the draws the call makes. *)
Lemma getTerrainMetrics_cases lat lon s :
  let m := fst (getTerrainMetrics lat lon s) in
  let r0 := draws s (pos s) in
  let r1 := draws s (S (pos s)) in
  let r2 := draws s (S (S (pos s))) in
  let r3 := draws s (S (S (S (pos s)))) in
  elevation m = 200 + Math_abs (lat - 37) * 100 /\
  slope m = 10 + r0 * 20 /\
  terrainType m = categorizeSlope (slope m) /\
  aspect m = degreesToCardinal (rem (lon * 10) 360) /\
  nearbyRidgeline m = gtb (slope m) 20 && gtb r1 (6 # 10) /\
  ridgelineDistKm m =
    (if nearbyRidgeline m then Some ((5 # 10) + r2 * (15 # 10)) else None) /\
  ridgelineDirection m =
    (if nearbyRidgeline m then degreesToCardinal (r3 * 360) else None).
Proof.
  cbv [getTerrainMetrics bind ret Math_random]. cbv zeta.
  destruct (gtb (10 + draws s (pos s) * 20) 20) eqn:E1; cbn [draws pos fst snd].
  - destruct (gtb (draws s (S (pos s))) (6 # 10)) eqn:E2;
      cbn [fst with_notes elevation slope terrainType aspect nearbyRidgeline
           ridgelineDistKm ridgelineDirection];
      rewrite E1; repeat split.
  - cbn [fst with_notes elevation slope terrainType aspect nearbyRidgeline
         ridgelineDistKm ridgelineDirection].
    rewrite E1. repeat split.
Qed.

(** X8.  With [Math.random()] in [0, 1), the mock [getTerrainMetrics]
    returns an elevation of at least 200 m, a slope in [10, 30) percent
    and the terrain type of that slope, gentle or moderate; a ridgeline
    is reported only on slopes above 20 percent, with a distance in
    [0.5, 2) km and a compass direction, and without one both fields are
    absent. *)
Theorem getTerrainMetrics_mock_ranges lat lon s :
  unit_draws s ->
  let m := fst (getTerrainMetrics lat lon s) in
  200 <= elevation m /\
  10 <= slope m /\ slope m < 30 /\
  terrainType m = categorizeSlope (slope m) /\
  (terrainType m = gentle \/ terrainType m = moderate) /\
  (nearbyRidgeline m = true ->
     20 < slope m /\
     (exists d, ridgelineDistKm m = Some d /\ 1 # 2 <= d /\ d < 2) /\
     (exists c, ridgelineDirection m = Some c /\ c ∈ compass)) /\
  (nearbyRidgeline m = false ->
     ridgelineDistKm m = None /\ ridgelineDirection m = None).
Proof.
  intros Hu. cbv zeta.
  destruct (getTerrainMetrics_cases lat lon s)
    as (He & Hs & Ht & _ & Hr & Hd & Hdir).
  cbv zeta in *.
  set (m := fst (getTerrainMetrics lat lon s)) in *.
  destruct (Hu (pos s)) as [H00 H01].
  destruct (Hu (S (S (pos s)))) as [H20 H21].
  destruct (Hu (S (S (S (pos s))))) as [H30 H31].
  assert (Hslope : 10 <= slope m /\ slope m < 30) by (rewrite Hs; lra).
  split. { rewrite He. pose proof (Qabs_nonneg (lat - 37)). unfold Math_abs. nra. }
  split; [lra|]. split; [lra|]. split; [exact Ht|]. split.
  { rewrite Ht. unfold categorizeSlope.
    destruct (ltb (slope m) 5) eqn:E5; [apply ltb_lt in E5; lra|].
    destruct (ltb (slope m) 15); [by left|].
    destruct (ltb (slope m) 30) eqn:E30; [by right|].
    apply ltb_ge in E30. lra. }
  split.
  - intros Hridge. rewrite Hridge in *.
    symmetry in Hr. apply andb_true_iff in Hr as [Hgt _]. apply gtb_lt in Hgt.
    split; [exact Hgt|]. split.
    + eexists. split; [exact Hd|]. split; lra.
    + rewrite Hdir. apply degreesToCardinal_nonneg. lra.
  - intros Hridge. rewrite Hridge in *. by split.
Qed.

(** X9.  On such mock metrics [assessTerrainTacticalValue] never reports
    a slope hazard: the hazards are empty, or the single hazard of a
    south-facing aspect. *)
Theorem assessTerrainTacticalValue_mock lat lon s :
  unit_draws s ->
  let m := fst (getTerrainMetrics lat lon s) in
  hazards (assessTerrainTacticalValue m) = [] \/
  exists a, aspect m = Some a /\ a ∈ ["S"; "SW"; "SE"] /\
    hazards (assessTerrainTacticalValue m) =
      [a +:+ "-facing slope - drier fuels increase fire intensity"].
Proof.
  intros Hu. cbv zeta.
  destruct (getTerrainMetrics_cases lat lon s) as (_ & Hs & _).
  cbv zeta in Hs.
  set (m := fst (getTerrainMetrics lat lon s)) in *.
  destruct (Hu (pos s)) as [H00 H01].
  unfold assessTerrainTacticalValue. cbv zeta. cbn [hazards].
  assert (H30 : gtb (slope m) 30 = false).
  { apply ltb_ge. rewrite Hs. lra. }
  assert (H40 : gtb (slope m) 40 = false).
  { apply ltb_ge. rewrite Hs. lra. }
  rewrite H30, H40.
  unfold is_sunny. destruct (aspect m) as [a|]; [|by left].
  destruct (bool_decide_reflect (a ∈ ["S"; "SW"; "SE"])) as [Ha|_]; [|by left].
  right. exists a. by repeat split.
Qed.


Lemma assess_hazards (m : TerrainMetrics) :
  hazards (assessTerrainTacticalValue m) =
    (if gtb (slope m) 30
     then ["Steep uphill slopes - rapid fire spread if fire runs uphill";
           "Difficult dozer access on steep terrain"] else []) ++
    (if gtb (slope m) 40
     then ["Extreme slopes - hand crew safety concern, maintain escape routes"]
     else []) ++
    (if is_sunny (aspect m)
     then [template (aspect m) +:+
           "-facing slope - drier fuels increase fire intensity"] else []).
Proof.
  unfold assessTerrainTacticalValue. cbv zeta. cbn [hazards].
  destruct (gtb (slope m) 30), (gtb (slope m) 40), (is_sunny (aspect m));
    reflexivity.
Qed.

Lemma assess_advantages (m : TerrainMetrics) :
  advantages (assessTerrainTacticalValue m) =
    (if nearbyRidgeline m && truthyQ (ridgelineDistKm m) &&
        ltb (default 0 (ridgelineDistKm m)) (15 # 10)
     then ["Ridgeline " +:+ toFixed (default 0 (ridgelineDistKm m)) 1 +:+
           "km away - natural anchor for control line"] else []) ++
    (match terrainType m with
     | flat | gentle =>
         ["Flat to gentle terrain - good dozer access and crew mobility"]
     | _ => []
     end).
Proof.
  unfold assessTerrainTacticalValue. cbv zeta. cbn [advantages].
  destruct (_ && _ && _), (terrainType m); reflexivity.
Qed.

Lemma sunny_hazard_not (a : option string) (c : string) :
  c ∈ ["Steep uphill slopes - rapid fire spread if fire runs uphill";
       "Difficult dozer access on steep terrain";
       "Extreme slopes - hand crew safety concern, maintain escape routes"] ->
  c ∉ (if is_sunny a
       then [template a +:+ "-facing slope - drier fuels increase fire intensity"]
       else []).
Proof.
  intros Hc. destruct a as [d|]; simpl; [|apply not_elem_of_nil].
  destruct (bool_decide_reflect (d ∈ ["S"; "SW"; "SE"])) as [Hd|_];
    [|apply not_elem_of_nil].
  intros Hin. apply list_elem_of_singleton in Hin. subst c.
  repeat (apply elem_of_cons in Hd as [->|Hd]); try by apply elem_of_nil in Hd.
  all: repeat (apply elem_of_cons in Hc as [Hc|Hc]); try discriminate Hc;
    by apply elem_of_nil in Hc.
Qed.

(** X10.  For metrics whose terrain type is the category of their slope,
    [assessTerrainTacticalValue] gives the flat-to-gentle advantage
    exactly below 15 percent, the two steep-slope hazards exactly above
    30 percent and the extreme-slope hazard exactly above 40 percent, so
    that the advantage and the slope hazards never come together; there
    are at most two advantages and four hazards. *)
Theorem assessTerrainTacticalValue_slope (m : TerrainMetrics) :
  terrainType m = categorizeSlope (slope m) ->
  let v := assessTerrainTacticalValue m in
  ("Flat to gentle terrain - good dozer access and crew mobility" ∈ advantages v
     <-> slope m < 15) /\
  ("Steep uphill slopes - rapid fire spread if fire runs uphill" ∈ hazards v
     <-> 30 < slope m) /\
  ("Difficult dozer access on steep terrain" ∈ hazards v <-> 30 < slope m) /\
  ("Extreme slopes - hand crew safety concern, maintain escape routes" ∈ hazards v
     <-> 40 < slope m) /\
  (length (advantages v) <= 2)%nat /\ (length (hazards v) <= 4)%nat.
Proof.
  intros Ht. cbv zeta. rewrite assess_hazards, assess_advantages, Ht.
  pose proof (categorizeSlope_cases (slope m)) as (Hf & Hg & Hm & Hst & Hx).
  split; [|split; [|split; [|split; [|split]]]].
  - rewrite elem_of_app. split.
    + intros [Hin|Hin].
      * destruct (_ && _ && _); [|by apply elem_of_nil in Hin].
        apply list_elem_of_singleton in Hin. discriminate Hin.
      * destruct (categorizeSlope (slope m)) eqn:Ec;
          try (by apply elem_of_nil in Hin).
        -- pose proof (proj1 Hf eq_refl). lra.
        -- pose proof (proj1 Hg eq_refl). lra.
    + intros Hs. right.
      destruct (categorizeSlope (slope m)) eqn:Ec;
        try (apply list_elem_of_singleton; reflexivity).
      * pose proof (proj1 Hm eq_refl). lra.
      * pose proof (proj1 Hst eq_refl). lra.
      * pose proof (proj1 Hx eq_refl). lra.
  - rewrite !elem_of_app. split.
    + intros [Hin|[Hin|Hin]].
      * destruct (gtb (slope m) 30) eqn:E; [apply gtb_lt; exact E|].
        by apply elem_of_nil in Hin.
      * destruct (gtb (slope m) 40); [|by apply elem_of_nil in Hin].
        apply list_elem_of_singleton in Hin. discriminate Hin.
      * exfalso. revert Hin. apply sunny_hazard_not. in_list.
    + intros Hs. left. apply gtb_lt in Hs. rewrite Hs. in_list.
  - rewrite !elem_of_app. split.
    + intros [Hin|[Hin|Hin]].
      * destruct (gtb (slope m) 30) eqn:E; [apply gtb_lt; exact E|].
        by apply elem_of_nil in Hin.
      * destruct (gtb (slope m) 40); [|by apply elem_of_nil in Hin].
        apply list_elem_of_singleton in Hin. discriminate Hin.
      * exfalso. revert Hin. apply sunny_hazard_not. in_list.
    + intros Hs. left. apply gtb_lt in Hs. rewrite Hs. in_list.
  - rewrite !elem_of_app. split.
    + intros [Hin|[Hin|Hin]].
      * destruct (gtb (slope m) 30); [|by apply elem_of_nil in Hin].
        repeat (apply elem_of_cons in Hin as [Hin|Hin]); try discriminate Hin.
        by apply elem_of_nil in Hin.
      * destruct (gtb (slope m) 40) eqn:E; [apply gtb_lt; exact E|].
        by apply elem_of_nil in Hin.
      * exfalso. revert Hin. apply sunny_hazard_not. in_list.
    + intros Hs. right. left. apply gtb_lt in Hs. rewrite Hs. in_list.
  - rewrite length_app.
    destruct (_ && _ && _), (categorizeSlope (slope m)); simpl; lia.
  - rewrite !length_app.
    destruct (gtb (slope m) 30), (gtb (slope m) 40), (is_sunny (aspect m));
      simpl; lia.
Qed.

End TerrainMore.

(** ** More on the perimeter processor *)

Section PerimeterMore.
Import Js Perimeter.
Context `{MathLib} `{NumberFormat} `{Turf} `{DateLib}.


Lemma maxDistInDir_nonneg centroid coords dirBearing :
  0 <= maxDistInDir centroid coords dirBearing.
Proof.
  unfold maxDistInDir.
  assert (Hgen : forall acc, 0 <= acc ->
    0 <= foldl (fun maxDistInDir coord =>
      if leb (Math_min (Math_min
               (Math_abs (rem (turf_bearing centroid coord + 360) 360 - dirBearing))
               (Math_abs (rem (turf_bearing centroid coord + 360) 360 - dirBearing + 360)))
               (Math_abs (rem (turf_bearing centroid coord + 360) 360 - dirBearing - 360)))
             (225 # 10)
      then Math_max maxDistInDir (turf_distance centroid coord)
      else maxDistInDir) acc coords).
  { induction coords as [|c coords IH]; intros acc Hacc; simpl; [exact Hacc|].
    apply IH. destruct (leb _ _); [|exact Hacc].
    eapply Qle_trans; [exact Hacc | apply Q.le_max_l]. }
  apply Hgen. apply Qle_refl.
Qed.



Lemma scan_inv_step g pre st ds :
  scan_inv g pre st -> scan_inv g (pre ++ ds) (scan g st ds).
Proof.
  revert pre st. induction ds as [|d ds IH]; intros pre [[exts mx] dom] Hinv.
  - by rewrite app_nil_r.
  - replace (pre ++ d :: ds) with ((pre ++ [d]) ++ ds) by by rewrite <- app_assoc.
    unfold scan. cbn [foldl]. apply IH.
    destruct Hinv as (Hext & Hle & Hdom).
    destruct (gtb (g d) mx) eqn:E; [apply gtb_lt in E | apply ltb_ge in E];
      cbn [scan_inv].
    + split; [by rewrite fmap_app, Hext|]. split.
      * apply Forall_app. split; [|repeat constructor; apply Qle_refl].
        eapply Forall_impl; [exact Hle|]. intros e He. simpl in He. lra.
      * right. exists (length pre). split; [by apply list_lookup_middle|].
        split; [reflexivity|]. split.
        { destruct Hdom as [[-> _]|(i & _ & _ & Hpos & _)]; lra. }
        intros j e Hj Hje.
        rewrite lookup_app_l in Hje by (rewrite Hext, length_fmap; lia).
        eapply Forall_lookup_1 in Hle; [|exact Hje]. simpl in Hle. lra.
    + split; [by rewrite fmap_app, Hext|]. split.
      * apply Forall_app. split; [exact Hle|]. by repeat constructor.
      * destruct Hdom as [Hz|(i & Hi & Hg & Hpos & Hbefore)]; [by left|].
        right. exists i. split; [by apply lookup_app_l_Some|].
        split; [exact Hg|]. split; [exact Hpos|].
        intros j e Hj Hje. apply (Hbefore j e Hj).
        rewrite lookup_app_l in Hje; [exact Hje|].
        apply lookup_lt_Some in Hi. rewrite Hext, length_fmap. lia.
Qed.

(** X11.  [calculateDirectionalExtent] throws exactly when the polygon
    has no ring.  Otherwise the eight extents are not negative, and the
    dominant direction is one of the eight bearings whose extent is the
    greatest of the eight, the earliest such in the order N, NE, E, SE, S,
    SW, W, NW (N when all extents are 0). *)
Theorem calculateDirectionalExtent_dominant polygon centroid :
  (polygon = [] <-> calculateDirectionalExtent polygon centroid = Throw) /\
  forall d, calculateDirectionalExtent polygon centroid = Normal d ->
    Forall (fun e => 0 <= e) (extent_list d) /\
    exists i top,
      directions !! i = Some (dominantDirection d) /\
      extent_list d !! i = Some top /\
      Forall (fun e => e <= top) (extent_list d) /\
      forall j e, (j < i)%nat -> extent_list d !! j = Some e -> e < top.
Proof.
  unfold calculateDirectionalExtent.
  destruct polygon as [|coords polygon]; cbn [lookup list_lookup of_option cbind].
  { split; [done|]. intros d; discriminate. }
  split; [split; [discriminate|]|].
  { destruct (foldl _ _ _) as [[e m] dd]. discriminate. }
  set (g := maxDistInDir centroid coords).
  pose proof (scan_inv_step g [] ([], 0, 0) directions) as Hinv.
  unfold scan in Hinv. cbn [app] in Hinv.
  destruct (foldl _ ([], 0, 0) directions) as [[exts mx] dom] eqn:Efold.
  specialize (Hinv ltac:(cbn; split; [done|]; split; [constructor|]; by left)).
  destruct Hinv as (Hext & Hle & Hdom).
  intros d [= <-]. unfold extent_list. cbn [ext_N ext_NE ext_E ext_SE ext_S ext_SW ext_W ext_NW dominantDirection].
  assert (Hexts : exts = [g 0; g 45; g 90; g 135; g 180; g 225; g 270; g 315])
    by exact Hext.
  rewrite Hexts in *. cbn [lookup list_lookup default from_option Datatypes.id].
  assert (Hnn : Forall (fun e => 0 <= e)
            [g 0; g 45; g 90; g 135; g 180; g 225; g 270; g 315]).
  { repeat constructor; apply maxDistInDir_nonneg. }
  split; [exact Hnn|].
  destruct Hdom as [[-> ->]|(i & Hi & Hg & Hpos & Hbefore)].
  - exists 0%nat, (g 0). split; [reflexivity|]. split; [reflexivity|]. split.
    + assert (Hg0 : 0 <= g 0) by apply maxDistInDir_nonneg.
      eapply Forall_impl; [exact Hle|]. intros e He. simpl in He. lra.
    + intros j e Hj. lia.
  - exists i, mx. split; [exact Hi|]. split.
    + rewrite <- Hg. change [g 0; g 45; g 90; g 135; g 180; g 225; g 270; g 315]
        with (g <$> directions). by rewrite list_lookup_fmap, Hi.
    + split; [exact Hle | exact Hbefore].
Qed.







Lemma lacks_core_rejected feature : lacks_core feature = true -> rejected feature = true.
Proof.
  intros Hl. unfold rejected, processFirePerimeter, processFirePerimeter_try, incomplete.
  unfold lacks_core in Hl. by rewrite Hl.
Qed.

Lemma processAll_fold features p f s :
  foldl processAll_step (p, f, s) features =
  (p ++ omap processFirePerimeter features,
   (f + length (List.filter (fun x => rejected x && negb (lacks_core x)) features))%nat,
   (s + length (List.filter lacks_core features))%nat).
Proof.
  revert p f s. induction features as [|x features IH]; intros p f s; cbn [foldl].
  - cbn. by rewrite app_nil_r, !Nat.add_0_r.
  - unfold processAll_step at 2. cbn [omap list_omap List.filter].
    pose proof (lacks_core_rejected x) as Hlr.
    unfold rejected in *. fold (lacks_core x).
    destruct (processFirePerimeter x) as [r|].
    + destruct (lacks_core x); [by specialize (Hlr eq_refl)|].
      rewrite IH. cbn [andb]. by rewrite <- app_assoc.
    + destruct (lacks_core x); rewrite IH; cbn [andb negb length];
        by rewrite ?Nat.add_succ_r.
Qed.

(** X14.  The batch returns the accepted records in the order of the
    input, and sorts the rejected ones in two: "skipped" counts the
    records without a name, an alarm date or a containment date (all of
    them are rejected), "failed" every other rejected record. *)
Theorem processAllPerimeters_buckets (features : list RawFireFeature) :
  let r := processAllPerimeters features in
  processed r = omap processFirePerimeter features /\
  skipped (stats r) = length (List.filter lacks_core features) /\
  failed (stats r) =
    length (List.filter (fun x => rejected x && negb (lacks_core x)) features) /\
  Forall (fun x => rejected x = true) (List.filter lacks_core features).
Proof.
  unfold processAllPerimeters. rewrite processAll_fold. cbn.
  repeat split.
  apply Forall_forall. intros x Hx. apply list_elem_of_In, filter_In in Hx.
  apply lacks_core_rejected, Hx.
Qed.


End PerimeterMore.

(** ** More on the spread index and predictor *)

Section SpreadMore.
Import Js Types Spread.
Context `{MathLib} `{NumberFormat}.



Lemma bucket_snoc `{Countable K} (key : DirectionalSpread -> K)
    (m : gmap K (list DirectionalSpread)) all x :
  (forall k, m !! k = bucket key k all) ->
  forall k, push_at (key x) x m !! k = bucket key k (all ++ [x]).
Proof.
  intros Hm k. unfold push_at, bucket. rewrite filter_app.
  destruct (decide (key x = k)) as [Heq|Hne].
  - subst k. rewrite lookup_insert_eq, Hm. unfold bucket.
    rewrite filter_cons, filter_nil.
    destruct (decide (key x = key x)) as [_|]; [|done].
    destruct (filter _ all) as [|f fs]; reflexivity.
  - rewrite lookup_insert_ne by done. rewrite Hm. unfold bucket.
    rewrite filter_cons, filter_nil.
    destruct (decide (key x = k)) as [|_]; [done|]. by rewrite app_nil_r.
Qed.


Lemma buildSpreadIndex_from (features : list GeoJSONFeature) (index : SpreadIndex) :
  (forall k, byName index !! k = bucket nameKey k (all index)) ->
  (forall k, byLocation index !! k = bucket cellKey k (all index)) ->
  (forall k, byYear index !! k = bucket year k (all index)) ->
  let index' := foldl (fun index feature =>
    match analyzeFeatureSpread feature with
    | Some spread =>
        {| all := all index ++ [spread];
           byName := push_at (toUpperCase (fireName spread)) spread (byName index);
           byLocation :=
             push_at (getGridKey (centerLat (bounds spread))
                        (centerLon (bounds spread))) spread (byLocation index);
           byYear := push_at (year spread) spread (byYear index) |}
    | None => index
    end) index features in
  all index' = all index ++ omap analyzeFeatureSpread features /\
  (forall k, byName index' !! k = bucket nameKey k (all index')) /\
  (forall k, byLocation index' !! k = bucket cellKey k (all index')) /\
  (forall k, byYear index' !! k = bucket year k (all index')).
Proof.
  revert index.
  induction features as [|feature features IH]; intros index Hn Hl Hy; cbn [foldl].
  - csimpl. by rewrite app_nil_r.
  - csimpl. destruct (analyzeFeatureSpread feature) as [spread|].
    + edestruct (IH {| all := all index ++ [spread];
           byName := push_at (toUpperCase (fireName spread)) spread (byName index);
           byLocation :=
             push_at (getGridKey (centerLat (bounds spread))
                        (centerLon (bounds spread))) spread (byLocation index);
           byYear := push_at (year spread) spread (byYear index) |})
        as (Ha & Hn' & Hl' & Hy'); cbn [all byName byLocation byYear].
      * by apply (bucket_snoc nameKey).
      * by apply (bucket_snoc cellKey).
      * by apply (bucket_snoc year).
      * cbn [all] in Ha. rewrite <- app_assoc in Ha. by repeat split.
    + by apply IH.
Qed.

Lemma buildSpreadIndex_cells (features : list GeoJSONFeature) :
  let index := buildSpreadIndex features in
  all index = omap analyzeFeatureSpread features /\
  (forall k, byLocation index !! k = bucket cellKey k (all index)).
Proof.
  unfold buildSpreadIndex.
  destruct (buildSpreadIndex_from features emptyIndex) as (Ha & _ & Hl & _);
    try (intros k; cbn; apply lookup_empty).
  split; [exact Ha | exact Hl].
Qed.

Lemma bucket_elem_of `{EqDecision K} (key : DirectionalSpread -> K) k all' fires fire :
  bucket key k all' = Some fires -> fire ∈ fires <-> fire ∈ all' /\ key fire = k.
Proof.
  unfold bucket. intros Hb.
  assert (fires = filter (fun fire => key fire = k) all') as ->.
  { destruct (filter _ all'); [discriminate|]. by injection Hb. }
  rewrite list_elem_of_filter. tauto.
Qed.

(** X16.  The index [buildSpreadIndex] builds holds, in [all], the
    analyses of the features that have coordinates, in the order of the
    features, and under every name, grid cell and year exactly the fires
    of [all] with that upper-cased name, cell and year, in the same
    order; no bucket is empty. *)
Theorem buildSpreadIndex_buckets (features : list GeoJSONFeature) :
  let index := buildSpreadIndex features in
  all index = omap analyzeFeatureSpread features /\
  (forall k, byName index !! k = bucket nameKey k (all index)) /\
  (forall k, byLocation index !! k = bucket cellKey k (all index)) /\
  (forall k, byYear index !! k = bucket year k (all index)).
Proof.
  unfold buildSpreadIndex.
  destruct (buildSpreadIndex_from features emptyIndex) as (Ha & Hn & Hl & Hy).
  - intros k. cbn. apply lookup_empty.
  - intros k. cbn. apply lookup_empty.
  - intros k. cbn. apply lookup_empty.
  - split; [exact Ha|]. split; [exact Hn|]. split; [exact Hl | exact Hy].
Qed.




Lemma dominant_compass (n s e w : Q) : dominant n s e w ∈ compass8.
Proof.
  unfold dominant. cbv zeta.
  set (mx := Math_max_of n [s; e; w]).
  assert (Hmx : mx <= n \/ mx <= s \/ mx <= e \/ mx <= w).
  { subst mx. unfold Math_max_of, Math_max. cbn [foldl].
    destruct (Q.max_spec n s) as [[_ H1]|[_ H1]];
    destruct (Q.max_spec (Qmax n s) e) as [[_ H2]|[_ H2]];
    destruct (Q.max_spec (Qmax (Qmax n s) e) w) as [[_ H3]|[_ H3]];
    rewrite H3, ?H2, ?H1; auto using Qle_refl. }
  unfold compass8.
  repeat match goal with
  | |- context [if ?b then _ else _] => destruct b eqn:?
  end; try (repeat first [apply list_elem_of_here | apply list_elem_of_further]).
  exfalso.
  repeat match goal with
  | E : geb _ _ = false |- _ =>
      unfold geb in E; apply not_true_iff_false in E; rewrite leb_le in E
  end.
  destruct Hmx as [?|[?|[?|?]]]; contradiction.
Qed.

Lemma compass8_known (d : string) : d ∈ compass8 -> d <> "UNIFORM" /\ d <> "UNKNOWN".
Proof.
  intros Hin. unfold compass8 in Hin.
  repeat (apply elem_of_cons in Hin as [->|Hin]; [split; discriminate|]).
  by apply elem_of_nil in Hin.
Qed.

(** X17.  The dominant direction of four extents is always one of the
    eight compass points: the value "UNIFORM" the code starts from is
    never returned, since one of the four extents is their maximum. *)
Theorem dominant_never_uniform (n s e w : Q) :
  dominant n s e w ∈ compass8 /\ dominant n s e w <> "UNIFORM".
Proof.
  split; [apply dominant_compass|].
  apply (compass8_known _ (dominant_compass n s e w)).
Qed.


(** *** The radius search over a built index *)

Lemma sort_insert_Permutation {A} (cmp : A -> A -> Q) x l :
  sort_insert cmp x l ≡ₚ x :: l.
Proof.
  induction l as [|y l IH]; cbn [sort_insert]; [done|].
  destruct (leb (cmp x y) 0); [done|]. rewrite IH. apply Permutation_swap.
Qed.

Lemma sort_Permutation {A} (cmp : A -> A -> Q) l : sort cmp l ≡ₚ l.
Proof.
  induction l as [|x l IH]; cbn [sort foldr]; [done|].
  rewrite sort_insert_Permutation. by constructor.
Qed.

Lemma slice0_all {A} (l : list A) (e : Z) :
  (Z.of_nat (length l) <= e)%Z -> slice0 l e = l.
Proof.
  intros He. unfold slice0. destruct (Z.ltb_spec e 0); [lia|].
  apply take_ge. lia.
Qed.

Lemma slice0_elem_of {A} (l : list A) (e : Z) x : x ∈ slice0 l e -> x ∈ l.
Proof. destruct (slice0_take l e) as [n ->]. apply subseteq_take. Qed.

Lemma set_add_spec keys k key : key ∈ set_add keys k <-> key ∈ keys \/ key = k.
Proof.
  unfold set_add. case_bool_decide as Hk.
  - split; [auto|]. intros [?| ->]; done.
  - rewrite elem_of_app, list_elem_of_singleton. tauto.
Qed.

Lemma set_add_NoDup keys k : NoDup keys -> NoDup (set_add keys k).
Proof.
  intros Hk. unfold set_add. case_bool_decide as Hin; [done|].
  apply NoDup_app. split; [done|]. split; [|apply NoDup_singleton].
  intros x Hx ->%list_elem_of_singleton. done.
Qed.

Lemma gridKeys_NoDup lat lon cellRadius : NoDup (gridKeys lat lon cellRadius).
Proof.
  unfold gridKeys. cbv zeta.
  generalize (seqZ (- cellRadius) (2 * cellRadius + 1)). intros range.
  assert (Hgen : forall (inner outer : list Z) (keys : list string), NoDup keys ->
    NoDup (foldl (fun keys dLat =>
      foldl (fun keys dLon =>
        set_add keys
          (getGridKey
             (inject_Z (Math_floor (lat / gridSize)) * gridSize + inject_Z dLat * gridSize)
             (inject_Z (Math_floor (lon / gridSize)) * gridSize + inject_Z dLon * gridSize)))
        keys inner) keys outer)).
  { intros inner outer.
    induction outer as [|dLat outer IH]; intros keys Hk; cbn [foldl]; [done|].
    apply IH. clear IH. revert keys Hk.
    induction inner as [|dLon inner IH]; intros keys Hk; cbn [foldl]; [done|].
    apply IH. by apply set_add_NoDup. }
  apply Hgen. constructor.
Qed.

Lemma candidates_concat index keys :
  candidates index keys = concat ((fun key => default [] (byLocation index !! key)) <$> keys).
Proof.
  unfold candidates.
  assert (Hgen : forall acc,
    foldl (fun candidates key =>
      match byLocation index !! key with
      | Some fires => candidates ++ fires
      | None => candidates
      end) acc keys =
    acc ++ concat ((fun key => default [] (byLocation index !! key)) <$> keys)).
  { induction keys as [|key keys IH]; intros acc; csimpl; [by rewrite app_nil_r|].
    rewrite IH. destruct (byLocation index !! key) as [fires|];
      cbn [default from_option Datatypes.id]; [by rewrite app_assoc | done]. }
  apply Hgen.
Qed.

Lemma bucket_default `{EqDecision K} (key : DirectionalSpread -> K) k all' :
  default [] (bucket key k all') = filter (fun fire => key fire = k) all'.
Proof. unfold bucket. by destruct (filter _ all'). Qed.

Lemma candidates_built features keys :
  candidates (buildSpreadIndex features) keys =
  concat ((fun key => filter (fun fire => cellKey fire = key)
                        (all (buildSpreadIndex features))) <$> keys).
Proof.
  rewrite candidates_concat. f_equal. apply list_fmap_ext. intros _ key _.
  destruct (buildSpreadIndex_cells features) as (_ & Hl).
  rewrite Hl. apply bucket_default.
Qed.

Lemma cells_elem_of `{EqDecision K} (key : DirectionalSpread -> K) all' keys fire :
  fire ∈ concat ((fun k => filter (fun fire => key fire = k) all') <$> keys) <->
  fire ∈ all' /\ key fire ∈ keys.
Proof.
  rewrite list_elem_of_In, in_concat. split.
  - intros (l & Hl & Hf). apply list_elem_of_In in Hl, Hf.
    apply list_elem_of_fmap in Hl as (k & -> & Hk).
    apply list_elem_of_filter in Hf as [<- Hf]. done.
  - intros [Hf Hk]. exists (filter (fun fire' => key fire' = key fire) all').
    rewrite <- !list_elem_of_In. split; [|by apply list_elem_of_filter].
    apply list_elem_of_fmap. by exists (key fire).
Qed.

Lemma cells_length `{EqDecision K} (key : DirectionalSpread -> K) all' keys :
  NoDup keys ->
  (length (concat ((fun k => filter (fun fire => key fire = k) all') <$> keys))
   <= length all')%nat.
Proof.
  intros Hk. induction all' as [|fire all' IH]; cbn [length].
  - induction keys as [|k keys IHk]; csimpl; [done|].
    rewrite ?filter_nil. apply NoDup_cons in Hk as [_ Hk]. by apply IHk.
  - etransitivity; [|apply le_n_S, IH]. clear IH.
    induction Hk as [|k keys Hnin Hk IHk]; csimpl; [lia|].
    rewrite !length_app, filter_cons.
    destruct (decide (key fire = k)) as [<-|Hne]; cbn [length].
    + assert (Hrest :
        concat ((fun k => filter (fun fire' => key fire' = k) (fire :: all')) <$> keys) =
        concat ((fun k => filter (fun fire' => key fire' = k) all') <$> keys)).
      { f_equal. apply list_fmap_ext. intros _ k Hin%list_elem_of_lookup_2.
        rewrite filter_cons. destruct (decide (key fire = k)) as [<-|]; done. }
      rewrite Hrest. lia.
    + lia.
Qed.

(** X19.  Over an index built by [buildSpreadIndex], the radius search
    returns only fires of the index whose grid cell is one of the cells
    searched and whose centre is within the radius; with a limit at
    least the size of the index it returns every such fire. *)
Theorem findFiresNearLocation_searched_cells features lat lon radiusKm limit fire :
  let index := buildSpreadIndex features in
  let found :=
    fire ∈ all index /\
    cellKey fire ∈ gridKeys lat lon (Math_ceil (radiusKm / 50)) /\
    distance_to lat lon fire <= radiusKm in
  (fire ∈ findFiresNearLocation index lat lon radiusKm limit -> found) /\
  ((Z.of_nat (length (all index)) <= limit)%Z -> found ->
   fire ∈ findFiresNearLocation index lat lon radiusKm limit).
Proof.
  cbv zeta. unfold findFiresNearLocation. cbv zeta.
  rewrite candidates_built.
  set (index := buildSpreadIndex features).
  set (keys := gridKeys lat lon (Math_ceil (radiusKm / 50))).
  set (cells := concat _).
  set (cmp := fun a b : DirectionalSpread * Q => snd a - snd b).
  set (near := List.filter _ _).
  assert (Hnear : forall item, item ∈ near <->
    fst item ∈ cells /\ snd item = distance_to lat lon (fst item) /\
    snd item <= radiusKm).
  { intros item. subst near. rewrite list_elem_of_In, filter_In, <- list_elem_of_In.
    rewrite leb_le, list_elem_of_fmap. split.
    - intros [(f & -> & Hf) Hr]. done.
    - intros (Hf & Hd & Hr). split; [|done]. exists (fst item). split; [|done].
      destruct item as [f d]. unfold with_distance. cbn [fst snd] in *.
      by rewrite Hd. }
  split.
  - intros Hin. apply list_elem_of_fmap in Hin as (item & -> & Hin).
    apply slice0_elem_of in Hin. rewrite sort_Permutation in Hin.
    apply Hnear in Hin as (Hc & Hd & Hr).
    apply cells_elem_of in Hc as [Ha Hk]. rewrite <- Hd. done.
  - intros Hlimit (Ha & Hk & Hr).
    apply list_elem_of_fmap. exists (with_distance lat lon fire). split; [done|].
    rewrite slice0_all.
    + rewrite sort_Permutation. apply Hnear. cbn [with_distance fst snd].
      split; [by apply cells_elem_of|done].
    + rewrite sort_length. subst near.
      pose proof (cells_length cellKey (all index) keys (gridKeys_NoDup _ _ _)) as Hc.
      fold cells in Hc.
      assert (Hf : forall l : list (DirectionalSpread * Q),
        (length (List.filter (fun item => leb (snd item) radiusKm) l) <= length l)%nat).
      { induction l as [|x l IH]; cbn [List.filter length]; [done|].
        destruct (leb _ _); cbn [length]; lia. }
      specialize (Hf (with_distance lat lon <$> cells)).
      rewrite length_fmap in Hf. lia.
Qed.

(** X20.  [findSimilarFires] returns fires of the radius search made
    with twice the limit, the most recent year first, and at most
    [limit] of them. *)
Theorem findSimilarFires_recent_first index incident radiusKm limit :
  let fires := findSimilarFires index incident radiusKm limit in
  StronglySorted (fun f g => (year g <= year f)%Z) fires /\
  Forall (fun fire =>
    fire ∈ findFiresNearLocation index (lat incident) (lon incident) radiusKm
             (limit * 2)) fires /\
  ((0 <= limit)%Z -> (Z.of_nat (length fires) <= limit)%Z).
Proof.
  cbv zeta. unfold findSimilarFires. cbv zeta.
  set (nearby := findFiresNearLocation _ _ _ _ _).
  set (cmp := fun a b : DirectionalSpread => inject_Z (year b - year a)).
  assert (Hcmp : forall f g, before cmp f g <-> (year g <= year f)%Z).
  { intros f g. unfold before, cmp. change 0 with (inject_Z 0).
    rewrite <- Zle_Qle. lia. }
  repeat split.
  - apply slice0_StronglySorted.
    assert (Hs : StronglySorted (before cmp) (sort cmp nearby)).
    { apply sort_sorted; intros *; rewrite !Hcmp; lia. }
    clear -Hs Hcmp. induction Hs as [|f l Hl IH Hf]; constructor; [done|].
    eapply Forall_impl; [exact Hf|]. intros g. apply Hcmp.
  - apply slice0_Forall, sort_Forall. by apply Forall_forall.
  - intros Hl. by apply slice0_length_nonneg.
Qed.

(** *** Statistics *)

Lemma count_direction_keys counts dir :
  (count_direction counts dir).*1 = set_add (counts.*1) dir.
Proof.
  induction counts as [|[d n] counts IH]; [done|].
  cbn [count_direction]. destruct (String.eqb_spec d dir) as [->|Hne]; csimpl.
  - unfold set_add. rewrite bool_decide_eq_true_2; [done|apply list_elem_of_here].
  - rewrite IH. unfold set_add.
    destruct (decide (dir ∈ counts.*1)) as [Hin|Hnin].
    + rewrite !bool_decide_eq_true_2; [done| |done]. by apply list_elem_of_further.
    + rewrite !bool_decide_eq_false_2; [done| |done].
      intros [?|?]%elem_of_cons; congruence.
Qed.

Lemma count_direction_get counts dir d :
  count_of (count_direction counts dir) d =
  (count_of counts d + if String.eqb dir d then 1 else 0)%nat.
Proof.
  induction counts as [|[d0 n] counts IH]; cbn [count_direction count_of].
  - lia.
  - destruct (String.eqb_spec d0 dir) as [->|Hne]; cbn [count_of].
    + destruct (String.eqb dir d); lia.
    + destruct (String.eqb_spec d0 d) as [->|Hne'].
      * destruct (String.eqb_spec dir d); [congruence|lia].
      * apply IH.
Qed.

Lemma count_direction_positive counts dir :
  Forall (fun entry => (1 <= snd entry)%nat) counts ->
  Forall (fun entry => (1 <= snd entry)%nat) (count_direction counts dir).
Proof.
  induction 1 as [|[d n] counts Hn Hc IH]; cbn [count_direction].
  - repeat constructor.
  - destruct (String.eqb d dir); constructor; cbn [snd] in *; auto; lia.
Qed.

Lemma directionCounts_spec (fires : list DirectionalSpread) :
  let counts :=
    foldl (fun counts fire => count_direction counts (dominantDirection (shape fire)))
      [] fires in
  NoDup counts.*1 /\
  Forall (fun entry => (1 <= snd entry)%nat) counts /\
  forall d, count_of counts d =
            occurrences d ((fun fire => dominantDirection (shape fire)) <$> fires).
Proof.
  cbv zeta.
  assert (Hgen : forall acc,
    NoDup acc.*1 -> Forall (fun entry => (1 <= snd entry)%nat) acc ->
    let counts :=
      foldl (fun counts fire => count_direction counts (dominantDirection (shape fire)))
        acc fires in
    NoDup counts.*1 /\
    Forall (fun entry => (1 <= snd entry)%nat) counts /\
    forall d, count_of counts d =
      (count_of acc d +
       occurrences d ((fun fire => dominantDirection (shape fire)) <$> fires))%nat).
  { induction fires as [|fire fires IH]; intros acc Hnd Hpos; cbn [foldl].
    - cbv zeta. repeat split; [done|done|]. intros d. unfold occurrences. csimpl. lia.
    - destruct (IH (count_direction acc (dominantDirection (shape fire))))
        as (Hnd' & Hpos' & Hc).
      + rewrite count_direction_keys. by apply set_add_NoDup.
      + by apply count_direction_positive.
      + cbv zeta. repeat split; [done|done|]. intros d.
        rewrite Hc, count_direction_get. unfold occurrences. csimpl.
        rewrite filter_cons.
        destruct (String.eqb_spec (dominantDirection (shape fire)) d) as [Heq|Hne];
          destruct (decide (dominantDirection (shape fire) = d)); try congruence;
          cbn [length]; lia. }
  destruct (Hgen [] ltac:(constructor) ltac:(constructor)) as (? & ? & Hc).
  repeat split; [done|done|]. intros d. by rewrite Hc.
Qed.

Lemma count_of_entry counts d n :
  NoDup counts.*1 -> (d, n) ∈ counts -> count_of counts d = n.
Proof.
  induction counts as [|[d0 n0] counts IH]; intros Hnd Hin.
  - by apply elem_of_nil in Hin.
  - csimpl in Hnd. apply NoDup_cons in Hnd as [Hd0 Hnd].
    apply elem_of_cons in Hin as [[= -> ->]|Hin]; cbn [count_of].
    + by rewrite String.eqb_refl.
    + destruct (String.eqb_spec d0 d) as [->|Hne]; [|by apply IH].
      exfalso. apply Hd0. apply list_elem_of_fmap. by exists (d, n).
Qed.

Lemma count_of_bound counts d (mx : nat) :
  Forall (fun entry => (snd entry <= mx)%nat) counts -> (count_of counts d <= mx)%nat.
Proof.
  induction 1 as [|[d0 n0] counts Hn Hc IH]; cbn [count_of]; [lia|].
  destruct (String.eqb d0 d); [exact Hn | exact IH].
Qed.

Lemma majority_fold (counts : list (string * nat)) (d0 : string) (m0 : nat) :
  let '(d, mx) :=
    foldl (fun '(dominant, maxCount) '(dir, count) =>
      if (maxCount <? count)%nat then (dir, count) else (dominant, maxCount))
      (d0, m0) counts in
  (m0 <= mx)%nat /\
  Forall (fun entry => (snd entry <= mx)%nat) counts /\
  ((d, mx) = (d0, m0) \/ (d, mx) ∈ counts).
Proof.
  revert d0 m0. induction counts as [|[dir count] counts IH]; intros d0 m0; cbn [foldl].
  - repeat split; [lia|constructor|by left].
  - destruct (Nat.ltb_spec m0 count) as [Hlt|Hge].
    + specialize (IH dir count). destruct (foldl _ _ counts) as [d mx].
      destruct IH as (Hm & Hall & Hfrom). repeat split; [lia| |].
      * constructor; [exact Hm|exact Hall].
      * right. destruct Hfrom as [->|Hin];
          [apply list_elem_of_here | by apply list_elem_of_further].
    + specialize (IH d0 m0). destruct (foldl _ _ counts) as [d mx].
      destruct IH as (Hm & Hall & Hfrom). repeat split; [lia| |].
      * constructor; [cbn [snd]; lia|exact Hall].
      * destruct Hfrom as [Heq|Hin]; [by left|right; by apply list_elem_of_further].
Qed.

Lemma occurrences_elem_of d dirs : (1 <= occurrences d dirs)%nat -> d ∈ dirs.
Proof.
  unfold occurrences. intros Hn.
  destruct (filter (fun d' => d' = d) dirs) as [|d' l] eqn:E; [cbn in Hn; lia|].
  assert (Hd : d' ∈ filter (fun d' => d' = d) dirs) by (rewrite E; apply list_elem_of_here).
  apply list_elem_of_filter in Hd as [-> Hd]. exact Hd.
Qed.

Lemma calculateSpreadStatistics_entry fire fires :
  let counts :=
    foldl (fun counts fire => count_direction counts (dominantDirection (shape fire)))
      [] (fire :: fires) in
  let d := stat_dominantDirection (calculateSpreadStatistics (fire :: fires)) in
  exists mx, (d, mx) ∈ counts /\ Forall (fun entry => (snd entry <= mx)%nat) counts.
Proof.
  cbv zeta. unfold calculateSpreadStatistics.
  destruct (directionCounts_spec (fire :: fires)) as (Hnd & Hpos & Hc).
  set (counts := foldl _ [] (fire :: fires)) in *.
  pose proof (majority_fold counts "UNIFORM" 0) as Hm.
  destruct (foldl _ ("UNIFORM", 0%nat) counts) as [d mx].
  destruct Hm as (_ & Hall & Hfrom). cbn [stat_dominantDirection].
  exists mx. split; [|exact Hall].
  destruct Hfrom as [[= -> ->]|Hin]; [|exact Hin]. exfalso.
  assert (Hone : (1 <= count_of counts (dominantDirection (shape fire)))%nat).
  { rewrite Hc. unfold occurrences. csimpl. rewrite filter_cons.
    destruct (decide _) as [_|Hne]; [cbn [length]; lia|done]. }
  pose proof (count_of_bound counts (dominantDirection (shape fire)) 0 Hall). lia.
Qed.

Lemma calculateSpreadStatistics_direction fire fires :
  stat_dominantDirection (calculateSpreadStatistics (fire :: fires)) ∈
  (fun f => dominantDirection (shape f)) <$> (fire :: fires).
Proof.
  destruct (calculateSpreadStatistics_entry fire fires) as (mx & Hin & _).
  destruct (directionCounts_spec (fire :: fires)) as (Hnd & Hpos & Hc).
  cbv zeta in *.
  apply occurrences_elem_of. rewrite <- Hc, (count_of_entry _ _ mx Hnd Hin).
  rewrite Forall_forall in Hpos. exact (Hpos _ Hin).
Qed.

(** X21.  For at least one fire, the dominant direction of the
    statistics is the dominant direction of one of the fires, and no
    direction is the dominant one of more fires. *)
Theorem calculateSpreadStatistics_majority fire fires :
  let dirs := (fun f => dominantDirection (shape f)) <$> (fire :: fires) in
  let d := stat_dominantDirection (calculateSpreadStatistics (fire :: fires)) in
  d ∈ dirs /\ forall dir, (occurrences dir dirs <= occurrences d dirs)%nat.
Proof.
  cbv zeta.
  destruct (calculateSpreadStatistics_entry fire fires) as (mx & Hin & Hall).
  destruct (directionCounts_spec (fire :: fires)) as (Hnd & Hpos & Hc).
  cbv zeta in *.
  set (counts := foldl _ [] (fire :: fires)) in *.
  set (d := stat_dominantDirection _) in *.
  pose proof (count_of_entry counts d mx Hnd Hin) as Hd. rewrite Hc in Hd.
  split.
  - apply occurrences_elem_of. rewrite Hd.
    rewrite Forall_forall in Hpos. exact (Hpos _ Hin).
  - intros dir. rewrite Hd, <- Hc. by apply count_of_bound.
Qed.






(** X23.  [getCardinalDirection] names one of the sixteen compass points
    for every bearing from 0 upwards, and gives [undefined] for the
    bearings in [-348.75, -11.25), where the array index is negative. *)
Theorem getCardinalDirection_domain (d : Q) :
  (0 <= d -> exists c, getCardinalDirection d = Some c /\ c ∈ compass16) /\
  (- (1395 # 4) <= d -> d < - (45 # 4) -> getCardinalDirection d = None).
Proof.
  unfold getCardinalDirection. cbv zeta. fold compass16. split.
  - intros Hd.
    assert (Hr : (0 <= Math_round (d / (225 # 10)))%Z).
    { apply Math_round_lower. change (inject_Z 0) with 0.
      assert (0 <= d / (225 # 10)) by (apply Qle_shift_div_l; lra). lra. }
    pose proof (Z.rem_nonneg (Math_round (d / (225 # 10))) 16 ltac:(lia) Hr) as Hge0.
    pose proof (Z.rem_bound_pos (Math_round (d / (225 # 10))) 16 Hr ltac:(lia)) as H16.
    destruct (Z.ltb_spec (Z.rem (Math_round (d / (225 # 10))) 16) 0) as [Hlt|_]; [lia|].
    assert (Hn : (Z.to_nat (Z.rem (Math_round (d / (225 # 10))) 16) < 16)%nat) by lia.
    destruct (lookup_lt_is_Some_2 compass16 _ Hn) as [c Hc].
    exists c. split; [exact Hc|]. by eapply list_elem_of_lookup_2.
  - intros Hlo Hhi.
    assert (Hq : - (31 # 2) <= d / (225 # 10) /\ d / (225 # 10) < - (1 # 2)).
    { split; [apply Qle_shift_div_l | apply Qlt_shift_div_r]; lra. }
    assert (Hr : (-15 <= Math_round (d / (225 # 10)) < 0)%Z).
    { split; [apply Math_round_lower | apply Math_round_upper].
      - change (inject_Z (-15)) with (-15). lra.
      - change (inject_Z 0) with 0. lra. }
    assert (Hrem : Z.rem (Math_round (d / (225 # 10))) 16 = Math_round (d / (225 # 10))).
    { rewrite <- (Z.opp_involutive (Math_round (d / (225 # 10)))) at 1.
      rewrite Z.rem_opp_l by lia. rewrite Z.rem_small by lia. lia. }
    rewrite Hrem. destruct (Z.ltb_spec (Math_round (d / (225 # 10))) 0); [done|lia].
Qed.

Lemma analyzeFeatureSpread_direction feature d :
  analyzeFeatureSpread feature = Some d -> dominantDirection (shape d) ∈ compass8.
Proof.
  unfold analyzeFeatureSpread.
  destruct (extractAllCoordinates (coordinates feature)) as [|[lon0 lat0] coords];
    [discriminate|].
  cbv zeta. intros [= <-]. cbn [shape dominantDirection]. apply dominant_compass.
Qed.

Lemma predictSpreadPattern_cases index incident windDirDeg :
  let fires := findSimilarFires index incident 100 15 in
  let pattern := predictSpreadPattern index incident windDirDeg in
  similarFires pattern = fires /\
  match fires with
  | [] =>
      likelyDirection (prediction pattern) = "UNKNOWN" /\
      expectedRates (prediction pattern) =
        {| exp_north := 0; exp_south := 0; exp_east := 0; exp_west := 0 |} /\
      length (reasoning (prediction pattern)) = 1%nat
  | _ =>
      likelyDirection (prediction pattern) =
        stat_dominantDirection (calculateSpreadStatistics fires) /\
      length (reasoning (prediction pattern)) = 4%nat
  end.
Proof.
  unfold predictSpreadPattern.
  generalize (findSimilarFires index incident 100 15). intros fires.
  destruct fires as [|fire fires]; cbv zeta; cbn [length Nat.eqb];
    cbn [similarFires prediction likelyDirection expectedRates reasoning length];
    repeat split; reflexivity.
Qed.

Lemma findFiresNearLocation_built features lat lon radiusKm limit :
  Forall (fun fire => fire ∈ omap analyzeFeatureSpread features)
    (findFiresNearLocation (buildSpreadIndex features) lat lon radiusKm limit).
Proof.
  apply Forall_forall. intros fire Hin.
  unfold findFiresNearLocation in Hin. cbv zeta in Hin.
  apply list_elem_of_fmap in Hin as (item & -> & Hin).
  apply slice0_elem_of in Hin. rewrite sort_Permutation in Hin.
  apply list_elem_of_In, filter_In in Hin as [Hin _].
  apply list_elem_of_In, list_elem_of_fmap in Hin as (f & -> & Hin).
  rewrite candidates_built in Hin. apply cells_elem_of in Hin as [Hin _].
  destruct (buildSpreadIndex_cells features) as (Ha & _). cbv zeta in Ha.
  by rewrite <- Ha.
Qed.

Lemma findSimilarFires_built features incident radiusKm limit :
  Forall (fun fire =>
    fire ∈ omap analyzeFeatureSpread features /\
    distance_to (lat incident) (lon incident) fire <= radiusKm)
    (findSimilarFires (buildSpreadIndex features) incident radiusKm limit).
Proof.
  unfold findSimilarFires. cbv zeta. apply slice0_Forall, sort_Forall.
  destruct (findFiresNearLocation_spec (buildSpreadIndex features)
              (lat incident) (lon incident) radiusKm (limit * 2)) as (Hr & _ & _).
  apply Forall_both; [apply findFiresNearLocation_built | exact Hr].
Qed.

(** X24.  Over an index built by [buildSpreadIndex], the prediction
    rests on at most 15 fires of the index, each within 100 km of the
    incident.  Without such a fire the likely direction is "UNKNOWN",
    every expected rate is 0 and there is one line of reasoning; with
    one, the likely direction is one of the eight compass points (never
    "UNIFORM" or "UNKNOWN") and there are four lines of reasoning. *)
Theorem predictSpreadPattern_built features incident windDirDeg :
  let pattern := predictSpreadPattern (buildSpreadIndex features) incident windDirDeg in
  (length (similarFires pattern) <= 15)%nat /\
  Forall (fun fire =>
    fire ∈ omap analyzeFeatureSpread features /\
    distance_to (lat incident) (lon incident) fire <= 100) (similarFires pattern) /\
  match similarFires pattern with
  | [] =>
      likelyDirection (prediction pattern) = "UNKNOWN" /\
      expectedRates (prediction pattern) =
        {| exp_north := 0; exp_south := 0; exp_east := 0; exp_west := 0 |} /\
      length (reasoning (prediction pattern)) = 1%nat
  | _ =>
      likelyDirection (prediction pattern) ∈ compass8 /\
      length (reasoning (prediction pattern)) = 4%nat
  end.
Proof.
  intros pattern.
  destruct (predictSpreadPattern_cases (buildSpreadIndex features) incident windDirDeg)
    as [Hs Hm].
  fold pattern in Hs, Hm. rewrite Hs. clear Hs.
  pose proof (findSimilarFires_length (buildSpreadIndex features) incident 100 15
                ltac:(lia)) as Hlen.
  pose proof (findSimilarFires_built features incident 100 15) as Hfrom.
  revert Hm Hlen Hfrom. generalize pattern. clear pattern.
  generalize (findSimilarFires (buildSpreadIndex features) incident 100 15).
  intros fires pattern Hm Hlen Hfrom.
  split; [lia|]. split; [exact Hfrom|].
  destruct fires as [|fire fires]; [exact Hm|].
  destruct Hm as [Hd Hr]. split; [|exact Hr]. rewrite Hd.
  pose proof (calculateSpreadStatistics_direction fire fires) as Hin.
  apply list_elem_of_fmap in Hin as (f & -> & Hf).
  rewrite Forall_forall in Hfrom. destruct (Hfrom f Hf) as [Hin _].
  apply list_elem_of_omap in Hin as (feature & _ & Hsome).
  by eapply analyzeFeatureSpread_direction.
Qed.

End SpreadMore.

(** ** More on the IAP matcher *)

Section IapMore.
Import Js Types Iap.
Context `{MathLib} `{NumberFormat}.

Lemma length_append (s1 s2 : string) :
  String.length (s1 +:+ s2) = (String.length s1 + String.length s2)%nat.
Proof. induction s1 as [|c s1 IH]; simpl; [done|]. by f_equal. Qed.

Lemma length_substring0 (n : nat) (s : string) :
  (String.length (String.substring 0 n s) <= n)%nat.
Proof.
  revert s. induction n as [|n IH]; intros [|c s]; cbn; try lia.
  specialize (IH s). lia.
Qed.

Lemma truncate300_length (s : string) : (String.length (truncate300 s) <= 300)%nat.
Proof.
  unfold truncate300. destruct (Nat.ltb_spec 300 (String.length s)) as [Hlt|Hge].
  - rewrite length_append. pose proof (length_substring0 297 s) as Hs.
    change (String.length "...") with 3%nat. lia.
  - exact Hge.
Qed.

Lemma extractTacticalSnippet_length section cardType iap :
  (String.length (extractTacticalSnippet section cardType iap) <= 300)%nat.
Proof.
  unfold extractTacticalSnippet. cbv zeta.
  destruct (0 <? length _)%nat; apply truncate300_length.
Qed.

Lemma relevantSection_spec cardType iap section :
  relevantSection cardType iap = Some section ->
  section ∈ sections iap /\
  (has_section (RELEVANT_SECTIONS cardType) iap = true ->
   type section ∈ RELEVANT_SECTIONS cardType).
Proof.
  unfold relevantSection, has_section.
  destruct (List.find _ (sections iap)) as [s|] eqn:Ef.
  - intros [= <-]. apply find_some in Ef as [Hin Hs].
    apply list_elem_of_In in Hin. apply bool_decide_eq_true in Hs. done.
  - intros Hl. split; [by eapply list_elem_of_lookup_2|].
    intros He. apply existsb_exists in He as (s & Hin & Hs).
    pose proof (find_none _ _ Ef s Hin) as Hn. cbv beta in Hn. congruence.
Qed.

Lemma scored_from incident weather cardType terrain iapData scored :
  mapM (fun iap =>
    score ← calculateIAPSimilarity incident weather cardType iap terrain;
    Some (iap, score)) iapData = Some scored ->
  Forall (fun s : Scored =>
    fst s ∈ iapData /\
    calculateIAPSimilarity incident weather cardType (fst s) terrain = Some (snd s))
    scored.
Proof.
  intros Hm. apply mapM_Some_1 in Hm.
  induction Hm as [|iap s iapData scored Hs Hm IH]; constructor.
  - destruct (calculateIAPSimilarity incident weather cardType iap terrain)
      as [score|] eqn:E; [|done].
    injection Hs as <-. cbn [fst snd]. split; [apply list_elem_of_here | exact E].
  - eapply Forall_impl; [exact IH|]. intros s' [Hin Hs']. split; [|exact Hs'].
    by apply list_elem_of_further.
Qed.

(** X25.  Every insight [findRelevantIAPs] returns is made from an IAP
    of the dataset that has at least one section: it carries the
    identifier and the name of that IAP, its similarity score, and the
    type of one of its sections, which is a section relevant to the card
    whenever the IAP has one; its snippet has at most 300 characters and
    its reasoning between one and three bullets. *)
Theorem findRelevantIAPs_insights iapData incident weather cardType terrain r :
  findRelevantIAPs iapData incident weather cardType terrain = Some r ->
  Forall (fun i => exists iap section,
    iap ∈ iapData /\ section ∈ sections iap /\
    iapId i = id iap /\ iapName i = incidentName iap /\
    calculateIAPSimilarity incident weather cardType iap terrain =
      Some (relevanceScore i) /\
    sectionType i = type section /\
    (has_section (RELEVANT_SECTIONS cardType) iap = true ->
     sectionType i ∈ RELEVANT_SECTIONS cardType) /\
    (String.length (tacticalSnippet i) <= 300)%nat /\
    (1 <= length (reasoning i) <= 3)%nat) r.
Proof.
  unfold findRelevantIAPs.
  destruct (length iapData =? 0)%nat; [intros [= <-]; constructor|].
  destruct (mapM _ iapData) as [scored|] eqn:Em; cbn [mbind option_bind]; [|done].
  intros [= <-]. rewrite insights_omap. cbn [app].
  apply scored_from in Em.
  eapply omap_Forall;
    [|apply slice0_Forall, sort_Forall, Forall_forall; intros s Hs;
      apply list_elem_of_In, filter_In in Hs as [Hs _];
      apply list_elem_of_In in Hs; rewrite Forall_forall in Em; exact (Em s Hs)].
  intros [iap score] i Hi [Hin Hscore]. cbn [fst snd] in *.
  unfold insight_of, insight_step in Hi.
  destruct (relevantSection cardType iap) as [section|] eqn:Es; [|done].
  cbn [app] in Hi. injection Hi as <-.
  apply relevantSection_spec in Es as [Hsec Hrel].
  exists iap, section.
  cbn [iapId iapName relevanceScore sectionType tacticalSnippet reasoning].
  split; [exact Hin|]. split; [exact Hsec|]. split; [done|]. split; [done|].
  split; [exact Hscore|]. split; [done|]. split; [exact Hrel|].
  split; [apply extractTacticalSnippet_length | apply generateReasoning_length].
Qed.

(** X26.  For an IAP whose acreage, when recorded, is not negative, a
    similarity score that is returned lies between 0 and 106; and for a
    card other than tactics, without terrain, or for an IAP without raw
    text, a score is returned and lies between 0 and 90. *)
Theorem calculateIAPSimilarity_bounds incident weather cardType iap terrain :
  acres_nonneg iap ->
  (forall z, calculateIAPSimilarity incident weather cardType iap terrain = Some z ->
     (0 <= z <= 106)%Z) /\
  (cardType <> tactics \/ terrain = None \/ truthyS (rawText iap) = false ->
   exists z, calculateIAPSimilarity incident weather cardType iap terrain = Some z /\
             (0 <= z <= 90)%Z).
Proof.
  intros Ha. split.
  { intros z. by apply calculateIAPSimilarity_range. }
  intros Hcase. rewrite calculateIAPSimilarity_steps.
  pose proof (fuel_step_range incident iap 0) as H1.
  set (s1 := fuel_step incident iap 0) in *.
  pose proof (weather_step_range weather iap s1) as H2.
  set (s2 := weather_step weather iap s1) in *.
  pose proof (scale_step_range incident iap s2 Ha) as H3.
  set (s3 := scale_step incident iap s2) in *.
  pose proof (section_step_range cardType iap s3) as H4.
  set (s4 := section_step cardType iap s3) in *.
  assert (Ht : terrain_step cardType iap terrain s4 = Some s4).
  { unfold terrain_step. destruct cardType, terrain as [t|]; try reflexivity.
    destruct Hcase as [Hc|[Hc|Hc]]; [done|done|]. by rewrite Hc. }
  rewrite Ht. cbn [mbind option_bind]. eexists. split; [reflexivity|].
  apply Math_round_bounds.
  - change (inject_Z 0) with 0. lra.
  - change (inject_Z 90) with 90. lra.
Qed.

(** The quotient of a number in (-4, -3] truncates to -3. *)
Lemma trunc_minus_3 (q : Q) : -4 < q -> q <= -3 -> trunc q = (-3)%Z.
Proof.
  destruct q as [n d]. unfold trunc, Qlt, Qle. cbn [Qnum Qden].
  intros Hlo Hhi.
  assert (Hq : ((- n) / Z.pos d = 3)%Z).
  { symmetry. apply (Z.div_unique_pos (- n) (Z.pos d) 3 (- n - 3 * Z.pos d)); lia. }
  rewrite <- (Z.opp_involutive n), Z.quot_opp_l by lia.
  rewrite Z.quot_div_nonneg by lia. lia.
Qed.

Lemma mock_aspect_west lat lon s :
  -125 <= lon -> lon <= -114 ->
  Terrain.aspect (fst (Terrain.getTerrainMetrics lat lon s)) = None.
Proof.
  intros Hlo Hhi.
  assert (Ha : Terrain.aspect (fst (Terrain.getTerrainMetrics lat lon s)) =
               Terrain.degreesToCardinal (rem (lon * 10) 360)).
  { cbv [Terrain.getTerrainMetrics bind ret Math_random].
    destruct (gtb _ 20); [destruct (gtb _ (6 # 10))|]; reflexivity. }
  rewrite Ha. clear Ha.
  assert (Hq : -4 < lon * 10 / 360 /\ lon * 10 / 360 <= -3).
  { split; [apply Qlt_shift_div_l | apply Qle_shift_div_r]; lra. }
  assert (Hr : rem (lon * 10) 360 == lon * 10 + 1080).
  { unfold rem. rewrite (trunc_minus_3 _ (proj1 Hq) (proj2 Hq)).
    change (inject_Z (-3)) with (-3). ring. }
  apply degreesToCardinal_negative; rewrite Hr; lra.
Qed.

(** X27.  For every longitude of California, from -125 to -114 degrees,
    the mock [getTerrainMetrics] yields metrics without an aspect, the
    index into the compass points being negative; with such metrics,
    [calculateIAPSimilarity] throws for a tactics card on every IAP that
    has raw text, and so does [findRelevantIAPs] on every dataset that
    holds such an IAP. *)
Theorem findRelevantIAPs_mock_terrain_throws
    iapData incident weather lat lon s iap :
  -125 <= lon -> lon <= -114 ->
  iap ∈ iapData -> truthyS (rawText iap) = true ->
  let terrain := fst (Terrain.getTerrainMetrics lat lon s) in
  Terrain.aspect terrain = None /\
  calculateIAPSimilarity incident weather tactics iap (Some terrain) = None /\
  findRelevantIAPs iapData incident weather tactics (Some terrain) = None.
Proof.
  intros Hlo Hhi Hin Hraw terrain.
  pose proof (mock_aspect_west lat lon s Hlo Hhi) as Ha. fold terrain in Ha.
  assert (Hs : calculateIAPSimilarity incident weather tactics iap (Some terrain) = None).
  { rewrite calculateIAPSimilarity_steps. unfold terrain_step. rewrite Hraw.
    unfold Terrain.calculateTerrainSimilarity. rewrite Ha. reflexivity. }
  split; [exact Ha|]. split; [exact Hs|].
  unfold findRelevantIAPs.
  destruct (Nat.eqb_spec (length iapData) 0) as [E|_].
  { destruct iapData; [by apply elem_of_nil in Hin | discriminate]. }
  destruct (mapM _ iapData) as [scored|] eqn:Em; [|reflexivity].
  exfalso. apply mapM_Some_1 in Em.
  apply list_elem_of_lookup in Hin as [k Hk].
  destruct (Forall2_lookup_l _ _ _ _ _ Em Hk) as (sc & _ & Hsc).
  rewrite Hs in Hsc. discriminate.
Qed.

End IapMore.

Section CacheFacts.
Import Cache.
Context {T : Type}.

(** X28.  A value stored at time [t] is returned by [get] at a time
    [now] exactly when [now - t] is at most the time to live; later,
    [get] returns nothing and removes the entry.  Storing under a key
    does not change what [get] returns for another key. *)
Theorem TTLCache_get_set (c : TTLCache T) (t now : Z) (key : string) (v : T) :
  ((now - t <= ttlMs c)%Z -> get now key (set t key v c) = (Some v, set t key v c)) /\
  ((ttlMs c < now - t)%Z ->
     fst (get now key (set t key v c)) = None /\
     cache (snd (get now key (set t key v c))) = delete key (cache c)) /\
  (forall key', key' <> key ->
     fst (get now key' (set t key v c)) = fst (get now key' c)).
Proof.
  unfold get, set, expired. cbn [cache ttlMs]. rewrite lookup_insert_eq.
  cbn [timestamp value]. repeat split.
  - intros Hlive. destruct (Z.ltb_spec (ttlMs c) (now - t)); [lia|done].
  - destruct (Z.ltb_spec (ttlMs c) (now - t)); [done|lia].
  - destruct (Z.ltb_spec (ttlMs c) (now - t)); [|lia].
    cbn [snd cache]. apply delete_insert_eq.
  - intros key' Hne. rewrite lookup_insert_ne by done.
    destruct (cache c !! key') as [entry|]; [|done].
    by destruct (ttlMs c <? now - timestamp entry)%Z.
Qed.

Lemma clearExpired_lookup (now : Z) (c : TTLCache T) (key : string) :
  cache (clearExpired now c) !! key =
  match cache c !! key with
  | Some entry => if expired now c entry then None else Some entry
  | None => None
  end.
Proof.
  unfold clearExpired. cbn [cache].
  assert (Hgen : forall full m : gmap string (CacheEntry T), m ⊆ full ->
    map_fold (fun key entry m => if expired now c entry then delete key m else m)
      full m !! key =
    match m !! key with
    | Some entry => if expired now c entry then None else full !! key
    | None => full !! key
    end).
  { intros full m. revert key.
    apply (map_fold_weak_ind (fun r m => forall key, m ⊆ full ->
      r !! key = match m !! key with
                 | Some entry => if expired now c entry then None else full !! key
                 | None => full !! key
                 end)).
    - intros key _. by rewrite lookup_empty.
    - intros i x m' r Hi IH key Hsub.
      assert (Hsub' : m' ⊆ full).
      { etrans; [|exact Hsub]. by apply insert_subseteq. }
      destruct (decide (key = i)) as [->|Hne].
      + rewrite lookup_insert_eq. destruct (expired now c x).
        * apply lookup_delete_eq.
        * rewrite (IH i Hsub'), Hi. done.
      + rewrite lookup_insert_ne by done.
        destruct (expired now c x).
        * rewrite lookup_delete_ne by done. by apply IH.
        * by apply IH. }
  rewrite (Hgen (cache c) (cache c)) by done.
  destruct (cache c !! key) as [entry|] eqn:E; [|done].
  by destruct (expired now c entry).
Qed.

(** X29.  [clearExpired] removes exactly the entries that have expired:
    it keeps every entry that has not, unchanged, so that at that time
    [get] and [has] answer as before, and it never makes the cache
    larger; afterwards [get] leaves the cache as it is. *)
Theorem TTLCache_clearExpired (now : Z) (c : TTLCache T) (key : string) :
  let c' := clearExpired now c in
  (cache c' !! key =
     match cache c !! key with
     | Some entry => if expired now c entry then None else Some entry
     | None => None
     end) /\
  fst (get now key c') = fst (get now key c) /\
  fst (has now key c') = fst (has now key c) /\
  snd (get now key c') = c' /\
  (size c' <= size c)%nat.
Proof.
  cbv zeta. pose proof (clearExpired_lookup now c key) as Hk.
  assert (Hget : get now key (clearExpired now c) =
                 (fst (get now key c), clearExpired now c)).
  { unfold get. rewrite Hk.
    destruct (cache c !! key) as [entry|]; [|done].
    destruct (expired now c entry) eqn:E; [done|].
    unfold expired in *. cbn [ttlMs clearExpired]. by rewrite E. }
  split; [exact Hk|]. split; [by rewrite Hget|].
  split; [unfold has; rewrite Hget; by destruct (get now key c)|].
  split; [by rewrite Hget|].
  unfold size. apply map_subseteq_size, map_subseteq_spec.
  intros k entry Hin. rewrite clearExpired_lookup in Hin.
  destruct (cache c !! k) as [entry'|]; [|done].
  destruct (expired now c entry'); [done|exact Hin].
Qed.

End CacheFacts.

Section ServiceFacts.
Import Service.

Lemma checkRateLimit_within (now : Z) (l : Limiter) :
  (now - rateLimitWindow l <= 60000)%Z ->
  checkRateLimit now l =
  if (10 <=? requestCount l)%Z then (false, l)
  else (true, {| requestCount := requestCount l + 1;
                 rateLimitWindow := rateLimitWindow l |}).
Proof.
  intros Hw. unfold checkRateLimit, MAX_REQUESTS_PER_MINUTE.
  by destruct (Z.ltb_spec 60000 (now - rateLimitWindow l)); [lia|].
Qed.

(** X30.  Within one window, that is for calls made no later than 60
    seconds after its start, [checkRateLimit] accepts the calls until
    the count reaches 10 and refuses all the following ones; the window
    does not move.  A call made later than that is always accepted and
    starts a new window with a count of 1.  The count stays between 0
    and 10. *)
Theorem checkRateLimit_window (l : Limiter) (times : list Z) (now : Z) :
  (0 <= requestCount l <= 10)%Z ->
  (Forall (fun now => (now - rateLimitWindow l <= 60000)%Z) times ->
   let left := Z.to_nat (10 - requestCount l) in
   fst (calls times l) =
     replicate (length times `min` left) true ++
     replicate (length times - left) false /\
   rateLimitWindow (snd (calls times l)) = rateLimitWindow l /\
   requestCount (snd (calls times l)) =
     (requestCount l + Z.of_nat (length times `min` left))%Z) /\
  ((60000 < now - rateLimitWindow l)%Z ->
   checkRateLimit now l = (true, {| requestCount := 1; rateLimitWindow := now |})) /\
  (0 <= requestCount (snd (calls times l)) <= 10)%Z.
Proof.
  intros Hc. split; [|split].
  - intros Hw. cbv zeta. revert l Hc Hw.
    induction times as [|t times IH]; intros l Hc Hw.
    + cbn. split; [done|]. split; [done|lia].
    + apply Forall_cons in Hw as [Ht Hw]. cbn [calls].
      rewrite (checkRateLimit_within t l Ht).
      destruct (Z.leb_spec 10 (requestCount l)) as [Hfull|Hroom].
      * specialize (IH l Hc Hw). destruct (calls times l) as [answers l'].
        cbn [fst snd] in *. destruct IH as (Ha & Hwin & Hcount).
        replace (Z.to_nat (10 - requestCount l)) with 0%nat in * by lia.
        rewrite Nat.min_0_r in *. rewrite Nat.sub_0_r in *.
        cbn [replicate app length] in *. rewrite Ha.
        split; [done|]. split; [done|lia].
      * set (l1 := {| requestCount := requestCount l + 1;
                      rateLimitWindow := rateLimitWindow l |}).
        specialize (IH l1 ltac:(cbn; lia) Hw).
        destruct (calls times l1) as [answers l'].
        cbn [fst snd requestCount rateLimitWindow l1] in *.
        destruct IH as (Ha & Hwin & Hcount).
        replace (Z.to_nat (10 - requestCount l))
          with (S (Z.to_nat (10 - (requestCount l + 1)))) by lia.
        cbn [length Nat.min Nat.sub replicate app]. rewrite Ha.
        split; [done|]. split; [done|lia].
  - intros Hlate. unfold checkRateLimit, MAX_REQUESTS_PER_MINUTE.
    destruct (Z.ltb_spec 60000 (now - rateLimitWindow l)); [|lia]. done.
  - revert l Hc. induction times as [|t times IH]; intros l Hc; [done|].
    cbn [calls].
    assert (Hstep : (0 <= requestCount (snd (checkRateLimit t l)) <= 10)%Z).
    { unfold checkRateLimit, MAX_REQUESTS_PER_MINUTE.
      destruct (60000 <? t - rateLimitWindow l)%Z; cbn [requestCount];
        match goal with |- context [(10 <=? ?n)%Z] => destruct (Z.leb_spec 10 n) end;
        cbn [snd requestCount]; lia. }
    destruct (checkRateLimit t l) as [answer l1]. cbn [snd] in Hstep.
    specialize (IH l1 Hstep). by destruct (calls times l1).
Qed.

End ServiceFacts.

(** ** The further properties on the scenarios *)

Section MoreScenarioFacts.
Import Js Types Scenario.
#[local] Existing Instances Sample.math Sample.format Sample.turf Sample.date.

Lemma categorizeSlope_monotone_witness :
  10 <= 40 /\
  (Terrain.steepness (Terrain.categorizeSlope 10) <=
   Terrain.steepness (Terrain.categorizeSlope 40))%nat.
Proof.
  assert (Hst : 10 <= 40) by compare_Q.
  split; [exact Hst|]. exact (categorizeSlope_monotone 10 40 Hst).
Defined.

Lemma calculateAspect_range_witness :
  let a := Terrain.calculateAspect 100 110 90 105 95 10 in
  0 <= Terrain.degrees a /\ Terrain.degrees a < 360.
Proof.
  assert (Hatan :
    - Math_PI <= Math_atan2 ((110 - 90) / (2 * 10)) (- ((105 - 95) / (2 * 10))) /\
    Math_atan2 ((110 - 90) / (2 * 10)) (- ((105 - 95) / (2 * 10))) <= Math_PI)
    by (split; compare_Q).
  destruct (calculateAspect_range 100 110 90 105 95 10 Hatan) as (Hlo & Hhi & _).
  split; [exact Hlo | exact Hhi].
Defined.

Lemma calculateBearing_range_witness :
  0 <= Terrain.calculateBearing 34 (-118) 35 (-117) /\
  Terrain.calculateBearing 34 (-118) 35 (-117) < 360.
Proof.
  apply (calculateBearing_range 34 (-118) 35 (-117)).
  split; compare_Q.
Defined.


Lemma unit_draws_rng : Terrain.unit_draws rng.
Proof. intros [|n]; split; compare_Q. Defined.

Lemma getTerrainMetrics_mock_ranges_witness :
  Terrain.unit_draws rng /\
  let m := fst (Terrain.getTerrainMetrics 37 (-120) rng) in
  10 <= Terrain.slope m /\ Terrain.slope m < 30.
Proof.
  split; [exact unit_draws_rng|].
  destruct (getTerrainMetrics_mock_ranges 37 (-120) rng unit_draws_rng)
    as (_ & Hlo & Hhi & _).
  split; [exact Hlo | exact Hhi].
Defined.

Lemma assessTerrainTacticalValue_mock_witness :
  Terrain.unit_draws rng /\
  let m := fst (Terrain.getTerrainMetrics 37 (-120) rng) in
  Terrain.hazards (Terrain.assessTerrainTacticalValue m) = [] \/
  exists a, Terrain.aspect m = Some a /\ a ∈ ["S"; "SW"; "SE"] /\
    Terrain.hazards (Terrain.assessTerrainTacticalValue m) =
      [a +:+ "-facing slope - drier fuels increase fire intensity"].
Proof.
  split; [exact unit_draws_rng|].
  exact (assessTerrainTacticalValue_mock 37 (-120) rng unit_draws_rng).
Defined.

Lemma assessTerrainTacticalValue_slope_witness :
  Terrain.terrainType terrain = Terrain.categorizeSlope (Terrain.slope terrain) /\
  (length (Terrain.hazards (Terrain.assessTerrainTacticalValue terrain)) <= 4)%nat.
Proof.
  assert (Ht : Terrain.terrainType terrain =
               Terrain.categorizeSlope (Terrain.slope terrain)) by reflexivity.
  split; [exact Ht|].
  destruct (assessTerrainTacticalValue_slope terrain Ht) as (_ & _ & _ & _ & _ & Hh).
  exact Hh.
Defined.



Lemma calculateIAPSimilarity_bounds_witness :
  Iap.acres_nonneg canyon /\
  forall z,
    Iap.calculateIAPSimilarity incident weather tactics canyon (Some terrain) = Some z ->
    (0 <= z <= 106)%Z.
Proof.
  assert (Ha : Iap.acres_nonneg canyon) by compare_Q.
  split; [exact Ha|].
  exact (proj1 (calculateIAPSimilarity_bounds incident weather tactics canyon
                  (Some terrain) Ha)).
Defined.

Lemma findRelevantIAPs_insights_witness :
  exists r,
    Iap.findRelevantIAPs [canyon; meadow] incident weather tactics (Some terrain) =
      Some r /\
    Forall (fun i =>
      (String.length (Iap.tacticalSnippet i) <= 300)%nat /\
      (1 <= length (Iap.reasoning i) <= 3)%nat) r.
Proof.
  eexists. split; [vm_compute; reflexivity|].
  match goal with |- Forall _ ?r =>
    assert (Hr : Iap.findRelevantIAPs [canyon; meadow] incident weather tactics
                   (Some terrain) = Some r) by (vm_compute; reflexivity);
    pose proof (findRelevantIAPs_insights _ _ _ _ _ r Hr) as Hall
  end.
  eapply Forall_impl; [exact Hall|].
  intros i (iap & section & _ & _ & _ & _ & _ & _ & _ & Hs & Hb).
  split; [exact Hs | exact Hb].
Defined.

Lemma findRelevantIAPs_mock_terrain_throws_witness :
  -125 <= lon incident /\ lon incident <= -114 /\
  canyon ∈ [canyon; meadow] /\ truthyS (Iap.rawText canyon) = true /\
  Iap.findRelevantIAPs [canyon; meadow] incident weather tactics
    (Some (fst (Terrain.getTerrainMetrics (lat incident) (lon incident) rng))) = None.
Proof.
  assert (Hlo : -125 <= lon incident) by compare_Q.
  assert (Hhi : lon incident <= -114) by compare_Q.
  assert (Hin : canyon ∈ [canyon; meadow]) by apply list_elem_of_here.
  assert (Hraw : truthyS (Iap.rawText canyon) = true) by reflexivity.
  split; [exact Hlo|]. split; [exact Hhi|]. split; [exact Hin|]. split; [exact Hraw|].
  destruct (findRelevantIAPs_mock_terrain_throws [canyon; meadow] incident weather
              (lat incident) (lon incident) rng canyon Hlo Hhi Hin Hraw)
    as (_ & _ & Hthrow).
  exact Hthrow.
Defined.

Lemma checkRateLimit_window_witness :
  (0 <= Service.requestCount limiter <= 10)%Z /\
  fst (Service.calls [1; 2; 3]%Z limiter) = [true; false; false] /\
  Service.checkRateLimit 60001 limiter =
    (true, {| Service.requestCount := 1; Service.rateLimitWindow := 60001 |}).
Proof.
  assert (Hc : (0 <= Service.requestCount limiter <= 10)%Z) by (cbn; lia).
  split; [exact Hc|].
  destruct (checkRateLimit_window limiter [1; 2; 3]%Z 60001 Hc) as (Hin & Hlate & _).
  split.
  - refine (proj1 (Hin _)). repeat constructor; cbn; lia.
  - apply Hlate. cbn. lia.
Defined.

End MoreScenarioFacts.
